(** * The ampdoc service (src/service/ampdoc-impl.js)

    A shallow embedding of [AmpDocService] and of the [AmpDoc] variants
    ([AmpDocSingle], [AmpDocShadow], [AmpDocFie]), followed by the properties
    of the ownership resolution and of the document life cycle.

    JavaScript objects are modelled by reference: every [AmpDoc] lives in a
    heap and is named by its index there, so that two documents built from
    the same arguments remain different objects.  The expando properties the
    service writes on DOM nodes ([node[AMPDOC_PROP]]) and the ones custom
    elements cache ([node.ampdoc_]) are side tables of the state. *)

From stdpp Require Import gmap strings list fin_maps relations.


(** ** The DOM, as far as the service looks at it *)

(** Identity of a DOM node, of a window, of an [AmpDoc] object, of a promise
    and of a [Signals] object. *)
Abbreviation Node := nat (only parsing).
Abbreviation Win := nat (only parsing).
Abbreviation Ref := nat (only parsing).
Abbreviation PromiseRef := nat (only parsing).
Abbreviation SignalsRef := nat (only parsing).

(** The DOM properties the file reads, and the helpers it imports from
    modules that are outside this file ([../dom], [../shadow-embed],
    [../service], [../experiments], [../document-ready], [../log]).  The
    service never changes the tree itself, so these are read-only.

    [isConnected n] is [None] on platforms without the [isConnected] API,
    [host r] is [None] when [r.host] is undefined (anything but a shadow
    root), [frameElement w] is [None] for a window that is not framed.
    [debugBuild] tells whether [devAssert] checks its argument. *)
Record Env := {
  document : Win -> Node;
  frameElement : Win -> option Node;
  body : Node -> option Node;
  nodeType : Node -> Z;
  host : Node -> option Node;
  isConnected : Node -> option bool;
  rootNodeFor : Node -> option Node;
  getShadowRootNode : Node -> option Node;
  getParentWindowFrameElement : Node -> Win -> option Node;
  isExperimentOn : Win -> string -> bool;
  isDocumentReady : Node -> bool;
  debugBuild : bool
}.

(** ** Objects *)

(** Modelled from the spec: the [Deferred] of [../utils/promise], a one-shot
    deferred value.  A promise is pending or settled with a value; the value
    is a node, or nothing for a promise of no value. *)
Inductive PromiseState :=
| Pending
| Resolved (value : option Node).

(** The fields of the three concrete classes.  A resolver field holds the
    [resolve] function of the deferred whose promise is named, or [None]
    once it has been set to [undefined]. *)
Inductive AmpDocVariant :=
| AmpDocSingle (bodyPromise_ readyPromise_ : PromiseRef)
| AmpDocShadow (url_ : string) (shadowRoot_ : Node) (body_ : option Node)
    (bodyPromise_ : PromiseRef) (bodyResolver_ : option PromiseRef)
    (ready_ : bool) (readyPromise_ : PromiseRef)
    (readyResolver_ : option PromiseRef)
| AmpDocFie (url_ : string) (parent_ : Ref) (bodyPromise_ : PromiseRef)
    (ready_ : bool) (readyPromise_ : PromiseRef)
    (readyResolver_ : option PromiseRef).

(** The fields of the base class [AmpDoc], and the variant. *)
Record AmpDoc := {
  doc_win : Win;
  signals_ : SignalsRef;
  declaredExtensions_ : list string;
  variant : AmpDocVariant
}.

(** [AmpDocOptions]: the optional argument, with its optional [signals]. *)
Definition AmpDocOptions := option (option SignalsRef).

Record AmpDocService := {
  win : Win;
  singleDoc_ : option Ref;
  ampdocFieExperimentOn_ : bool;
  mightHaveShadowRoots_ : bool
}.

(** The mutable world: the service, the heaps of documents and promises, the
    number of [Signals] objects made so far, and the two expando tables. *)
Record State := {
  service : AmpDocService;
  heap : list AmpDoc;
  promises : list PromiseState;
  signalsCount : nat;
  AMPDOC_PROP : gmap Node Ref;
  ampdoc_ : gmap Node Ref
}.

Definition set_service (f : AmpDocService -> AmpDocService) (st : State) : State :=
  {| service := f (service st); heap := heap st; promises := promises st;
     signalsCount := signalsCount st; AMPDOC_PROP := AMPDOC_PROP st;
     ampdoc_ := ampdoc_ st |}.

Definition set_heap (f : list AmpDoc -> list AmpDoc) (st : State) : State :=
  {| service := service st; heap := f (heap st); promises := promises st;
     signalsCount := signalsCount st; AMPDOC_PROP := AMPDOC_PROP st;
     ampdoc_ := ampdoc_ st |}.

Definition set_promises (f : list PromiseState -> list PromiseState) (st : State) : State :=
  {| service := service st; heap := heap st; promises := f (promises st);
     signalsCount := signalsCount st; AMPDOC_PROP := AMPDOC_PROP st;
     ampdoc_ := ampdoc_ st |}.

Definition set_signalsCount (f : nat -> nat) (st : State) : State :=
  {| service := service st; heap := heap st; promises := promises st;
     signalsCount := f (signalsCount st); AMPDOC_PROP := AMPDOC_PROP st;
     ampdoc_ := ampdoc_ st |}.

Definition set_AMPDOC_PROP (f : gmap Node Ref -> gmap Node Ref) (st : State) : State :=
  {| service := service st; heap := heap st; promises := promises st;
     signalsCount := signalsCount st; AMPDOC_PROP := f (AMPDOC_PROP st);
     ampdoc_ := ampdoc_ st |}.

Definition set_ampdoc_ (f : gmap Node Ref -> gmap Node Ref) (st : State) : State :=
  {| service := service st; heap := heap st; promises := promises st;
     signalsCount := signalsCount st; AMPDOC_PROP := AMPDOC_PROP st;
     ampdoc_ := f (ampdoc_ st) |}.

(** ** Calls that may throw *)

Inductive JsError :=
| AssertionError (opt_message : option string)
| CreatedError (msg : string) (node : Node)
| TypeError (msg : string).

(** The outcome of a call: a value, a thrown error, or [OutOfFuel] when the
    bound put on a [while] loop was too small.  The state a call leaves is
    kept in all three cases: what was written before a throw stays
    written. *)
Inductive Outcome (A : Type) :=
| Normal (a : A)
| Throw (e : JsError)
| OutOfFuel.
Arguments Normal {A} a.
Arguments Throw {A} e.
Arguments OutOfFuel {A}.

Definition M (A : Type) := State -> Outcome A * State.

Definition ret {A} (a : A) : M A := fun st => (Normal a, st).
Definition throw {A} (e : JsError) : M A := fun st => (Throw e, st).
Definition bind {A B} (m : M A) (k : A -> M B) : M B :=
  fun st =>
    match m st with
    | (Normal a, st') => k a st'
    | (Throw e, st') => (Throw e, st')
    | (OutOfFuel, st') => (OutOfFuel, st')
    end.

(** JavaScript truthiness of a value that is an object or null/undefined. *)
Definition truthy {A} (v : option A) : bool :=
  match v with Some _ => true | None => false end.

Definition get : M State := fun st => (Normal st, st).
Definition modify (f : State -> State) : M unit := fun st => (Normal tt, f st).

Notation "'do' x <- m ; k" := (bind m (fun x => k))
  (at level 10, x name, m at level 100, k at level 200,
   format "'[v' 'do'  x  <-  m ; '/' k ']'").

Section Model.
Context (env : Env).

(** Modelled from the spec: [devAssert] of [../log].  In a debug build a
    falsy argument throws an assertion error carrying the message; in a
    non-strict build the check is skipped (the spec says so of the check of
    [getAmpDoc], which is a [devAssert] like the others).  Either way the
    argument is the value of the call. *)
Definition devAssert (shouldBeTrueish : bool) (opt_message : option string) : M unit :=
  if debugBuild env && negb shouldBeTrueish
  then throw (AssertionError opt_message) else ret tt.

(** ** The resolution: [getAmpDocIfAvailable] *)

(** What one turn of a [while] body does: [return] a document, [break], or
    reach the end of the body with a new value of [n] (which may be null). *)
Inductive Turn :=
| Return (ampdoc : Ref)
| Break
| Next (n : option Node).

(** How a loop ends. *)
Inductive LoopEnd :=
| Returned (ampdoc : Ref)
| Exited.

(** [while (n) { body }], run for at most [fuel] turns. *)
Fixpoint while (fuel : nat) (body : Node -> Turn) (n : option Node) : option LoopEnd :=
  match n with
  | None => Some Exited
  | Some m =>
    match fuel with
    | O => None
    | S fuel' =>
      match body m with
      | Return ampdoc => Some (Returned ampdoc)
      | Break => Some Exited
      | Next n' => while fuel' body n'
      end
    end
  end.

(** The body of the loop of lines 105-132 (the experiment is on). *)
Definition fie_body (st : State) (n : Node) : Turn :=
  match ampdoc_ st !! n with
  | Some d => Return d
  | None =>
    match rootNodeFor env n with
    | None => Break
    | Some rootNode =>
      match AMPDOC_PROP st !! rootNode with
      | Some ampdoc => Return ampdoc
      | None =>
        match host env rootNode with
        | Some h => Next (Some h)
        | None => Next (getParentWindowFrameElement env rootNode (win (service st)))
        end
      end
    end
  end.

(** The body of the loop of lines 139-171. *)
Definition legacy_body (st : State) (n : Node) : Turn :=
  match ampdoc_ st !! n with
  | Some d => Return d
  | None =>
    match getParentWindowFrameElement env n (win (service st)) with
    | Some frameElement => Next (Some frameElement)
    | None =>
      if negb (mightHaveShadowRoots_ (service st)) then Break
      else
        match (if (nodeType env n =? 9)%Z then Some n else getShadowRootNode env n) with
        | None => Break
        | Some shadowRoot =>
          match AMPDOC_PROP st !! shadowRoot with
          | Some ampdoc => Return ampdoc
          | None => Next (host env shadowRoot)
          end
        end
    end
  end.

(** [getAmpDocIfAvailable(node)]: [None] when the fuel ran out, else
    [Some r] where [r] is the document returned, or null. *)
Definition getAmpDocIfAvailable (fuel : nat) (st : State) (node : Node) : option (option Ref) :=
  if ampdocFieExperimentOn_ (service st) then
    match while fuel (fie_body st) (Some node) with
    | None => None
    | Some (Returned ampdoc) => Some (Some ampdoc)
    | Some Exited => Some None
    end
  else
    match while fuel (legacy_body st) (Some node) with
    | None => None
    | Some (Returned ampdoc) => Some (Some ampdoc)
    | Some Exited => Some (singleDoc_ (service st))
    end.

(** ** Allocation *)

(** [new Deferred()], or a promise obtained from a collaborator: a new
    promise in the given state. *)
Definition newPromise (s : PromiseState) : M PromiseRef :=
  do st <- get;
  do _ <- modify (set_promises (fun ps => ps ++ [s]));
  ret (length (promises st)).

(** [(opt_options && opt_options.signals) || new Signals()]. *)
Definition signalsFor (opt_options : AmpDocOptions) : M SignalsRef :=
  match opt_options with
  | Some (Some signals) => ret signals
  | _ =>
    do st <- get;
    do _ <- modify (set_signalsCount S);
    ret (signalsCount st)
  end.

(** The object a constructor has filled in joins the heap; its reference is
    the value of the [new] expression. *)
Definition alloc (o : AmpDoc) : M Ref :=
  do st <- get;
  do _ <- modify (set_heap (fun h => h ++ [o]));
  ret (length (heap st)).

(** [win.document.body ? Promise.resolve(win.document.body)
     : waitForBodyOpenPromise(win.document).then(...)]. *)
Definition bodyPromiseOf (w : Win) : M PromiseRef :=
  match body env (document env w) with
  | Some b => newPromise (Resolved (Some b))
  | None => newPromise Pending
  end.

(** [new AmpDocSingle(win, opt_options)], lines 432-442.  Modelled from the
    spec: [whenDocumentReady] gives a promise that is settled when the
    document is ready already. *)
Definition new_AmpDocSingle (w : Win) (opt_options : AmpDocOptions) : M Ref :=
  do signals <- signalsFor opt_options;
  do bodyPromise <- bodyPromiseOf w;
  do readyPromise <-
    newPromise (if isDocumentReady env (document env w) then Resolved None else Pending);
  alloc {| doc_win := w; signals_ := signals; declaredExtensions_ := [];
           variant := AmpDocSingle bodyPromise readyPromise |}.

(** [new AmpDocShadow(win, url, shadowRoot, opt_options)], lines 507-535. *)
Definition new_AmpDocShadow (w : Win) (url : string) (shadowRoot : Node)
    (opt_options : AmpDocOptions) : M Ref :=
  do signals <- signalsFor opt_options;
  do bodyDeferred <- newPromise Pending;
  do readyDeferred <- newPromise Pending;
  alloc {| doc_win := w; signals_ := signals; declaredExtensions_ := [];
           variant := AmpDocShadow url shadowRoot None
                        bodyDeferred (Some bodyDeferred)
                        false readyDeferred (Some readyDeferred) |}.

(** [new AmpDocFie(win, url, parent, opt_options)], lines 622-644. *)
Definition new_AmpDocFie (w : Win) (url : string) (parent : Ref)
    (opt_options : AmpDocOptions) : M Ref :=
  do signals <- signalsFor opt_options;
  do bodyPromise <- bodyPromiseOf w;
  do readyDeferred <- newPromise Pending;
  alloc {| doc_win := w; signals_ := signals; declaredExtensions_ := [];
           variant := AmpDocFie url parent bodyPromise
                        false readyDeferred (Some readyDeferred) |}.

(** ** [AmpDocService] *)

(** The constructor, lines 51-67.  It runs in the world as it is and fills
    in the fields of the new service. *)
Definition AmpDocService_constructor (w : Win) (isSingleDoc : bool) : M unit :=
  do singleDoc <-
    (if isSingleDoc then
       do d <- new_AmpDocSingle w None;
       do _ <- modify (set_AMPDOC_PROP <[document env w := d]>);
       ret (Some d)
     else ret None);
  modify (set_service (fun _ =>
    {| win := w; singleDoc_ := singleDoc;
       ampdocFieExperimentOn_ := isExperimentOn env w "ampdoc-fie";
       mightHaveShadowRoots_ := negb isSingleDoc |})).

(** The state once [new AmpDocService(win, isSingleDoc)] has run in [st0]. *)
Definition new_AmpDocService (st0 : State) (w : Win) (isSingleDoc : bool) : State :=
  snd (AmpDocService_constructor w isSingleDoc st0).

Definition isSingleDoc (st : State) : bool := truthy (singleDoc_ (service st)).

(** [getSingleDoc()]: [devAssert] gives back its argument. *)
Definition getSingleDoc : M (option Ref) :=
  do st <- get;
  do _ <- devAssert (truthy (singleDoc_ (service st))) None;
  ret (singleDoc_ (service st)).

(** [getAmpDoc(node)], lines 189-203. *)
Definition getAmpDoc (fuel : nat) (node : Node) : M Ref :=
  do _ <- devAssert
    (match isConnected env node with None => true | Some c => c end)
    (Some "The node must be attached to request ampdoc.");
  do st <- get;
  match getAmpDocIfAvailable fuel st node with
  | None => fun st => (OutOfFuel, st)
  | Some None => throw (CreatedError "No ampdoc found for" node)
  | Some (Some ampdoc) => ret ampdoc
  end.

Definition set_mightHaveShadowRoots_ (b : bool) (s : AmpDocService) : AmpDocService :=
  {| win := win s; singleDoc_ := singleDoc_ s;
     ampdocFieExperimentOn_ := ampdocFieExperimentOn_ s;
     mightHaveShadowRoots_ := b |}.

Definition set_singleDoc_ (d : option Ref) (s : AmpDocService) : AmpDocService :=
  {| win := win s; singleDoc_ := d;
     ampdocFieExperimentOn_ := ampdocFieExperimentOn_ s;
     mightHaveShadowRoots_ := mightHaveShadowRoots_ s |}.

Definition set_ampdocFieExperimentOn_ (b : bool) (s : AmpDocService) : AmpDocService :=
  {| win := win s; singleDoc_ := singleDoc_ s;
     ampdocFieExperimentOn_ := b;
     mightHaveShadowRoots_ := mightHaveShadowRoots_ s |}.

(** [installShadowDoc(url, shadowRoot)], lines 212-221. *)
Definition installShadowDoc (url : string) (shadowRoot : Node) : M Ref :=
  do _ <- modify (set_service (set_mightHaveShadowRoots_ true));
  do st <- get;
  do _ <- devAssert (negb (truthy (AMPDOC_PROP st !! shadowRoot)))
            (Some "The shadow root already contains ampdoc");
  do ampdoc <- new_AmpDocShadow (win (service st)) url shadowRoot None;
  do _ <- modify (set_AMPDOC_PROP <[shadowRoot := ampdoc]>);
  ret ampdoc.

(** [installFieDoc(url, childWin, opt_options)], lines 231-243.  When the
    assertion on [childWin.frameElement] is skipped and the value is null,
    [getAmpDoc(null)] fails on reading [node['isConnected']]. *)
Definition installFieDoc (fuel : nat) (url : string) (childWin : Win)
    (opt_options : AmpDocOptions) : M Ref :=
  let doc := document env childWin in
  do st <- get;
  do _ <- devAssert (negb (truthy (AMPDOC_PROP st !! doc)))
            (Some "The fie already contains ampdoc");
  do _ <- devAssert (truthy (frameElement env childWin)) None;
  do parent <-
    match frameElement env childWin with
    | Some frameElement => getAmpDoc fuel frameElement
    | None => throw (TypeError "Cannot read properties of null")
    end;
  do ampdoc <- new_AmpDocFie childWin url parent opt_options;
  do _ <- modify (set_AMPDOC_PROP <[doc := ampdoc]>);
  ret ampdoc.

(** [updateFieModeForTesting(ampdocService, value)], lines 726-729. *)
Definition updateFieModeForTesting (value : bool) : M unit :=
  modify (set_service (set_ampdocFieExperimentOn_ value)).

(** ** [AmpDoc] and its variants *)

(** [this]: the receiver of a method call, read from the heap. *)
Definition this (d : Ref) : M AmpDoc :=
  fun st =>
    match heap st !! d with
    | Some o => (Normal o, st)
    | None => (Throw (TypeError "not an AmpDoc"), st)
    end.

(** An assignment to a field of [this]. *)
Definition assign (d : Ref) (f : AmpDoc -> AmpDoc) : M unit :=
  modify (set_heap (alter f d)).

(** [isSingleDoc()] of a document: lines 445, 538, 647. *)
Definition AmpDoc_isSingleDoc (o : AmpDoc) : bool :=
  match variant o with
  | AmpDocSingle _ _ => true
  | AmpDocShadow _ _ _ _ _ _ _ _ => false
  | AmpDocFie _ _ _ _ _ _ => false
  end.

(** [getParent()]: lines 450, 543, 652 (each variant overrides the
    [return null] of the base class, line 287). *)
Definition getParent (o : AmpDoc) : option Ref :=
  match variant o with
  | AmpDocSingle _ _ => None
  | AmpDocShadow _ _ _ _ _ _ _ _ => None
  | AmpDocFie _ parent_ _ _ _ _ => Some parent_
  end.

(** [getRootNode()]: lines 455, 548, 657. *)
Definition getRootNode (o : AmpDoc) : Node :=
  match variant o with
  | AmpDocSingle _ _ => document env (doc_win o)
  | AmpDocShadow _ shadowRoot_ _ _ _ _ _ _ => shadowRoot_
  | AmpDocFie _ _ _ _ _ _ => document env (doc_win o)
  end.

(** [isBodyAvailable()]: lines 470, 563, 672. *)
Definition isBodyAvailable (o : AmpDoc) : bool :=
  match variant o with
  | AmpDocSingle _ _ => truthy (body env (document env (doc_win o)))
  | AmpDocShadow _ _ body_ _ _ _ _ _ => truthy body_
  | AmpDocFie _ _ _ _ _ _ => truthy (body env (document env (doc_win o)))
  end.

(** Modelled from the spec: [dev().assertElement] of [../log] gives back
    its argument when it is an element (node type 1) and fails otherwise. *)
Definition assertElement (shouldBeElement : option Node) (opt_message : option string) : Outcome Node :=
  match shouldBeElement with
  | Some e => if (nodeType env e =? 1)%Z then Normal e
              else Throw (AssertionError opt_message)
  | None => Throw (AssertionError opt_message)
  end.

(** [getBody()]: lines 475, 568, 677. *)
Definition getBody (o : AmpDoc) : Outcome Node :=
  match variant o with
  | AmpDocSingle _ _ =>
    assertElement (body env (document env (doc_win o))) (Some "body not available")
  | AmpDocShadow _ _ body_ _ _ _ _ _ =>
    assertElement body_ (Some "body not available")
  | AmpDocFie _ _ _ _ _ _ =>
    assertElement (body env (document env (doc_win o))) (Some "body not available")
  end.

(** [waitForBodyOpen()]: lines 480, 585, 682. *)
Definition waitForBodyOpen (o : AmpDoc) : PromiseRef :=
  match variant o with
  | AmpDocSingle bodyPromise_ _ => bodyPromise_
  | AmpDocShadow _ _ _ bodyPromise_ _ _ _ _ => bodyPromise_
  | AmpDocFie _ _ bodyPromise_ _ _ _ => bodyPromise_
  end.

(** [isReady()]: lines 485, 590, 687. *)
Definition isReady (o : AmpDoc) : bool :=
  match variant o with
  | AmpDocSingle _ _ => isDocumentReady env (document env (doc_win o))
  | AmpDocShadow _ _ _ _ _ ready_ _ _ => ready_
  | AmpDocFie _ _ _ ready_ _ _ => ready_
  end.

(** [whenReady()]: lines 490, 606, 692. *)
Definition whenReady (o : AmpDoc) : PromiseRef :=
  match variant o with
  | AmpDocSingle _ readyPromise_ => readyPromise_
  | AmpDocShadow _ _ _ _ _ _ readyPromise_ _ => readyPromise_
  | AmpDocFie _ _ _ _ readyPromise_ _ => readyPromise_
  end.

(** Modelled from the spec: [resolve(value)] of a [Deferred] settles its
    promise once; a promise that is settled already stays as it is. *)
Definition resolve (value : option Node) (s : PromiseState) : PromiseState :=
  match s with
  | Pending => Resolved value
  | Resolved _ => s
  end.

(** A call of a resolver field.  Calling [undefined] is a type error. *)
Definition callResolver (resolver : option PromiseRef) (value : option Node) : M unit :=
  match resolver with
  | None => throw (TypeError "is not a function")
  | Some p => modify (set_promises (alter (resolve value) p))
  end.

Definition set_variant (v : AmpDocVariant) (o : AmpDoc) : AmpDoc :=
  {| doc_win := doc_win o; signals_ := signals_ o;
     declaredExtensions_ := declaredExtensions_ o; variant := v |}.

(** [setBody(body)] of [AmpDocShadow], lines 577-582.  The other classes
    have no such method. *)
Definition setBody (d : Ref) (body : Node) : M unit :=
  do o <- this d;
  match variant o with
  | AmpDocShadow url sr body_ bp bodyResolver_ rdy rp rr =>
    do _ <- devAssert (negb (truthy body_)) (Some "Duplicate body");
    do _ <- assign d (set_variant (AmpDocShadow url sr (Some body) bp bodyResolver_ rdy rp rr));
    do _ <- callResolver bodyResolver_ (Some body);
    assign d (set_variant (AmpDocShadow url sr (Some body) bp None rdy rp rr))
  | _ => throw (TypeError "setBody is not a function")
  end.

(** [setReady()] of [AmpDocShadow], lines 598-603, and of [AmpDocFie],
    lines 700-705. *)
Definition setReady (d : Ref) : M unit :=
  do o <- this d;
  match variant o with
  | AmpDocShadow url sr b bp br ready_ rp readyResolver_ =>
    do _ <- devAssert (negb ready_) (Some "Duplicate ready state");
    do _ <- assign d (set_variant (AmpDocShadow url sr b bp br true rp readyResolver_));
    do _ <- callResolver readyResolver_ None;
    assign d (set_variant (AmpDocShadow url sr b bp br true rp None))
  | AmpDocFie url parent bp ready_ rp readyResolver_ =>
    do _ <- devAssert (negb ready_) (Some "Duplicate ready state");
    do _ <- assign d (set_variant (AmpDocFie url parent bp true rp readyResolver_));
    do _ <- callResolver readyResolver_ None;
    assign d (set_variant (AmpDocFie url parent bp true rp None))
  | AmpDocSingle _ _ => throw (TypeError "setReady is not a function")
  end.

(** [Array.prototype.indexOf] on an array of strings: the first index that
    holds the string, or -1. *)
Fixpoint indexOf (l : list string) (x : string) : Z :=
  match l with
  | [] => -1
  | y :: l' =>
    if String.eqb y x then 0
    else let i := indexOf l' x in if (i =? -1)%Z then -1 else (i + 1)%Z
  end.

(** [declaresExtension(extensionId)], line 311. *)
Definition declaresExtension (o : AmpDoc) (extensionId : string) : bool :=
  negb (indexOf (declaredExtensions_ o) extensionId =? -1)%Z.

(** [declareExtension(extensionId)], lines 319-323: what the call makes of
    the receiver. *)
Definition declareExtension (o : AmpDoc) (extensionId : string) : AmpDoc :=
  if negb (declaresExtension o extensionId)
  then {| doc_win := doc_win o; signals_ := signals_ o;
          declaredExtensions_ := declaredExtensions_ o ++ [extensionId];
          variant := variant o |}
  else o.

(** ** The calls a client can make, one after the other *)

Inductive Call :=
| CallGetSingleDoc
| CallGetAmpDoc (fuel : nat) (node : Node)
| CallInstallShadowDoc (url : string) (shadowRoot : Node)
| CallInstallFieDoc (fuel : nat) (url : string) (childWin : Win) (opt_options : AmpDocOptions)
| CallUpdateFieModeForTesting (value : bool)
| CallDeclareExtension (d : Ref) (extensionId : string)
| CallSetBody (d : Ref) (body : Node)
| CallSetReady (d : Ref)
| CacheOwner (n : Node) (d : Ref).

(** The state a call leaves, whether it returns or throws.  [CacheOwner n d]
    is the write [n.ampdoc_ = d] that a custom element does, outside this
    file, with a document the service gave it. *)
Definition exec (c : Call) (st : State) : State :=
  match c with
  | CallGetSingleDoc => snd (getSingleDoc st)
  | CallGetAmpDoc fuel node => snd (getAmpDoc fuel node st)
  | CallInstallShadowDoc url shadowRoot => snd (installShadowDoc url shadowRoot st)
  | CallInstallFieDoc fuel url childWin opt_options =>
    snd (installFieDoc fuel url childWin opt_options st)
  | CallUpdateFieModeForTesting value => snd (updateFieModeForTesting value st)
  | CallDeclareExtension d extensionId =>
    set_heap (alter (fun o => declareExtension o extensionId) d) st
  | CallSetBody d body => snd (setBody d body st)
  | CallSetReady d => snd (setReady d st)
  | CacheOwner n d => set_ampdoc_ <[n := d]> st
  end.

(** A cached owner is a document that exists. *)
Definition allowed (c : Call) (st : State) : Prop :=
  match c with
  | CacheOwner n d => d < length (heap st)
  | _ => True
  end.

Definition step (st st' : State) : Prop :=
  exists c, allowed c st /\ st' = exec c st.

(** ** Notions the properties are stated with *)

(** The world before any service or document exists. *)
Definition empty_world : State :=
  {| service := {| win := 0; singleDoc_ := None;
                   ampdocFieExperimentOn_ := false;
                   mightHaveShadowRoots_ := false |};
     heap := []; promises := []; signalsCount := 0;
     AMPDOC_PROP := ∅; ampdoc_ := ∅ |}.

(** The states the program can be in: the service is constructed in the
    empty world, then called any number of times. *)
Definition reachable (st : State) : Prop :=
  exists w isSingleDoc,
    rtc step (new_AmpDocService empty_world w isSingleDoc) st.

(** [reaches body k n m]: a loop started with [n] is at the top of its body
    with [m] after [k] turns. *)
Inductive reaches (body : Node -> Turn) : nat -> Node -> Node -> Prop :=
| reaches_here n : reaches body 0 n n
| reaches_next k n n' m :
    body n = Next (Some n') -> reaches body k n' m -> reaches body (S k) n m.

(** Where the frame-embed-aware traversal finds nothing at [m]: no
    back-reference, and either no root node, or a root node without marker,
    without host and without frame element to go on with. *)
Definition fie_finds_nothing (st : State) (m : Node) : Prop :=
  ampdoc_ st !! m = None /\
  (rootNodeFor env m = None \/
   exists rootNode,
     rootNodeFor env m = Some rootNode /\
     AMPDOC_PROP st !! rootNode = None /\
     host env rootNode = None /\
     getParentWindowFrameElement env rootNode (win (service st)) = None).

(** Where the legacy loop exits at [m] without a match: no back-reference,
    no frame element, and then the fast path, no root, or an unmarked root
    without host. *)
Definition legacy_finds_nothing (st : State) (m : Node) : Prop :=
  ampdoc_ st !! m = None /\
  getParentWindowFrameElement env m (win (service st)) = None /\
  (mightHaveShadowRoots_ (service st) = false \/
   exists shadowRoot,
     (if (nodeType env m =? 9)%Z then Some m else getShadowRootNode env m) = shadowRoot /\
     match shadowRoot with
     | None => True
     | Some r => AMPDOC_PROP st !! r = None /\ host env r = None
     end).

(** [n] lies in the tree of the main document of window [w], with no shadow
    root and no frame between them: the root of [n] is that document, [n]
    is in no other window, the only document it can be is that one, and
    the only root the shadow-root lookup can report is that one. *)
Definition InMainDocument (w : Win) (n : Node) : Prop :=
  rootNodeFor env n = Some (document env w) /\
  getParentWindowFrameElement env n w = None /\
  (nodeType env n = 9%Z -> n = document env w) /\
  (forall r, getShadowRootNode env n = Some r -> r = document env w).

(** [n] is rooted in the shadow root [root], in the window [w] of the
    service. *)
Definition InShadowRoot (w : Win) (root n : Node) : Prop :=
  rootNodeFor env n = Some root /\
  getShadowRootNode env n = Some root /\
  nodeType env n <> 9%Z /\
  getParentWindowFrameElement env n w = None.

(** Single-document mode with the top-level document [d]: what the
    constructor leaves when [isSingleDoc] is true. *)
Definition SingleDocMode (st : State) (d : Ref) : Prop :=
  singleDoc_ (service st) = Some d /\
  AMPDOC_PROP st !! document env (win (service st)) = Some d.

(** [parentOf st p d]: [getParent()] of the document [d] is [p]. *)
Definition parentOf (st : State) (p d : Ref) : Prop :=
  exists o, heap st !! d = Some o /\ getParent o = Some p.

(** [evolves v v']: what the fields of a document can become in the course
    of the calls.  The constant fields stay; a body, once set, stays set
    (and stays the same element while [devAssert] checks); a document that
    is ready stays ready. *)
Definition evolves (v v' : AmpDocVariant) : Prop :=
  match v, v' with
  | AmpDocSingle bp rp, AmpDocSingle bp' rp' => bp' = bp /\ rp' = rp
  | AmpDocShadow url sr b bp _ rdy rp _, AmpDocShadow url' sr' b' bp' _ rdy' rp' _ =>
    url' = url /\ sr' = sr /\ bp' = bp /\ rp' = rp /\
    (forall el, b = Some el ->
       if debugBuild env then b' = Some el else is_Some b') /\
    (rdy = true -> rdy' = true)
  | AmpDocFie url parent bp rdy rp _, AmpDocFie url' parent' bp' rdy' rp' _ =>
    url' = url /\ parent' = parent /\ bp' = bp /\ rp' = rp /\
    (rdy = true -> rdy' = true)
  | _, _ => False
  end.

(** [allocated st st' o s1 s2]: [st'] is [st] with one more document, [o],
    and its two promises. *)
Definition allocated (st st' : State) (o : AmpDoc) (s1 s2 : PromiseState) : Prop :=
  heap st' = heap st ++ [o] /\
  promises st' = promises st ++ [s1; s2] /\
  service st' = service st /\
  AMPDOC_PROP st' = AMPDOC_PROP st /\
  ampdoc_ st' = ampdoc_ st.

(** A resolver is there, with its promise pending, until it has been
    called; then it is undefined. *)
Definition body_inv (st : State) (body_ : option Node) (bodyPromise_ : PromiseRef)
    (bodyResolver_ : option PromiseRef) : Prop :=
  match body_ with
  | None => bodyResolver_ = Some bodyPromise_ /\ promises st !! bodyPromise_ = Some Pending
  | Some _ => bodyResolver_ = None
  end.

Definition ready_inv (st : State) (ready_ : bool) (readyPromise_ : PromiseRef)
    (readyResolver_ : option PromiseRef) : Prop :=
  if ready_ then readyResolver_ = None
  else readyResolver_ = Some readyPromise_ /\ promises st !! readyPromise_ = Some Pending.

Definition pending_inv (st : State) (o : AmpDoc) : Prop :=
  match variant o with
  | AmpDocSingle _ _ => True
  | AmpDocShadow _ _ body_ bp bodyResolver_ ready_ rp readyResolver_ =>
    body_inv st body_ bp bodyResolver_ /\ ready_inv st ready_ rp readyResolver_
  | AmpDocFie _ _ _ ready_ rp readyResolver_ =>
    ready_inv st ready_ rp readyResolver_
  end.

(** What holds of every reachable state: references point into the heap, a
    parent is older than its child, no extension is declared twice, and the
    document of index [d] owns the promises [2 * d] and [2 * d + 1]. *)
Record wf (st : State) : Prop := {
  wf_marker : forall n d, AMPDOC_PROP st !! n = Some d -> d < length (heap st);
  wf_cached : forall n d, ampdoc_ st !! n = Some d -> d < length (heap st);
  wf_single : forall d, singleDoc_ (service st) = Some d -> d < length (heap st);
  wf_promises : length (promises st) = 2 * length (heap st);
  wf_parent : forall d o p, heap st !! d = Some o -> getParent o = Some p -> p < d;
  wf_extensions : forall d o, heap st !! d = Some o -> NoDup (declaredExtensions_ o);
  wf_owned : forall d o, heap st !! d = Some o ->
    waitForBodyOpen o = 2 * d /\ whenReady o = 2 * d + 1;
  wf_pending : forall d o, heap st !! d = Some o -> pending_inv st o
}.

End Model.

(** ** More of [AmpDoc], and what a call does *)

Section Accessors.
Context (env : Env).

(** What the remaining accessors read and that [Env] does not hold:
    [win.location.href] and [document.head]. *)
Context (href : nat -> string) (head : nat -> option nat).

(** [getWin()], lines 296-298. *)
Definition getWin (o : AmpDoc) : nat := doc_win o.

(** [signals()], lines 301-303. *)
Definition signals (o : AmpDoc) : nat := signals_ o.

(** [getUrl()]: lines 460, 553, 662. *)
Definition getUrl (o : AmpDoc) : string :=
  match variant o with
  | AmpDocSingle _ _ => href (doc_win o)
  | AmpDocShadow url_ _ _ _ _ _ _ _ => url_
  | AmpDocFie url_ _ _ _ _ _ => url_
  end.

(** [getHeadNode()]: lines 465, 558, 667. *)
Definition getHeadNode (o : AmpDoc) : Outcome nat :=
  match variant o with
  | AmpDocSingle _ _ => assertElement env (head (document env (doc_win o))) None
  | AmpDocShadow _ shadowRoot_ _ _ _ _ _ _ => Normal shadowRoot_
  | AmpDocFie _ _ _ _ _ _ => assertElement env (head (document env (doc_win o))) None
  end.

(** [persists o o']: what a document can become in the course of the
    calls: its window and its signals stay, its declared extensions are
    kept in their order and may be followed by more, and its fields evolve. *)
Definition persists (o o' : AmpDoc) : Prop :=
  doc_win o' = doc_win o /\
  signals_ o' = signals_ o /\
  (exists more, declaredExtensions_ o' = declaredExtensions_ o ++ more) /\
  evolves env (variant o) (variant o').

(** A document as [installShadowDoc] or [installFieDoc] makes it in the
    state [st], with the state [s1] of its body promise. *)
Definition newly_installed (st : State) (s1 : PromiseState) (o : AmpDoc) : Prop :=
  declaredExtensions_ o = [] /\
  ((exists url root,
      doc_win o = win (service st) /\
      s1 = Pending /\
      variant o = AmpDocShadow url root None
                    (length (promises st)) (Some (length (promises st))) false
                    (S (length (promises st))) (Some (S (length (promises st))))) \/
   (exists url parent,
      parent < length (heap st) /\
      s1 = match body env (document env (doc_win o)) with
           | Some b => Resolved (Some b)
           | None => Pending
           end /\
      variant o = AmpDocFie url parent (length (promises st)) false
                    (S (length (promises st))) (Some (S (length (promises st)))))).

(** What one call does to the documents and to the promises: nothing; one
    more document; one more declared extension; a body; a ready state. *)
Inductive Effect (st st' : State) : Prop :=
| Untouched :
    heap st' = heap st -> promises st' = promises st -> Effect st st'
| Installed o s1 :
    heap st' = heap st ++ [o] ->
    promises st' = promises st ++ [s1; Pending] ->
    newly_installed st s1 o ->
    Effect st st'
| Declared d o x :
    heap st !! d = Some o ->
    heap st' = alter (fun o => declareExtension o x) d (heap st) ->
    promises st' = promises st ->
    Effect st st'
| BodySet d o url sr b bp bres rdy rp rres body :
    heap st !! d = Some o ->
    variant o = AmpDocShadow url sr b bp bres rdy rp rres ->
    debugBuild env && truthy b = false ->
    heap st' = alter (set_variant (AmpDocShadow url sr (Some body) bp None rdy rp rres)) d
                 (heap st) ->
    promises st' = match bres with
                   | Some p => alter (resolve (Some body)) p (promises st)
                   | None => promises st
                   end ->
    Effect st st'
| ShadowReady d o url sr b bp bres rdy rp rres :
    heap st !! d = Some o ->
    variant o = AmpDocShadow url sr b bp bres rdy rp rres ->
    debugBuild env && rdy = false ->
    heap st' = alter (set_variant (AmpDocShadow url sr b bp bres true rp None)) d (heap st) ->
    promises st' = match rres with
                   | Some p => alter (resolve None) p (promises st)
                   | None => promises st
                   end ->
    Effect st st'
| FieReady d o url parent bp rdy rp rres :
    heap st !! d = Some o ->
    variant o = AmpDocFie url parent bp rdy rp rres ->
    debugBuild env && rdy = false ->
    heap st' = alter (set_variant (AmpDocFie url parent bp true rp None)) d (heap st) ->
    promises st' = match rres with
                   | Some p => alter (resolve None) p (promises st)
                   | None => promises st
                   end ->
    Effect st st'.

(** What the promises of a document hold: the promise of [whenReady()] is
    settled exactly when the document is ready, and the promise of
    [waitForBodyOpen()] of a shadow document when it has a body. *)
Definition settled (st : State) (o : AmpDoc) : Prop :=
  match variant o with
  | AmpDocSingle _ _ => True
  | AmpDocShadow _ _ body_ bp _ ready_ rp _ =>
    match body_ with
    | None => promises st !! bp = Some Pending
    | Some el =>
      exists el', promises st !! bp = Some (Resolved (Some el')) /\
                  (debugBuild env = true -> el' = el)
    end /\
    promises st !! rp = Some (if ready_ then Resolved None else Pending)
  | AmpDocFie _ _ _ ready_ rp _ =>
    promises st !! rp = Some (if ready_ then Resolved None else Pending)
  end.

End Accessors.

(** ** A page to run the service on

    Window 0 is the top window, with document 0, its body 1, a nested
    element 2, a shadow host 3 with shadow root 4 (holding the element 5),
    and an iframe 6.  Window 1 is the window of that iframe, with document 7
    and body 8.  Element 9 is detached: the root lookup finds nothing for
    it. *)
Definition page (fie debug : bool) : Env :=
  {| document := fun w => match w with 0 => 0 | _ => 7 end;
     frameElement := fun w => match w with 1 => Some 6 | _ => None end;
     body := fun n => match n with 0 => Some 1 | 7 => Some 8 | _ => None end;
     nodeType := fun n => match n with 0 | 7 => 9%Z | 4 => 11%Z | _ => 1%Z end;
     host := fun n => match n with 4 => Some 3 | _ => None end;
     isConnected := fun n => match n with 9 => Some false | _ => Some true end;
     rootNodeFor := fun n =>
       match n with
       | 0 | 1 | 2 | 3 | 6 => Some 0
       | 4 | 5 => Some 4
       | 7 | 8 => Some 7
       | _ => None
       end;
     getShadowRootNode := fun n => match n with 4 | 5 => Some 4 | _ => None end;
     getParentWindowFrameElement := fun n w =>
       match w, n with
       | 0, 7 | 0, 8 => Some 6
       | _, _ => None
       end;
     isExperimentOn := fun _ _ => fie;
     isDocumentReady := fun _ => true;
     debugBuild := debug |}.

(** The service of the top window, in single-document mode. *)
Definition single_page (fie debug : bool) : State :=
  new_AmpDocService (page fie debug) empty_world 0 true.

(** The service of the top window, in shadow-document mode. *)
Definition multi_page (fie debug : bool) : State :=
  new_AmpDocService (page fie debug) empty_world 0 false.

(** A shadow document installed on the shadow root 4 of the multi-document
    page. *)
Definition shadow_page (fie debug : bool) : State :=
  snd (installShadowDoc (page fie debug) "https://x/" 4 (multi_page fie debug)).

(** That shadow document once it has been given the element 5 as its body. *)
Definition body_page (fie debug : bool) : State :=
  snd (setBody (page fie debug) 0 5 (shadow_page fie debug)).

(** The single-document page once a document has been installed for the
    window of the iframe. *)
Definition fie_page (fie debug : bool) : State :=
  snd (installFieDoc (page fie debug) 1 "https://y/" 1 None (single_page fie debug)).

(** The single-document page once a shadow document has been installed on
    the shadow root 4. *)
Definition single_shadow_page (fie debug : bool) : State :=
  snd (installShadowDoc (page fie debug) "https://x/" 4 (single_page fie debug)).

(** A document that declares two extensions. *)
Definition two_extensions : AmpDoc :=
  {| doc_win := 0; signals_ := 0; declaredExtensions_ := ["amp-a"; "amp-b"];
     variant := AmpDocSingle 0 1 |}.

(** [win.location.href] of the two windows of the page. *)
Definition page_href (w : nat) : string :=
  match w with 0 => "https://top/" | _ => "https://frame/" end.

(** The page has no [head] element. *)
Definition page_head (n : nat) : option nat := None.

(** The depth of a node of the page in the nesting of shadow roots and
    frames. *)
Definition page_rank (n : nat) : nat :=
  match n with 4 | 5 | 7 | 8 => 1 | _ => 0 end.

(** The shadow document of [shadow_page] once it is ready. *)
Definition ready_page (fie debug : bool) : State :=
  snd (setReady (page fie debug) 0 (shadow_page fie debug)).

(** The page with the shadow document once the element 5 has cached its
    owner. *)
Definition cached_page (fie debug : bool) : State :=
  exec (page fie debug) (CacheOwner 5 0) (shadow_page fie debug).

(** * Properties *)

(** ** What the calls do, one by one *)

Section Calls.
Context (env : Env).

(** *** What [devAssert] and the constructors do *)

Lemma devAssert_pass c msg st :
  debugBuild env = false \/ c = true ->
  devAssert env c msg st = (Normal tt, st).
Proof. unfold devAssert. intros [-> | ->]; [reflexivity |]. by rewrite andb_false_r. Qed.

Lemma devAssert_fail c msg st :
  debugBuild env = true -> c = false ->
  devAssert env c msg st = (Throw (AssertionError msg), st).
Proof. unfold devAssert. by intros -> ->. Qed.

Lemma devAssert_cases c msg st :
  (debugBuild env = true /\ c = false /\
   devAssert env c msg st = (Throw (AssertionError msg), st)) \/
  ((debugBuild env = false \/ c = true) /\
   devAssert env c msg st = (Normal tt, st)).
Proof.
  destruct (debugBuild env) eqn:Hd, c eqn:Hc.
  - right. split; [by right |]. apply devAssert_pass. by right.
  - left. repeat split. by apply devAssert_fail.
  - right. split; [by left |]. apply devAssert_pass. by left.
  - right. split; [by left |]. apply devAssert_pass. by left.
Qed.

Lemma new_AmpDocSingle_run w opt st :
  exists o st',
    new_AmpDocSingle env w opt st = (Normal (length (heap st)), st') /\
    allocated st st' o
      (match body env (document env w) with Some b => Resolved (Some b) | None => Pending end)
      (if isDocumentReady env (document env w) then Resolved None else Pending) /\
    variant o = AmpDocSingle (length (promises st)) (S (length (promises st))) /\
    declaredExtensions_ o = [].
Proof.
  unfold new_AmpDocSingle, bodyPromiseOf, signalsFor, allocated.
  destruct opt as [[s |] |], (body env (document env w));
    (eexists _, _; split; [reflexivity |]; simpl;
     rewrite <- ?app_assoc, ?length_app; simpl;
     repeat split; try reflexivity; cbn [variant]; f_equal; lia).
Qed.

Lemma new_AmpDocShadow_run w url root opt st :
  exists o st',
    new_AmpDocShadow w url root opt st = (Normal (length (heap st)), st') /\
    allocated st st' o Pending Pending /\
    variant o = AmpDocShadow url root None
                  (length (promises st)) (Some (length (promises st))) false
                  (S (length (promises st))) (Some (S (length (promises st)))) /\
    declaredExtensions_ o = [].
Proof.
  unfold new_AmpDocShadow, signalsFor, allocated.
  destruct opt as [[s |] |];
    (eexists _, _; split; [reflexivity |]; simpl;
     rewrite <- ?app_assoc, ?length_app; simpl;
     repeat split; try reflexivity; cbn [variant]; f_equal; try f_equal; lia).
Qed.

Lemma new_AmpDocFie_run w url parent opt st :
  exists o st' s1,
    new_AmpDocFie env w url parent opt st = (Normal (length (heap st)), st') /\
    allocated st st' o s1 Pending /\
    variant o = AmpDocFie url parent (length (promises st)) false
                  (S (length (promises st))) (Some (S (length (promises st)))) /\
    declaredExtensions_ o = [].
Proof.
  unfold new_AmpDocFie, bodyPromiseOf, signalsFor, allocated.
  destruct opt as [[s |] |], (body env (document env w));
    (eexists _, _, _; split; [reflexivity |]; simpl;
     rewrite <- ?app_assoc, ?length_app; simpl;
     repeat split; try reflexivity; cbn [variant]; f_equal; try f_equal; lia).
Qed.

(** *** Where a returned document comes from *)

Lemma while_Returned fuel body n d :
  while fuel body n = Some (Returned d) -> exists m, body m = Return d.
Proof.
  revert n. induction fuel as [| fuel IH]; intros [m |] H; simpl in H; try discriminate.
  destruct (body m) eqn:Hb; try discriminate.
  - exists m. congruence.
  - eauto.
Qed.

Lemma fie_body_Return st m d :
  fie_body env st m = Return d ->
  (exists n, ampdoc_ st !! n = Some d) \/ (exists r, AMPDOC_PROP st !! r = Some d).
Proof.
  unfold fie_body. destruct (ampdoc_ st !! m) eqn:Hb.
  - intros [= <-]. left. eauto.
  - destruct (rootNodeFor env m) as [r |]; [| discriminate].
    destruct (AMPDOC_PROP st !! r) eqn:Hm.
    + intros [= <-]. right. eauto.
    + destruct (host env r); discriminate.
Qed.

Lemma legacy_body_Return st m d :
  legacy_body env st m = Return d ->
  (exists n, ampdoc_ st !! n = Some d) \/ (exists r, AMPDOC_PROP st !! r = Some d).
Proof.
  unfold legacy_body. destruct (ampdoc_ st !! m) eqn:Hb.
  - intros [= <-]. left. eauto.
  - destruct (getParentWindowFrameElement env m _); [discriminate |].
    destruct (negb _); [discriminate |].
    destruct (if (nodeType env m =? 9)%Z then _ else _) as [r |]; [| discriminate].
    destruct (AMPDOC_PROP st !! r) eqn:Hm; [| discriminate].
    intros [= <-]. right. eauto.
Qed.

Lemma getAmpDocIfAvailable_source fuel st n d :
  getAmpDocIfAvailable env fuel st n = Some (Some d) ->
  (exists m, ampdoc_ st !! m = Some d) \/
  (exists r, AMPDOC_PROP st !! r = Some d) \/
  singleDoc_ (service st) = Some d.
Proof.
  unfold getAmpDocIfAvailable.
  destruct (ampdocFieExperimentOn_ (service st)).
  - destruct (while _ _ _) as [[d' |] |] eqn:Hw; try discriminate.
    intros [= <-]. apply while_Returned in Hw as [m Hm].
    apply fie_body_Return in Hm as [? | ?]; auto.
  - destruct (while _ _ _) as [[d' |] |] eqn:Hw; try discriminate.
    + intros [= <-]. apply while_Returned in Hw as [m Hm].
      apply legacy_body_Return in Hm as [? | ?]; auto.
    + intros [= H]. auto.
Qed.

Lemma getAmpDocIfAvailable_bound fuel st n d :
  wf st ->
  getAmpDocIfAvailable env fuel st n = Some (Some d) ->
  d < length (heap st).
Proof.
  intros Hwf H. apply getAmpDocIfAvailable_source in H as [[m H] | [[r H] | H]].
  - eapply wf_cached; eauto.
  - eapply wf_marker; eauto.
  - eapply wf_single; eauto.
Qed.

(** *** [getAmpDoc] *)

Lemma getAmpDoc_state fuel node st : snd (getAmpDoc env fuel node st) = st.
Proof.
  unfold getAmpDoc, bind, get.
  destruct (devAssert_cases
    (match isConnected env node with None => true | Some c => c end)
    (Some "The node must be attached to request ampdoc.") st)
    as [(_ & _ & ->) | (_ & ->)]; [reflexivity |].
  by destruct (getAmpDocIfAvailable env fuel st node) as [[d |] |].
Qed.

Lemma getAmpDoc_Normal fuel node st d st' :
  getAmpDoc env fuel node st = (Normal d, st') ->
  st' = st /\ getAmpDocIfAvailable env fuel st node = Some (Some d).
Proof.
  intros H. split.
  - rewrite <- (getAmpDoc_state fuel node st). by rewrite H.
  - revert H. unfold getAmpDoc, bind, get.
    destruct (devAssert_cases
      (match isConnected env node with None => true | Some c => c end)
      (Some "The node must be attached to request ampdoc.") st)
      as [(_ & _ & ->) | (_ & ->)]; [discriminate |].
    destruct (getAmpDocIfAvailable env fuel st node) as [[d' |] |];
      unfold ret, throw; congruence.
Qed.

Lemma getAmpDoc_no_owner fuel node st :
  getAmpDocIfAvailable env fuel st node = Some None ->
  exists e, getAmpDoc env fuel node st = (Throw e, st).
Proof.
  intros Hnone. unfold getAmpDoc, bind, get.
  destruct (devAssert_cases
    (match isConnected env node with None => true | Some c => c end)
    (Some "The node must be attached to request ampdoc.") st)
    as [(_ & _ & ->) | (_ & ->)]; [by eexists |].
  rewrite Hnone. by eexists.
Qed.

End Calls.

(** ** Where the loops end *)

Section Loops.
Context (env : Env).

Lemma while_reaches body k n m fuel :
  reaches body k n m ->
  while (k + fuel) body (Some n) = while fuel body (Some m).
Proof.
  induction 1 as [n | k n n' m Hbody _ IH]; [reflexivity |].
  simpl. rewrite Hbody. exact IH.
Qed.

Lemma fie_finds_nothing_exits st m fuel :
  fie_finds_nothing env st m ->
  while (S fuel) (fie_body env st) (Some m) = Some Exited.
Proof.
  intros [Hback Hroot]. simpl. unfold fie_body. rewrite Hback.
  destruct Hroot as [-> | (r & -> & -> & -> & ->)]; [reflexivity |].
  destruct fuel; reflexivity.
Qed.

Lemma legacy_finds_nothing_exits st m fuel :
  legacy_finds_nothing env st m ->
  while (S fuel) (legacy_body env st) (Some m) = Some Exited.
Proof.
  intros (Hback & Hframe & Hrest). simpl. unfold legacy_body.
  rewrite Hback, Hframe.
  destruct Hrest as [-> | (r & -> & Hr)]; [reflexivity |].
  destruct (mightHaveShadowRoots_ (service st)); [simpl | reflexivity].
  destruct r as [r |]; [| reflexivity].
  destruct Hr as [-> ->]. destruct fuel; reflexivity.
Qed.

(** A traversal ends when every turn that goes on goes to a node of smaller
    rank (its depth in the nesting of shadow roots and frames): a fuel above
    the rank of the node it starts from is enough. *)
Lemma while_terminates body (rank : nat -> nat) fuel n :
  (forall m m', body m = Next (Some m') -> rank m' < rank m) ->
  rank n < fuel ->
  while fuel body (Some n) <> None.
Proof.
  intros Hrank. revert n. induction fuel as [| fuel IH]; intros n Hlt; [lia |].
  simpl. destruct (body n) as [d | | [m' |]] eqn:Hb; [done | done | | by destruct fuel].
  apply IH. specialize (Hrank n m' Hb). lia.
Qed.

Lemma getAmpDocIfAvailable_terminates (rank : nat -> nat) st fuel n :
  (forall m m', fie_body env st m = Next (Some m') -> rank m' < rank m) ->
  (forall m m', legacy_body env st m = Next (Some m') -> rank m' < rank m) ->
  rank n < fuel ->
  is_Some (getAmpDocIfAvailable env fuel st n).
Proof.
  intros Hfie Hlegacy Hlt. unfold getAmpDocIfAvailable.
  destruct (ampdocFieExperimentOn_ (service st)).
  - pose proof (while_terminates _ rank fuel n Hfie Hlt) as Hw.
    destruct (while fuel (fie_body env st) (Some n)) as [[d |] |]; by eauto.
  - pose proof (while_terminates _ rank fuel n Hlegacy Hlt) as Hw.
    destruct (while fuel (legacy_body env st) (Some n)) as [[d |] |]; by eauto.
Qed.

(** Conversely, a loop that exits has come to a node where it found
    nothing. *)
Lemma while_Exited fuel body n :
  while fuel body (Some n) = Some Exited ->
  exists k m, k < fuel /\ reaches body k n m /\
              (body m = Break \/ body m = Next None).
Proof.
  revert n. induction fuel as [| fuel IH]; intros n H; simpl in H; [discriminate |].
  destruct (body n) as [d | | [n' |]] eqn:Hb; try discriminate.
  - exists 0, n. split; [lia |]. split; [constructor | by left].
  - apply IH in H as (k & m & Hk & Hreach & Hm).
    exists (S k), m. split; [lia |]. split; [by econstructor | done].
  - exists 0, n. split; [lia |]. split; [constructor | by right].
Qed.

Lemma fie_body_nothing st m :
  fie_body env st m = Break \/ fie_body env st m = Next None ->
  fie_finds_nothing env st m.
Proof.
  intros H. unfold fie_finds_nothing. unfold fie_body in H.
  destruct (ampdoc_ st !! m) eqn:Hb; [destruct H; discriminate |].
  split; [done |].
  destruct (rootNodeFor env m) as [r |] eqn:Hr; [| by left].
  right. exists r. split; [done |].
  destruct (AMPDOC_PROP st !! r) eqn:Hm; [destruct H; discriminate |].
  destruct (host env r) eqn:Hh; [destruct H; discriminate |].
  destruct H as [H | H]; [discriminate |]. by injection H as ->.
Qed.

Lemma legacy_body_nothing st m :
  legacy_body env st m = Break \/ legacy_body env st m = Next None ->
  legacy_finds_nothing env st m.
Proof.
  intros H. unfold legacy_finds_nothing. unfold legacy_body in H.
  destruct (ampdoc_ st !! m) eqn:Hb; [destruct H; discriminate |].
  split; [done |].
  destruct (getParentWindowFrameElement env m _) eqn:Hf; [destruct H; discriminate |].
  split; [done |].
  destruct (mightHaveShadowRoots_ (service st)); [simpl in H | by left].
  right. eexists. split; [reflexivity |].
  destruct (if (nodeType env m =? 9)%Z then _ else _) as [r |]; [| done].
  destruct (AMPDOC_PROP st !! r) eqn:Hm; [destruct H; discriminate |].
  destruct H as [H | H]; [discriminate |]. by injection H as ->.
Qed.

(** A traversal that returns null in the frame-embed-aware mode, or that
    falls back to [singleDoc_] in the legacy mode, has come to such a
    node. *)
Lemma fie_exit_inv st fuel n :
  while fuel (fie_body env st) (Some n) = Some Exited ->
  exists k m, k < fuel /\ reaches (fie_body env st) k n m /\ fie_finds_nothing env st m.
Proof.
  intros (k & m & Hk & Hreach & Hm)%while_Exited.
  exists k, m. eauto using fie_body_nothing.
Qed.

Lemma legacy_exit_inv st fuel n :
  while fuel (legacy_body env st) (Some n) = Some Exited ->
  exists k m, k < fuel /\ reaches (legacy_body env st) k n m /\
              legacy_finds_nothing env st m.
Proof.
  intros (k & m & Hk & Hreach & Hm)%while_Exited.
  exists k, m. eauto using legacy_body_nothing.
Qed.

(** C2: in the frame-embed-aware mode, a traversal that comes to a node
    where it finds nothing (no back-reference, and no root node or an
    unmarked root with neither host nor frame element) leaves the loop and
    returns null, whatever [singleDoc_] is; in the legacy mode, a traversal
    whose loop exits without a match returns [singleDoc_], which may be
    null.  In both modes the loop exits exactly when the traversal comes to
    such a node. *)
Theorem getAmpDocIfAvailable_no_match st node fuel :
  (ampdocFieExperimentOn_ (service st) = true ->
   ((exists k m, k < fuel /\ reaches (fie_body env st) k node m /\
                 fie_finds_nothing env st m)
    <-> while fuel (fie_body env st) (Some node) = Some Exited) /\
   ((exists k m, k < fuel /\ reaches (fie_body env st) k node m /\
                 fie_finds_nothing env st m) ->
    getAmpDocIfAvailable env fuel st node = Some None)) /\
  (ampdocFieExperimentOn_ (service st) = false ->
   ((exists k m, k < fuel /\ reaches (legacy_body env st) k node m /\
                 legacy_finds_nothing env st m)
    <-> while fuel (legacy_body env st) (Some node) = Some Exited) /\
   (while fuel (legacy_body env st) (Some node) = Some Exited ->
    getAmpDocIfAvailable env fuel st node = Some (singleDoc_ (service st)))).
Proof.
  assert (Hfie : (exists k m, k < fuel /\ reaches (fie_body env st) k node m /\
                              fie_finds_nothing env st m) ->
                 while fuel (fie_body env st) (Some node) = Some Exited).
  { intros (k & m & Hk & Hreach & Hstop).
    replace fuel with (k + S (fuel - S k)) by lia.
    rewrite (while_reaches _ _ _ _ _ Hreach). by apply fie_finds_nothing_exits. }
  assert (Hlegacy : (exists k m, k < fuel /\ reaches (legacy_body env st) k node m /\
                                 legacy_finds_nothing env st m) ->
                    while fuel (legacy_body env st) (Some node) = Some Exited).
  { intros (k & m & Hk & Hreach & Hstop).
    replace fuel with (k + S (fuel - S k)) by lia.
    rewrite (while_reaches _ _ _ _ _ Hreach). by apply legacy_finds_nothing_exits. }
  unfold getAmpDocIfAvailable. split; intros ->.
  - split; [split; [exact Hfie | apply fie_exit_inv] |].
    intros Hstop. by rewrite (Hfie Hstop).
  - split; [split; [exact Hlegacy | apply legacy_exit_inv] |].
    by intros ->.
Qed.

End Loops.

(** ** The invariant and what keeps it *)

Section WellFormed.
Context (env : Env).

Lemma pending_inv_mono st st' o :
  (forall p, promises st !! p = Some Pending -> promises st' !! p = Some Pending) ->
  pending_inv st o -> pending_inv st' o.
Proof.
  intros Hmono. unfold pending_inv, body_inv, ready_inv.
  destruct (variant o) as [| ? ? [b |] ? ? [|] ? ? | ? ? ? [|] ? ?]; intuition auto.
Qed.

Lemma wf_fields st st' :
  wf st ->
  heap st' = heap st -> promises st' = promises st ->
  singleDoc_ (service st') = singleDoc_ (service st) ->
  AMPDOC_PROP st' = AMPDOC_PROP st -> ampdoc_ st' = ampdoc_ st ->
  wf st'.
Proof.
  intros [] Hh Hp Hs Hm Hc.
  constructor; rewrite ?Hh, ?Hp, ?Hs, ?Hm, ?Hc; try assumption.
  intros d o Ho. eapply pending_inv_mono; [| eauto]. by rewrite Hp.
Qed.

Lemma wf_service f st :
  wf st -> singleDoc_ (f (service st)) = singleDoc_ (service st) ->
  wf (set_service f st).
Proof. intros Hwf Hs. by apply (wf_fields st). Qed.

Lemma wf_mark n d st :
  wf st -> d < length (heap st) -> wf (set_AMPDOC_PROP <[n := d]> st).
Proof.
  intros [] Hd. constructor; simpl; try assumption.
  intros n' d'. rewrite lookup_insert. case_decide; [by intros [= <-] | eauto].
Qed.

Lemma wf_cache n d st :
  wf st -> d < length (heap st) -> wf (set_ampdoc_ <[n := d]> st).
Proof.
  intros [] Hd. constructor; simpl; try assumption.
  intros n' d'. rewrite lookup_insert. case_decide; [by intros [= <-] | eauto].
Qed.

Lemma wf_alloc st st' o s1 s2 :
  wf st -> allocated st st' o s1 s2 ->
  (forall p, getParent o = Some p -> p < length (heap st)) ->
  declaredExtensions_ o = [] ->
  waitForBodyOpen o = length (promises st) ->
  whenReady o = S (length (promises st)) ->
  pending_inv st' o ->
  wf st'.
Proof.
  intros Hwf (Hh & Hp & Hs & Hm & Hc) Hpar Hext Hbody Hready Hpend.
  assert (Hlook : forall d o', heap st' !! d = Some o' ->
            heap st !! d = Some o' \/ d = length (heap st) /\ o' = o).
  { intros d o'. rewrite Hh, lookup_app_Some, list_lookup_singleton_Some.
    intros [? | (? & ? & ?)]; [by left | right; split; [lia | done]]. }
  constructor; rewrite ?Hs, ?Hm, ?Hc.
  - intros n d Hn. rewrite Hh, length_app. apply (wf_marker _ Hwf) in Hn. lia.
  - intros n d Hn. rewrite Hh, length_app. apply (wf_cached _ Hwf) in Hn. lia.
  - intros d Hd. rewrite Hh, length_app. apply (wf_single _ Hwf) in Hd. lia.
  - rewrite Hp, Hh, !length_app. pose proof (wf_promises _ Hwf). simpl. lia.
  - intros d o' p Ho Hgp. apply Hlook in Ho as [Ho | [-> ->]]; [| by auto].
    eapply wf_parent; eauto.
  - intros d o' Ho. apply Hlook in Ho as [Ho | [-> ->]].
    + eapply wf_extensions; eauto.
    + rewrite Hext. constructor.
  - intros d o' Ho. apply Hlook in Ho as [Ho | [-> ->]].
    + eapply wf_owned; eauto.
    + rewrite Hbody, Hready. pose proof (wf_promises _ Hwf). lia.
  - intros d o' Ho. apply Hlook in Ho as [Ho | [-> ->]]; [| done].
    eapply pending_inv_mono; [| eapply wf_pending; eauto].
    intros p Hpp. rewrite Hp. by apply lookup_app_l_Some.
Qed.

Lemma wf_empty_world : wf empty_world.
Proof. constructor; simpl; intros; try done. Qed.

End WellFormed.

(** *** The two installations, case by case *)
Section Installs.
Context (env : Env).

Lemma installShadowDoc_cases url root st :
  let st1 := set_service (set_mightHaveShadowRoots_ true) st in
  (debugBuild env = true /\ is_Some (AMPDOC_PROP st !! root) /\
   installShadowDoc env url root st =
     (Throw (AssertionError (Some "The shadow root already contains ampdoc")), st1)) \/
  ((debugBuild env = false \/ AMPDOC_PROP st !! root = None) /\
   exists o st2,
     allocated st1 st2 o Pending Pending /\
     variant o = AmpDocShadow url root None
                   (length (promises st)) (Some (length (promises st))) false
                   (S (length (promises st))) (Some (S (length (promises st)))) /\
     declaredExtensions_ o = [] /\
     installShadowDoc env url root st =
       (Normal (length (heap st)), set_AMPDOC_PROP <[root := length (heap st)]> st2)).
Proof.
  intros st1. unfold installShadowDoc, bind, modify, get. cbv beta iota.
  fold st1. change (AMPDOC_PROP st1) with (AMPDOC_PROP st).
  destruct (devAssert_cases env (negb (truthy (AMPDOC_PROP st !! root)))
              (Some "The shadow root already contains ampdoc") st1)
    as [(Hd & Hc & ->) | (Hc & ->)].
  - left. split; [done |]. split; [| done].
    destruct (AMPDOC_PROP st !! root); [eauto | discriminate].
  - right. split.
    { destruct Hc as [? | Hc]; [by left | right].
      by destruct (AMPDOC_PROP st !! root). }
    destruct (new_AmpDocShadow_run (win (service st1)) url root None st1)
      as (o & st2 & Hrun & Halloc & Hvar & Hext).
    exists o, st2. change (win (service st)) with (win (service st1)).
    rewrite Hrun. split; [exact Halloc |]. split; [exact Hvar |].
    split; [exact Hext | reflexivity].
Qed.

Lemma installFieDoc_cases fuel url childWin opt st :
  (snd (installFieDoc env fuel url childWin opt st) = st /\
   forall d, fst (installFieDoc env fuel url childWin opt st) <> Normal d) \/
  (exists frameElt parent o st1 s1,
     frameElement env childWin = Some frameElt /\
     (debugBuild env = false \/ AMPDOC_PROP st !! document env childWin = None) /\
     getAmpDoc env fuel frameElt st = (Normal parent, st) /\
     allocated st st1 o s1 Pending /\
     variant o = AmpDocFie url parent (length (promises st)) false
                   (S (length (promises st))) (Some (S (length (promises st)))) /\
     declaredExtensions_ o = [] /\
     installFieDoc env fuel url childWin opt st =
       (Normal (length (heap st)),
        set_AMPDOC_PROP <[document env childWin := length (heap st)]> st1)).
Proof.
  unfold installFieDoc, bind, get. cbv beta iota zeta.
  destruct (devAssert_cases env (negb (truthy (AMPDOC_PROP st !! document env childWin)))
              (Some "The fie already contains ampdoc") st)
    as [(Hd & Hc & ->) | (Hc & ->)]; [by left |].
  cbv beta iota.
  destruct (devAssert_cases env (truthy (frameElement env childWin)) None st)
    as [(Hd' & Hc' & ->) | (Hc' & ->)]; [by left |].
  cbv beta iota.
  destruct (frameElement env childWin) as [frameElt |]; [| by left].
  destruct (getAmpDoc env fuel frameElt st) as [[parent | e |] st'] eqn:Hget;
    pose proof (getAmpDoc_state env fuel frameElt st) as Hst;
    rewrite Hget in Hst; simpl in Hst; subst st'; [| by left | by left].
  right.
  destruct (new_AmpDocFie_run env childWin url parent opt st)
    as (o & st1 & s1 & Hrun & Halloc & Hvar & Hext).
  exists frameElt, parent, o, st1, s1. rewrite Hrun.
  split; [reflexivity |]. split.
  { destruct Hc as [? | Hc]; [by left | right].
    by destruct (AMPDOC_PROP st !! document env childWin). }
  split; [exact Hget |]. split; [exact Halloc |]. split; [exact Hvar |].
  split; [exact Hext | reflexivity].
Qed.

End Installs.

(** *** [setBody] and [setReady], case by case *)
Section DocumentCalls.
Context (env : Env).

Lemma this_Some d o st : heap st !! d = Some o -> this d st = (Normal o, st).
Proof. unfold this. by intros ->. Qed.

Lemma this_None d st :
  heap st !! d = None -> this d st = (Throw (TypeError "not an AmpDoc"), st).
Proof. unfold this. by intros ->. Qed.

Lemma alter_set_variant_twice (v1 v2 : AmpDocVariant) d (h : list AmpDoc) :
  alter (set_variant v2) d (alter (set_variant v1) d h) = alter (set_variant v2) d h.
Proof. rewrite list_alter_alter_eq. by apply list_alter_ext. Qed.

Lemma setBody_shadow d body st o url sr b bp bres rdy rp rres :
  heap st !! d = Some o ->
  variant o = AmpDocShadow url sr b bp bres rdy rp rres ->
  setBody env d body st =
    if debugBuild env && truthy b
    then (Throw (AssertionError (Some "Duplicate body")), st)
    else match bres with
         | None =>
           (Throw (TypeError "is not a function"),
            set_heap (alter (set_variant
              (AmpDocShadow url sr (Some body) bp None rdy rp rres)) d) st)
         | Some p =>
           (Normal tt,
            set_heap (alter (set_variant
              (AmpDocShadow url sr (Some body) bp None rdy rp rres)) d)
              (set_promises (alter (resolve (Some body)) p) st))
         end.
Proof.
  intros Ho Hv. unfold setBody, bind. rewrite (this_Some _ _ _ Ho), Hv.
  unfold devAssert. rewrite negb_involutive.
  destruct (debugBuild env && truthy b); [reflexivity |].
  destruct bres as [p |]; [| reflexivity].
  unfold ret, assign, modify, callResolver, set_heap, set_promises. simpl.
  by rewrite alter_set_variant_twice.
Qed.

Lemma setBody_not_shadow d body st :
  (forall o url sr b bp bres rdy rp rres,
     heap st !! d = Some o ->
     variant o <> AmpDocShadow url sr b bp bres rdy rp rres) ->
  exists msg, setBody env d body st = (Throw (TypeError msg), st).
Proof.
  intros H. unfold setBody, bind, this.
  destruct (heap st !! d) as [o |] eqn:Ho; [| by eexists].
  destruct (variant o) eqn:Hv; try by eexists.
  by edestruct H.
Qed.

Lemma setReady_shadow d st o url sr b bp bres rdy rp rres :
  heap st !! d = Some o ->
  variant o = AmpDocShadow url sr b bp bres rdy rp rres ->
  setReady env d st =
    if debugBuild env && rdy
    then (Throw (AssertionError (Some "Duplicate ready state")), st)
    else match rres with
         | None =>
           (Throw (TypeError "is not a function"),
            set_heap (alter (set_variant
              (AmpDocShadow url sr b bp bres true rp None)) d) st)
         | Some p =>
           (Normal tt,
            set_heap (alter (set_variant
              (AmpDocShadow url sr b bp bres true rp None)) d)
              (set_promises (alter (resolve None) p) st))
         end.
Proof.
  intros Ho Hv. unfold setReady, bind. rewrite (this_Some _ _ _ Ho), Hv.
  unfold devAssert. rewrite negb_involutive.
  destruct (debugBuild env && rdy); [reflexivity |].
  destruct rres as [p |]; [| reflexivity].
  unfold ret, assign, modify, callResolver, set_heap, set_promises. simpl.
  by rewrite alter_set_variant_twice.
Qed.

Lemma setReady_fie d st o url parent bp rdy rp rres :
  heap st !! d = Some o ->
  variant o = AmpDocFie url parent bp rdy rp rres ->
  setReady env d st =
    if debugBuild env && rdy
    then (Throw (AssertionError (Some "Duplicate ready state")), st)
    else match rres with
         | None =>
           (Throw (TypeError "is not a function"),
            set_heap (alter (set_variant
              (AmpDocFie url parent bp true rp None)) d) st)
         | Some p =>
           (Normal tt,
            set_heap (alter (set_variant
              (AmpDocFie url parent bp true rp None)) d)
              (set_promises (alter (resolve None) p) st))
         end.
Proof.
  intros Ho Hv. unfold setReady, bind. rewrite (this_Some _ _ _ Ho), Hv.
  unfold devAssert. rewrite negb_involutive.
  destruct (debugBuild env && rdy); [reflexivity |].
  destruct rres as [p |]; [| reflexivity].
  unfold ret, assign, modify, callResolver, set_heap, set_promises. simpl.
  by rewrite alter_set_variant_twice.
Qed.

Lemma setReady_other d st :
  (heap st !! d = None \/
   exists o bp rp, heap st !! d = Some o /\ variant o = AmpDocSingle bp rp) ->
  exists msg, setReady env d st = (Throw (TypeError msg), st).
Proof.
  unfold setReady, bind, this.
  intros [-> | (o & bp & rp & -> & ->)]; by eexists.
Qed.

End DocumentCalls.

(** *** A change of one document, and the declared extensions *)
Section Alterations.
Context (env : Env).

Lemma wf_alter st st' d f :
  wf st ->
  heap st' = alter f d (heap st) ->
  length (promises st') = length (promises st) ->
  singleDoc_ (service st') = singleDoc_ (service st) ->
  AMPDOC_PROP st' = AMPDOC_PROP st -> ampdoc_ st' = ampdoc_ st ->
  (forall o, heap st !! d = Some o ->
     getParent (f o) = getParent o /\
     waitForBodyOpen (f o) = waitForBodyOpen o /\
     whenReady (f o) = whenReady o /\
     NoDup (declaredExtensions_ (f o)) /\
     pending_inv st' (f o)) ->
  (forall d' o', d' <> d -> heap st !! d' = Some o' -> pending_inv st' o') ->
  wf st'.
Proof.
  intros Hwf Hh Hp Hs Hm Hc Hd Hother.
  assert (Hlook : forall d' o', heap st' !! d' = Some o' ->
            (d' <> d /\ heap st !! d' = Some o') \/
            (d' = d /\ exists o, heap st !! d = Some o /\ o' = f o)).
  { intros d' o'. rewrite Hh. destruct (decide (d = d')) as [<- | Hne].
    - rewrite list_lookup_alter_eq. destruct (heap st !! d) as [o |]; [| done].
      intros [= <-]. right. eauto.
    - rewrite list_lookup_alter_ne by done. left. split; [congruence | done]. }
  constructor; rewrite ?Hs, ?Hm, ?Hc, ?Hh, ?length_alter, ?Hp.
  - apply (wf_marker _ Hwf).
  - apply (wf_cached _ Hwf).
  - apply (wf_single _ Hwf).
  - apply (wf_promises _ Hwf).
  - intros d' o' p Ho. rewrite <- Hh in Ho.
    apply Hlook in Ho as [[_ Ho] | [-> (o & Ho & ->)]].
    + by apply (wf_parent _ Hwf).
    + destruct (Hd o Ho) as (-> & _). by apply (wf_parent _ Hwf).
  - intros d' o' Ho. rewrite <- Hh in Ho.
    apply Hlook in Ho as [[_ Ho] | [-> (o & Ho & ->)]].
    + by apply (wf_extensions _ Hwf d').
    + by destruct (Hd o Ho) as (_ & _ & _ & ? & _).
  - intros d' o' Ho. rewrite <- Hh in Ho.
    apply Hlook in Ho as [[_ Ho] | [-> (o & Ho & ->)]].
    + by apply (wf_owned _ Hwf).
    + destruct (Hd o Ho) as (_ & -> & -> & _). by apply (wf_owned _ Hwf).
  - intros d' o' Ho. rewrite <- Hh in Ho.
    apply Hlook in Ho as [[? Ho] | [-> (o & Ho & ->)]].
    + by apply (Hother d').
    + by destruct (Hd o Ho) as (_ & _ & _ & _ & ?).
Qed.

Lemma pending_inv_resolve_other st st' o' d' p v :
  promises st' = alter (resolve v) p (promises st) ->
  waitForBodyOpen o' = 2 * d' -> whenReady o' = 2 * d' + 1 ->
  p <> 2 * d' -> p <> 2 * d' + 1 ->
  pending_inv st o' -> pending_inv st' o'.
Proof.
  intros Hp Hb Hr Hne1 Hne2. unfold pending_inv, body_inv, ready_inv.
  unfold waitForBodyOpen, whenReady in Hb, Hr. rewrite Hp.
  destruct (variant o') as [| ? ? [b |] ? ? [|] ? ? | ? ? ? [|] ? ?]; subst;
    rewrite ?list_lookup_alter_ne by done; tauto.
Qed.

Lemma indexOf_not_elem l x : indexOf l x = (-1)%Z <-> x ∉ l.
Proof.
  assert (Hnn : forall l, (-1 <= indexOf l x)%Z).
  { intros l'. induction l' as [| y l' IH]; simpl; [lia |].
    destruct (String.eqb y x); [lia |]. destruct (Z.eqb_spec (indexOf l' x) (-1)); lia. }
  induction l as [| y l IH]; simpl.
  - split; [intros _; apply not_elem_of_nil | done].
  - rewrite not_elem_of_cons. destruct (String.eqb_spec y x) as [-> | Hne].
    + split; [lia | tauto].
    + destruct (Z.eqb_spec (indexOf l x) (-1)) as [He | He].
      * split; [intros _; split; [congruence | tauto] | done].
      * split; [pose proof (Hnn l); lia | tauto].
Qed.

Lemma declaresExtension_elem o x : declaresExtension o x = true <-> x ∈ declaredExtensions_ o.
Proof.
  unfold declaresExtension. rewrite negb_true_iff, Z.eqb_neq, indexOf_not_elem.
  destruct (decide (x ∈ declaredExtensions_ o)); tauto.
Qed.

Lemma declareExtension_NoDup o x :
  NoDup (declaredExtensions_ o) -> NoDup (declaredExtensions_ (declareExtension o x)).
Proof.
  intros Hnd. unfold declareExtension.
  destruct (declaresExtension o x) eqn:Hd; simpl; [done |].
  apply NoDup_app. split; [done |]. split; [| apply NoDup_singleton].
  intros y Hy ->%list_elem_of_singleton.
  apply declaresExtension_elem in Hy. congruence.
Qed.

Lemma declareExtension_variant o x : variant (declareExtension o x) = variant o.
Proof. unfold declareExtension. by destruct (negb _). Qed.

End Alterations.

(** *** Every call keeps the invariant *)
Section Preservation.
Context (env : Env).

Lemma wf_set_variant st st' d o v :
  wf st ->
  heap st !! d = Some o ->
  heap st' = alter (set_variant v) d (heap st) ->
  (promises st' = promises st \/
   exists p value, promises st' = alter (resolve value) p (promises st) /\
                   (p = 2 * d \/ p = 2 * d + 1)) ->
  singleDoc_ (service st') = singleDoc_ (service st) ->
  AMPDOC_PROP st' = AMPDOC_PROP st -> ampdoc_ st' = ampdoc_ st ->
  getParent (set_variant v o) = getParent o ->
  waitForBodyOpen (set_variant v o) = waitForBodyOpen o ->
  whenReady (set_variant v o) = whenReady o ->
  pending_inv st' (set_variant v o) ->
  wf st'.
Proof.
  intros Hwf Ho Hh Hp Hs Hm Hc Hpar Hb Hr Hpend.
  eapply (wf_alter st st' d); eauto.
  - destruct Hp as [Hp | (p & value & Hp & _)]; rewrite Hp; [done | by rewrite length_alter].
  - intros o' Ho'. replace o' with o by congruence.
    repeat (split; [assumption |]). split; [| assumption].
    exact (wf_extensions _ Hwf d o Ho).
  - intros d' o' Hne Ho'. pose proof (wf_pending _ Hwf _ _ Ho') as Hpo.
    destruct Hp as [Hp | (p & value & Hp & Hpd)].
    + eapply pending_inv_mono; [| exact Hpo]. by rewrite Hp.
    + destruct (wf_owned _ Hwf _ _ Ho') as [Hb' Hr'].
      eapply pending_inv_resolve_other; eauto; lia.
Qed.

Lemma getSingleDoc_state st : snd (getSingleDoc env st) = st.
Proof.
  unfold getSingleDoc, bind, get.
  by destruct (devAssert_cases env (truthy (singleDoc_ (service st))) None st)
    as [(_ & _ & ->) | (_ & ->)].
Qed.

Lemma wf_installShadowDoc url root st :
  wf st -> wf (snd (installShadowDoc env url root st)).
Proof.
  intros Hwf.
  assert (Hwf1 : wf (set_service (set_mightHaveShadowRoots_ true) st))
    by by apply wf_service.
  destruct (installShadowDoc_cases env url root st)
    as [(_ & _ & ->) | (_ & o & st2 & Halloc & Hvar & Hext & ->)]; [done |].
  simpl. pose proof Halloc as (Hh & Hp & _).
  apply wf_mark.
  - eapply wf_alloc; eauto.
    + unfold getParent. by rewrite Hvar.
    + unfold waitForBodyOpen. by rewrite Hvar.
    + unfold whenReady. by rewrite Hvar.
    + unfold pending_inv, body_inv, ready_inv. rewrite Hvar, Hp. simpl.
      rewrite !lookup_app_r by lia.
      rewrite Nat.sub_diag. replace (S _ - _) with 1 by lia. done.
  - rewrite Hh, length_app. simpl. lia.
Qed.

Lemma wf_installFieDoc fuel url childWin opt st :
  wf st -> wf (snd (installFieDoc env fuel url childWin opt st)).
Proof.
  intros Hwf.
  destruct (installFieDoc_cases env fuel url childWin opt st)
    as [[-> _] | (fe & parent & o & st1 & s1 & _ & _ & Hget & Halloc & Hvar & Hext & ->)];
    [done |].
  simpl. pose proof Halloc as (Hh & Hp & _).
  apply getAmpDoc_Normal in Hget as [_ Hget].
  apply wf_mark.
  - eapply wf_alloc; eauto.
    + unfold getParent. rewrite Hvar. intros p [= <-].
      by eapply getAmpDocIfAvailable_bound.
    + unfold waitForBodyOpen. by rewrite Hvar.
    + unfold whenReady. by rewrite Hvar.
    + unfold pending_inv, ready_inv. rewrite Hvar, Hp.
      rewrite !lookup_app_r by lia. replace (S _ - _) with 1 by lia. done.
  - rewrite Hh, length_app. simpl. lia.
Qed.

Lemma wf_declareExtension d x st :
  wf st -> wf (set_heap (alter (fun o => declareExtension o x) d) st).
Proof.
  intros Hwf. eapply (wf_alter st _ d); eauto.
  - intros o Ho. unfold getParent, waitForBodyOpen, whenReady.
    rewrite declareExtension_variant. repeat (split; [reflexivity |]). split.
    + apply declareExtension_NoDup. by apply (wf_extensions _ Hwf d).
    + pose proof (wf_pending _ Hwf _ _ Ho) as Hpo. unfold pending_inv in *.
      by rewrite declareExtension_variant.
  - intros d' o' _ Ho'. exact (wf_pending _ Hwf _ _ Ho').
Qed.

Lemma wf_setBody d body st : wf st -> wf (snd (setBody env d body st)).
Proof.
  intros Hwf.
  destruct (heap st !! d) as [o |] eqn:Ho;
    [| by destruct (setBody_not_shadow env d body st) as [msg ->]; [congruence |]].
  destruct (variant o) as [| url sr b bp bres rdy rp rres |] eqn:Hv;
    [by destruct (setBody_not_shadow env d body st) as [msg ->]; [congruence |]
    | | by destruct (setBody_not_shadow env d body st) as [msg ->]; [congruence |]].
  rewrite (setBody_shadow env d body st o _ _ _ _ _ _ _ _ Ho Hv).
  destruct (debugBuild env && truthy b); [done |].
  pose proof (wf_pending _ Hwf _ _ Ho) as Hpo.
  destruct (wf_owned _ Hwf _ _ Ho) as [Hb Hr].
  unfold pending_inv in Hpo. unfold waitForBodyOpen in Hb. unfold whenReady in Hr.
  rewrite Hv in Hpo, Hb, Hr. destruct Hpo as [Hbody Hready].
  assert (Hsame : forall v',
    getParent (set_variant (AmpDocShadow url sr v' bp None rdy rp rres) o) = getParent o /\
    waitForBodyOpen (set_variant (AmpDocShadow url sr v' bp None rdy rp rres) o)
      = waitForBodyOpen o /\
    whenReady (set_variant (AmpDocShadow url sr v' bp None rdy rp rres) o) = whenReady o).
  { intros v'. unfold getParent, waitForBodyOpen, whenReady. by rewrite Hv. }
  destruct (Hsame (Some body)) as (Hs1 & Hs2 & Hs3).
  destruct b as [b |]; simpl in Hbody.
  - subst bres.
    eapply (wf_set_variant st _ d o _ Hwf Ho);
      [reflexivity | by left | reflexivity | reflexivity | reflexivity
      | exact Hs1 | exact Hs2 | exact Hs3 |].
    unfold pending_inv, body_inv. simpl. split; [done | exact Hready].
  - destruct Hbody as [-> Hpend].
    eapply (wf_set_variant st _ d o _ Hwf Ho);
      [reflexivity | | reflexivity | reflexivity | reflexivity
      | exact Hs1 | exact Hs2 | exact Hs3 |].
    + right. exists bp, (Some body). split; [done | by left].
    + unfold pending_inv, body_inv. simpl. split; [done |].
      unfold ready_inv in *. simpl.
      destruct rdy; [done |]. rewrite list_lookup_alter_ne by lia. done.
Qed.

End Preservation.

(** *** Every reachable state satisfies the invariant *)
Section Reachable.
Context (env : Env).

Lemma wf_setReady d st : wf st -> wf (snd (setReady env d st)).
Proof.
  intros Hwf.
  destruct (heap st !! d) as [o |] eqn:Ho;
    [| by destruct (setReady_other env d st) as [msg ->]; [by left |]].
  pose proof (wf_pending _ Hwf _ _ Ho) as Hpo.
  destruct (wf_owned _ Hwf _ _ Ho) as [Hb Hr].
  unfold pending_inv in Hpo. unfold waitForBodyOpen in Hb. unfold whenReady in Hr.
  destruct (variant o) as [bp rp | url sr b bp bres rdy rp rres
                           | url parent bp rdy rp rres] eqn:Hv.
  - by destruct (setReady_other env d st) as [msg ->]; [right; eauto |].
  - rewrite (setReady_shadow env d st o _ _ _ _ _ _ _ _ Ho Hv).
    destruct (debugBuild env && rdy); [done |].
    destruct Hpo as [Hbody Hready].
    assert (Hsame :
      getParent (set_variant (AmpDocShadow url sr b bp bres true rp None) o) = getParent o /\
      waitForBodyOpen (set_variant (AmpDocShadow url sr b bp bres true rp None) o)
        = waitForBodyOpen o /\
      whenReady (set_variant (AmpDocShadow url sr b bp bres true rp None) o) = whenReady o).
    { unfold getParent, waitForBodyOpen, whenReady. by rewrite Hv. }
    destruct Hsame as (Hs1 & Hs2 & Hs3).
    destruct rdy; simpl in Hready.
    + subst rres.
      eapply (wf_set_variant st _ d o _ Hwf Ho);
        [reflexivity | by left | reflexivity | reflexivity | reflexivity
        | exact Hs1 | exact Hs2 | exact Hs3 |].
      unfold pending_inv, ready_inv. simpl. split; [exact Hbody | done].
    + destruct Hready as [-> Hpend].
      eapply (wf_set_variant st _ d o _ Hwf Ho);
        [reflexivity | | reflexivity | reflexivity | reflexivity
        | exact Hs1 | exact Hs2 | exact Hs3 |].
      * right. exists rp, None. split; [done | by right].
      * unfold pending_inv, ready_inv. simpl. split; [| done].
        unfold body_inv in *. simpl.
        destruct b; [done |]. rewrite list_lookup_alter_ne by lia. done.
  - rewrite (setReady_fie env d st o _ _ _ _ _ _ Ho Hv).
    destruct (debugBuild env && rdy); [done |].
    assert (Hsame :
      getParent (set_variant (AmpDocFie url parent bp true rp None) o) = getParent o /\
      waitForBodyOpen (set_variant (AmpDocFie url parent bp true rp None) o)
        = waitForBodyOpen o /\
      whenReady (set_variant (AmpDocFie url parent bp true rp None) o) = whenReady o).
    { unfold getParent, waitForBodyOpen, whenReady. by rewrite Hv. }
    destruct Hsame as (Hs1 & Hs2 & Hs3).
    destruct rdy; simpl in Hpo.
    + subst rres.
      eapply (wf_set_variant st _ d o _ Hwf Ho);
        [reflexivity | by left | reflexivity | reflexivity | reflexivity
        | exact Hs1 | exact Hs2 | exact Hs3 |].
      by unfold pending_inv, ready_inv.
    + destruct Hpo as [-> Hpend].
      eapply (wf_set_variant st _ d o _ Hwf Ho);
        [reflexivity | | reflexivity | reflexivity | reflexivity
        | exact Hs1 | exact Hs2 | exact Hs3 |].
      * right. exists rp, None. split; [done | by right].
      * by unfold pending_inv, ready_inv.
Qed.

Lemma wf_exec c st : wf st -> allowed c st -> wf (exec env c st).
Proof.
  intros Hwf Hc. destruct c; simpl.
  - by rewrite getSingleDoc_state.
  - by rewrite getAmpDoc_state.
  - by apply wf_installShadowDoc.
  - by apply wf_installFieDoc.
  - by apply wf_service.
  - by apply wf_declareExtension.
  - by apply wf_setBody.
  - by apply wf_setReady.
  - by apply wf_cache.
Qed.

Lemma wf_step st st' : wf st -> step env st st' -> wf st'.
Proof. intros Hwf (c & Hc & ->). by apply wf_exec. Qed.

Lemma wf_steps st st' : wf st -> rtc (step env) st st' -> wf st'.
Proof. intros Hwf Hsteps. induction Hsteps; eauto using wf_step. Qed.

Lemma new_AmpDocService_single st0 w :
  exists o st',
    allocated st0 st' o
      (match body env (document env w) with Some b => Resolved (Some b) | None => Pending end)
      (if isDocumentReady env (document env w) then Resolved None else Pending) /\
    variant o = AmpDocSingle (length (promises st0)) (S (length (promises st0))) /\
    declaredExtensions_ o = [] /\
    new_AmpDocService env st0 w true =
      set_service (fun _ =>
        {| win := w; singleDoc_ := Some (length (heap st0));
           ampdocFieExperimentOn_ := isExperimentOn env w "ampdoc-fie";
           mightHaveShadowRoots_ := false |})
        (set_AMPDOC_PROP <[document env w := length (heap st0)]> st').
Proof.
  destruct (new_AmpDocSingle_run env w None st0)
    as (o & st' & Hrun & Halloc & Hvar & Hext).
  exists o, st'. repeat (split; [assumption |]).
  unfold new_AmpDocService, AmpDocService_constructor, bind.
  by rewrite Hrun.
Qed.

Lemma wf_new_AmpDocService st0 w isSingleDoc :
  wf st0 -> wf (new_AmpDocService env st0 w isSingleDoc).
Proof.
  intros Hwf. destruct isSingleDoc.
  - destruct (new_AmpDocService_single st0 w)
      as (o & st' & Halloc & Hvar & Hext & ->).
    pose proof Halloc as (Hh & Hp & _).
    assert (Hwf' : wf st').
    { eapply wf_alloc; eauto.
      - unfold getParent. by rewrite Hvar.
      - unfold waitForBodyOpen. by rewrite Hvar.
      - unfold whenReady. by rewrite Hvar.
      - unfold pending_inv. by rewrite Hvar. }
    constructor; simpl; try apply Hwf'.
    + intros n d. rewrite lookup_insert. case_decide.
      * intros [= <-]. rewrite Hh, length_app. simpl. lia.
      * apply (wf_marker _ Hwf').
    + intros d [= <-]. rewrite Hh, length_app. simpl. lia.
  - unfold new_AmpDocService, AmpDocService_constructor, bind, ret, modify. simpl.
    constructor; simpl; try apply Hwf. done.
Qed.

Lemma reachable_wf st : reachable env st -> wf st.
Proof.
  intros (w & isSingleDoc & Hsteps).
  eapply wf_steps; [| exact Hsteps].
  apply wf_new_AmpDocService, wf_empty_world.
Qed.

End Reachable.

(** ** What the calls leave alone *)

Section Frames.
Context (env : Env).

(** What a call on a document leaves alone. *)
Lemma setBody_frame d body st :
  service (snd (setBody env d body st)) = service st /\
  AMPDOC_PROP (snd (setBody env d body st)) = AMPDOC_PROP st /\
  ampdoc_ (snd (setBody env d body st)) = ampdoc_ st.
Proof.
  destruct (heap st !! d) as [o |] eqn:Ho;
    [| by destruct (setBody_not_shadow env d body st) as [msg ->]; [congruence |]].
  destruct (variant o) as [| url sr b bp bres rdy rp rres |] eqn:Hv;
    [by destruct (setBody_not_shadow env d body st) as [msg ->]; [congruence |]
    | | by destruct (setBody_not_shadow env d body st) as [msg ->]; [congruence |]].
  rewrite (setBody_shadow env d body st o _ _ _ _ _ _ _ _ Ho Hv).
  destruct (debugBuild env && truthy b); [done |]. by destruct bres.
Qed.

Lemma setReady_frame d st :
  service (snd (setReady env d st)) = service st /\
  AMPDOC_PROP (snd (setReady env d st)) = AMPDOC_PROP st /\
  ampdoc_ (snd (setReady env d st)) = ampdoc_ st.
Proof.
  destruct (heap st !! d) as [o |] eqn:Ho;
    [| by destruct (setReady_other env d st) as [msg ->]; [by left |]].
  destruct (variant o) as [bp rp | url sr b bp bres rdy rp rres
                           | url parent bp rdy rp rres] eqn:Hv.
  - by destruct (setReady_other env d st) as [msg ->]; [right; eauto |].
  - rewrite (setReady_shadow env d st o _ _ _ _ _ _ _ _ Ho Hv).
    destruct (debugBuild env && rdy); [done |]. by destruct rres.
  - rewrite (setReady_fie env d st o _ _ _ _ _ _ Ho Hv).
    destruct (debugBuild env && rdy); [done |]. by destruct rres.
Qed.

Lemma installShadowDoc_flag url root st :
  mightHaveShadowRoots_ (service (snd (installShadowDoc env url root st))) = true.
Proof.
  destruct (installShadowDoc_cases env url root st)
    as [(_ & _ & ->) | (_ & o & st2 & (_ & _ & Hs & _) & _ & _ & ->)]; [done |].
  simpl. by rewrite Hs.
Qed.

(** Once [mightHaveShadowRoots_] is true no call makes it false, and no call
    changes the window of the service. *)
Lemma exec_flag c st :
  mightHaveShadowRoots_ (service st) = true ->
  mightHaveShadowRoots_ (service (exec env c st)) = true.
Proof.
  intros Hflag.
  destruct c as [| fuel node | url shadowRoot | fuel url childWin opt_options
                 | value | d x | d body | d | n d]; simpl; try done.
  - by rewrite getSingleDoc_state.
  - by rewrite getAmpDoc_state.
  - apply installShadowDoc_flag.
  - destruct (installFieDoc_cases env fuel url childWin opt_options st)
      as [[-> _] | (fe & parent & o & st1 & s1 & _ & _ & _ &
                    (_ & _ & Hs & _) & _ & _ & ->)]; [done |].
    simpl. by rewrite Hs.
  - by destruct (setBody_frame d body st) as (-> & _).
  - by destruct (setReady_frame d st) as (-> & _).
Qed.

Lemma exec_win c st : win (service (exec env c st)) = win (service st).
Proof.
  destruct c as [| fuel node | url shadowRoot | fuel url childWin opt_options
                 | value | d x | d body | d | n d]; simpl; try done.
  - by rewrite getSingleDoc_state.
  - by rewrite getAmpDoc_state.
  - destruct (installShadowDoc_cases env url shadowRoot st)
      as [(_ & _ & ->) | (_ & o & st2 & (_ & _ & Hs & _) & _ & _ & ->)]; [done |].
    simpl. by rewrite Hs.
  - destruct (installFieDoc_cases env fuel url childWin opt_options st)
      as [[-> _] | (fe & parent & o & st1 & s1 & _ & _ & _ &
                    (_ & _ & Hs & _) & _ & _ & ->)]; [done |].
    simpl. by rewrite Hs.
  - by destruct (setBody_frame d body st) as (-> & _).
  - by destruct (setReady_frame d st) as (-> & _).
Qed.

Lemma exec_singleDoc c st :
  singleDoc_ (service (exec env c st)) = singleDoc_ (service st).
Proof.
  destruct c as [| fuel node | url shadowRoot | fuel url childWin opt_options
                 | value | d x | d body | d | n d]; simpl; try done.
  - by rewrite getSingleDoc_state.
  - by rewrite getAmpDoc_state.
  - destruct (installShadowDoc_cases env url shadowRoot st)
      as [(_ & _ & ->) | (_ & o & st2 & (_ & _ & Hs & _) & _ & _ & ->)]; [done |].
    simpl. by rewrite Hs.
  - destruct (installFieDoc_cases env fuel url childWin opt_options st)
      as [[-> _] | (fe & parent & o & st1 & s1 & _ & _ & _ &
                    (_ & _ & Hs & _) & _ & _ & ->)]; [done |].
    simpl. by rewrite Hs.
  - by destruct (setBody_frame d body st) as (-> & _).
  - by destruct (setReady_frame d st) as (-> & _).
Qed.

(** While [devAssert] checks, a marker that is set stays as it is. *)
Lemma exec_marker c st r d :
  debugBuild env = true ->
  AMPDOC_PROP st !! r = Some d ->
  AMPDOC_PROP (exec env c st) !! r = Some d.
Proof.
  intros Hdebug Hr.
  destruct c as [| fuel node | url shadowRoot | fuel url childWin opt_options
                 | value | d' x | d' body | d' | n d']; simpl; try done.
  - by rewrite getSingleDoc_state.
  - by rewrite getAmpDoc_state.
  - destruct (installShadowDoc_cases env url shadowRoot st)
      as [(_ & _ & ->) | (Hfree & o & st2 & (_ & _ & _ & Hm & _) & _ & _ & ->)];
      [done |].
    destruct Hfree as [? | Hfree]; [congruence |].
    simpl. rewrite Hm. simpl. rewrite lookup_insert_ne; [done | congruence].
  - destruct (installFieDoc_cases env fuel url childWin opt_options st)
      as [[-> _] | (fe & parent & o & st1 & s1 & _ & Hfree & _ &
                    (_ & _ & _ & Hm & _) & _ & _ & ->)]; [done |].
    destruct Hfree as [? | Hfree]; [congruence |].
    simpl. rewrite Hm. rewrite lookup_insert_ne; [done | congruence].
  - by destruct (setBody_frame d' body st) as (_ & -> & _).
  - by destruct (setReady_frame d' st) as (_ & -> & _).
Qed.

Lemma steps_flag st st' :
  rtc (step env) st st' ->
  mightHaveShadowRoots_ (service st) = true ->
  mightHaveShadowRoots_ (service st') = true.
Proof.
  induction 1 as [| st st1 st' (c & _ & ->) _ IH]; [done |].
  intros Hflag. by apply IH, exec_flag.
Qed.

Lemma steps_win st st' :
  rtc (step env) st st' -> win (service st') = win (service st).
Proof.
  induction 1 as [| st st1 st' (c & _ & ->) _ IH]; [done |].
  by rewrite IH, exec_win.
Qed.

Lemma steps_marker st st' r d :
  debugBuild env = true ->
  rtc (step env) st st' ->
  AMPDOC_PROP st !! r = Some d ->
  AMPDOC_PROP st' !! r = Some d.
Proof.
  intros Hdebug. induction 1 as [| st st1 st' (c & _ & ->) _ IH]; [done |].
  intros Hr. by apply IH, exec_marker.
Qed.

Lemma steps_singleDoc st st' :
  rtc (step env) st st' ->
  singleDoc_ (service st') = singleDoc_ (service st).
Proof.
  induction 1 as [| st st1 st' (c & _ & ->) _ IH]; [done |].
  by rewrite IH, exec_singleDoc.
Qed.

(** Single-document mode is what the constructor leaves, and what stays
    while [devAssert] checks. *)
Lemma new_AmpDocService_SingleDocMode st0 w :
  SingleDocMode env (new_AmpDocService env st0 w true) (length (heap st0)).
Proof.
  destruct (new_AmpDocService_single env st0 w) as (o & st' & _ & _ & _ & ->).
  split; [reflexivity |]. simpl. by rewrite lookup_insert_eq.
Qed.

Lemma steps_SingleDocMode st st' d :
  debugBuild env = true ->
  rtc (step env) st st' ->
  SingleDocMode env st d -> SingleDocMode env st' d.
Proof.
  intros Hdebug Hsteps [Hsingle Hmarker]. split.
  - by rewrite (steps_singleDoc _ _ Hsteps).
  - rewrite (steps_win _ _ Hsteps). by apply (steps_marker st).
Qed.

Lemma installShadowDoc_marked url root st :
  debugBuild env = true -> is_Some (AMPDOC_PROP st !! root) ->
  installShadowDoc env url root st =
    (Throw (AssertionError (Some "The shadow root already contains ampdoc")),
     set_service (set_mightHaveShadowRoots_ true) st).
Proof.
  intros Hdebug Hmarked.
  destruct (installShadowDoc_cases env url root st)
    as [(_ & _ & ->) | ([Hd | Hfree] & _)]; [done | congruence |].
  rewrite Hfree in Hmarked. by destruct Hmarked.
Qed.

(** C10: [installShadowDoc] leaves [mightHaveShadowRoots_] true whether it
    returns or throws; when it throws on a marked root, the state it leaves
    is the one with the flag set; and no call ever makes the flag false
    again. *)
Theorem installShadowDoc_sets_flag_first url root st :
  mightHaveShadowRoots_ (service (snd (installShadowDoc env url root st))) = true /\
  (debugBuild env = true -> is_Some (AMPDOC_PROP st !! root) ->
   installShadowDoc env url root st =
     (Throw (AssertionError (Some "The shadow root already contains ampdoc")),
      set_service (set_mightHaveShadowRoots_ true) st)) /\
  (forall st1 st2,
     rtc (step env) st1 st2 ->
     mightHaveShadowRoots_ (service st1) = true ->
     mightHaveShadowRoots_ (service st2) = true).
Proof.
  split; [apply installShadowDoc_flag |].
  split; [apply installShadowDoc_marked | apply steps_flag].
Qed.

End Frames.

(** ** Owners *)

Section Owners.
Context (env : Env).

Lemma fie_body_marker st n rootNode d :
  ampdoc_ st !! n = None ->
  rootNodeFor env n = Some rootNode ->
  AMPDOC_PROP st !! rootNode = Some d ->
  fie_body env st n = Return d.
Proof. intros Hb Hr Hm. unfold fie_body. by rewrite Hb, Hr, Hm. Qed.

Lemma legacy_body_marker st n shadowRoot d :
  ampdoc_ st !! n = None ->
  getParentWindowFrameElement env n (win (service st)) = None ->
  mightHaveShadowRoots_ (service st) = true ->
  (if (nodeType env n =? 9)%Z then Some n else getShadowRootNode env n) = Some shadowRoot ->
  AMPDOC_PROP st !! shadowRoot = Some d ->
  legacy_body env st n = Return d.
Proof.
  intros Hb Hf Hs Hr Hm. unfold legacy_body.
  rewrite Hb, Hf, Hs. simpl. by rewrite Hr, Hm.
Qed.

Lemma shadow_root_owner st root d n fuel :
  AMPDOC_PROP st !! root = Some d ->
  mightHaveShadowRoots_ (service st) = true ->
  InShadowRoot env (win (service st)) root n ->
  ampdoc_ st !! n = None ->
  0 < fuel ->
  getAmpDocIfAvailable env fuel st n = Some (Some d).
Proof.
  intros Hmarker Hflag (Hroot & Hshadow & Htype & Hframe) Hback Hfuel.
  destruct fuel as [| fuel]; [lia |].
  unfold getAmpDocIfAvailable.
  destruct (ampdocFieExperimentOn_ (service st)); simpl.
  - by rewrite (fie_body_marker _ _ _ d Hback Hroot Hmarker).
  - rewrite (legacy_body_marker _ _ root d Hback Hframe Hflag); [done | | done].
    by apply Z.eqb_neq in Htype as ->.
Qed.

Lemma set_flag_id st :
  mightHaveShadowRoots_ (service st) = true ->
  set_service (set_mightHaveShadowRoots_ true) st = st.
Proof. destruct st as [[w s f m] h p c a b]. simpl. by intros ->. Qed.

(** C3: while [devAssert] checks, once [installShadowDoc] has marked a
    shadow root with a document, every later [installShadowDoc] on that
    root throws the assertion error and changes nothing, the marker stays
    the first document, and every node rooted in that shadow root that has
    no back-reference of its own resolves to the first document, in both
    traversal modes. *)
Theorem installShadowDoc_twice url1 url2 root st0 d1 st1 st2 :
  debugBuild env = true ->
  installShadowDoc env url1 root st0 = (Normal d1, st1) ->
  rtc (step env) st1 st2 ->
  installShadowDoc env url2 root st2 =
    (Throw (AssertionError (Some "The shadow root already contains ampdoc")), st2) /\
  AMPDOC_PROP st2 !! root = Some d1 /\
  forall n fuel,
    InShadowRoot env (win (service st2)) root n ->
    ampdoc_ st2 !! n = None ->
    0 < fuel ->
    getAmpDocIfAvailable env fuel st2 n = Some (Some d1).
Proof.
  intros Hdebug Hfirst Hsteps.
  assert (Hflag1 : mightHaveShadowRoots_ (service st1) = true).
  { replace st1 with (snd (installShadowDoc env url1 root st0)) by by rewrite Hfirst.
    apply installShadowDoc_flag. }
  assert (Hmark1 : AMPDOC_PROP st1 !! root = Some d1).
  { destruct (installShadowDoc_cases env url1 root st0)
      as [(_ & _ & H) | (_ & o & st' & _ & _ & _ & H)];
      rewrite H in Hfirst; [discriminate |].
    injection Hfirst as <- <-. simpl. by rewrite lookup_insert_eq. }
  pose proof (steps_flag env _ _ Hsteps Hflag1) as Hflag2.
  pose proof (steps_marker env _ _ _ _ Hdebug Hsteps Hmark1) as Hmark2.
  split; [| split; [exact Hmark2 |]].
  - rewrite installShadowDoc_marked; [| done | eauto]. by rewrite set_flag_id.
  - intros n fuel. by apply shadow_root_owner.
Qed.

(** C6: while [devAssert] checks, [getAmpDoc] on a node that is not
    connected throws the assertion error; whenever [getAmpDocIfAvailable]
    finds no owner, [getAmpDoc] throws, and the error is the created error
    'No ampdoc found for' with the node once the attachment check has
    passed or is skipped; when an owner is found for a node that is not
    reported detached, [getAmpDoc] returns exactly that owner.  The state
    is never changed. *)
Theorem getAmpDoc_spec fuel node st :
  (debugBuild env = true -> isConnected env node = Some false ->
   getAmpDoc env fuel node st =
     (Throw (AssertionError (Some "The node must be attached to request ampdoc.")), st)) /\
  (getAmpDocIfAvailable env fuel st node = Some None ->
   (exists e, getAmpDoc env fuel node st = (Throw e, st)) /\
   (debugBuild env = false \/ isConnected env node <> Some false ->
    getAmpDoc env fuel node st = (Throw (CreatedError "No ampdoc found for" node), st))) /\
  (forall ampdoc,
     isConnected env node <> Some false ->
     getAmpDocIfAvailable env fuel st node = Some (Some ampdoc) ->
     getAmpDoc env fuel node st = (Normal ampdoc, st)).
Proof.
  unfold getAmpDoc, bind, get.
  destruct (devAssert_cases env
    (match isConnected env node with None => true | Some c => c end)
    (Some "The node must be attached to request ampdoc.") st)
    as [(Hd & Hc & ->) | (Hc & ->)].
  - assert (Hdetached : isConnected env node = Some false)
      by by destruct (isConnected env node) as [[|] |].
    split; [done |]. split.
    + intros _. split; [by eexists |]. intros [? | ?]; congruence.
    + intros ampdoc ?. congruence.
  - split; [| split].
    + intros Hd Hn. rewrite Hn in Hc. destruct Hc; congruence.
    + intros ->. split; [by eexists | done].
    + by intros ampdoc _ ->.
Qed.

End Owners.

(** *** The main document *)
Section MainDocument.
Context (env : Env).

Lemma main_document_owner st d n fuel :
  SingleDocMode env st d ->
  InMainDocument env (win (service st)) n ->
  ampdoc_ st !! n = None ->
  0 < fuel ->
  getAmpDocIfAvailable env fuel st n = Some (Some d).
Proof.
  intros [Hsingle Hmarker] (Hroot & Hframe & Hdoc & Hshadow) Hback Hfuel.
  destruct fuel as [| fuel]; [lia |].
  unfold getAmpDocIfAvailable.
  destruct (ampdocFieExperimentOn_ (service st)); simpl.
  - by rewrite (fie_body_marker env _ _ _ d Hback Hroot Hmarker).
  - unfold legacy_body. rewrite Hback, Hframe.
    destruct (mightHaveShadowRoots_ (service st)); simpl; [| by rewrite Hsingle].
    destruct (Z.eqb_spec (nodeType env n) 9) as [H9 | H9].
    + rewrite (Hdoc H9). by rewrite Hmarker.
    + destruct (getShadowRootNode env n) as [r |] eqn:Hr; [| by rewrite Hsingle].
      rewrite (Hshadow r eq_refl). by rewrite Hmarker.
Qed.

(** C1: in single-document mode, a node that lies in the main document with
    no shadow root and no frame in between, and that has no back-reference,
    resolves to the top-level document, whichever traversal mode is
    chosen. *)
Theorem getAmpDocIfAvailable_main_document st d n fuel value :
  SingleDocMode env st d ->
  InMainDocument env (win (service st)) n ->
  ampdoc_ st !! n = None ->
  0 < fuel ->
  ampdocFieExperimentOn_ (service (snd (updateFieModeForTesting value st))) = value /\
  getAmpDocIfAvailable env fuel (snd (updateFieModeForTesting value st)) n
  = Some (Some d).
Proof.
  intros Hmode Hin Hback Hfuel. split; [reflexivity |].
  apply main_document_owner; assumption.
Qed.

(** C9: the constructor, in single-document mode, makes a new
    [AmpDocSingle], keeps it in [singleDoc_] and marks the main document
    with it, and writes no back-reference; so, when the experiment is on, a
    node rooted in the main document that has no back-reference resolves to
    it through the marker: the result is the same when [singleDoc_] is
    anything else. *)
Theorem constructor_marks_main_document st0 w :
  let st := new_AmpDocService env st0 w true in
  let d := length (heap st0) in
  singleDoc_ (service st) = Some d /\
  heap st0 !! d = None /\
  (exists o bodyPromise readyPromise,
     heap st !! d = Some o /\ variant o = AmpDocSingle bodyPromise readyPromise) /\
  AMPDOC_PROP st !! document env w = Some d /\
  ampdoc_ st = ampdoc_ st0 /\
  (isExperimentOn env w "ampdoc-fie" = true ->
   ampdocFieExperimentOn_ (service st) = true /\
   forall n fuel s,
     rootNodeFor env n = Some (document env w) ->
     ampdoc_ st !! n = None ->
     0 < fuel ->
     getAmpDocIfAvailable env fuel st n = Some (Some d) /\
     getAmpDocIfAvailable env fuel (set_service (set_singleDoc_ s) st) n = Some (Some d)).
Proof.
  intros st d. subst st d.
  destruct (new_AmpDocService_single env st0 w)
    as (o & st' & (Hheap & _ & _ & _ & Hcached) & Hvar & _ & ->).
  split; [reflexivity |]. split; [by apply lookup_ge_None_2 |]. split.
  { eexists o, _, _. split; [| exact Hvar]. simpl.
    rewrite Hheap. rewrite lookup_app_r by lia. by rewrite Nat.sub_diag. }
  split; [simpl; by rewrite lookup_insert_eq |].
  split; [exact Hcached |].
  intros Hexp. split; [exact Hexp |]. intros n fuel s Hroot Hnb Hfuel.
  destruct fuel as [| fuel]; [lia |].
  unfold getAmpDocIfAvailable; simpl. rewrite Hexp.
  erewrite !fie_body_marker; [done | exact Hnb | exact Hroot | | exact Hnb | exact Hroot |];
    simpl; by rewrite lookup_insert_eq.
Qed.

End MainDocument.

(** ** Documents over time *)

Section Evolution.
Context (env : Env).

Lemma evolves_refl v : evolves env v v.
Proof.
  destruct v; simpl; repeat split; try done;
    intros el ->; destruct (debugBuild env); eauto.
Qed.

Lemma evolves_trans v1 v2 v3 :
  evolves env v1 v2 -> evolves env v2 v3 -> evolves env v1 v3.
Proof.
  destruct v1, v2, v3; simpl; try tauto.
  - intros [-> ->] [-> ->]. done.
  - intros (-> & -> & -> & -> & Hb & Hr) (-> & -> & -> & -> & Hb' & Hr').
    repeat split; try done; [| tauto].
    intros el Hel. specialize (Hb el Hel).
    destruct (debugBuild env).
    + exact (Hb' el Hb).
    + destruct Hb as [el' Hel']. exact (Hb' el' Hel').
  - intros (-> & -> & -> & -> & Hr) (-> & -> & -> & -> & Hr').
    repeat split; try done. tauto.
Qed.

Lemma lookup_alter_evolves (f : AmpDoc -> AmpDoc) d' d (h : list AmpDoc) o :
  h !! d = Some o ->
  (d' = d -> evolves env (variant o) (variant (f o))) ->
  exists o', alter f d' h !! d = Some o' /\ evolves env (variant o) (variant o').
Proof.
  intros Ho Hf. destruct (decide (d' = d)) as [-> | Hne].
  - exists (f o). rewrite list_lookup_alter_eq, Ho. split; [done | by apply Hf].
  - exists o. rewrite list_lookup_alter_ne by done. split; [done | apply evolves_refl].
Qed.

Lemma lookup_allocated st st' o_new s1 s2 d o :
  allocated st st' o_new s1 s2 ->
  heap st !! d = Some o -> heap st' !! d = Some o.
Proof. intros (-> & _) Ho. by apply lookup_app_l_Some. Qed.

(** A document stays where it is in the heap, and its fields evolve. *)
Lemma exec_lookup c st d o :
  heap st !! d = Some o ->
  exists o', heap (exec env c st) !! d = Some o' /\ evolves env (variant o) (variant o').
Proof.
  intros Ho.
  destruct c as [| fuel node | url root | fuel url childWin opt | value
                 | d' x | d' body | d' | n d']; simpl.
  - rewrite getSingleDoc_state. eauto using evolves_refl.
  - rewrite getAmpDoc_state. eauto using evolves_refl.
  - destruct (installShadowDoc_cases env url root st)
      as [(_ & _ & ->) | (_ & o1 & st2 & Halloc & _ & _ & ->)]; simpl;
      [eauto using evolves_refl |].
    exists o. split; [| apply evolves_refl].
    by eapply (lookup_allocated _ _ _ _ _ _ _ Halloc).
  - destruct (installFieDoc_cases env fuel url childWin opt st)
      as [[-> _] | (fe & parent & o1 & st1 & s1 & _ & _ & _ & Halloc & _ & _ & ->)];
      simpl; [eauto using evolves_refl |].
    exists o. split; [| apply evolves_refl].
    by eapply (lookup_allocated _ _ _ _ _ _ _ Halloc).
  - eauto using evolves_refl.
  - apply lookup_alter_evolves; [done |]. intros _.
    rewrite declareExtension_variant. apply evolves_refl.
  - destruct (heap st !! d') as [o2 |] eqn:Ho2;
      [| destruct (setBody_not_shadow env d' body st) as [msg ->];
         [congruence | eauto using evolves_refl]].
    destruct (variant o2) as [| url sr b bp bres rdy rp rres |] eqn:Hv;
      [destruct (setBody_not_shadow env d' body st) as [msg ->];
         [congruence | eauto using evolves_refl]
      | | destruct (setBody_not_shadow env d' body st) as [msg ->];
         [congruence | eauto using evolves_refl]].
    rewrite (setBody_shadow env d' body st o2 _ _ _ _ _ _ _ _ Ho2 Hv).
    destruct (debugBuild env && truthy b) eqn:Hdb; [eauto using evolves_refl |].
    assert (Hgoal : exists o',
      alter (set_variant (AmpDocShadow url sr (Some body) bp None rdy rp rres)) d'
        (heap st) !! d = Some o' /\ evolves env (variant o) (variant o')).
    { apply lookup_alter_evolves; [done |]. intros ->.
      assert (o2 = o) as -> by congruence. rewrite Hv. simpl.
      repeat split; try done. intros el ->. simpl in Hdb.
      rewrite andb_true_r in Hdb. rewrite Hdb. eauto. }
    by destruct bres.
  - destruct (heap st !! d') as [o2 |] eqn:Ho2;
      [| destruct (setReady_other env d' st) as [msg ->];
         [by left | eauto using evolves_refl]].
    destruct (variant o2) as [bp rp | url sr b bp bres rdy rp rres
                              | url parent bp rdy rp rres] eqn:Hv.
    + destruct (setReady_other env d' st) as [msg ->];
        [right; eauto | eauto using evolves_refl].
    + rewrite (setReady_shadow env d' st o2 _ _ _ _ _ _ _ _ Ho2 Hv).
      destruct (debugBuild env && rdy) eqn:Hdb; [eauto using evolves_refl |].
      assert (Hgoal : exists o',
        alter (set_variant (AmpDocShadow url sr b bp bres true rp None)) d'
          (heap st) !! d = Some o' /\ evolves env (variant o) (variant o')).
      { apply lookup_alter_evolves; [done |]. intros ->.
        assert (o2 = o) as -> by congruence. rewrite Hv. simpl.
        repeat split; try done. intros el ->. destruct (debugBuild env); eauto. }
      by destruct rres.
    + rewrite (setReady_fie env d' st o2 _ _ _ _ _ _ Ho2 Hv).
      destruct (debugBuild env && rdy) eqn:Hdb; [eauto using evolves_refl |].
      assert (Hgoal : exists o',
        alter (set_variant (AmpDocFie url parent bp true rp None)) d'
          (heap st) !! d = Some o' /\ evolves env (variant o) (variant o')).
      { apply lookup_alter_evolves; [done |]. intros ->.
        assert (o2 = o) as -> by congruence. rewrite Hv. simpl. done. }
      by destruct rres.
  - eauto using evolves_refl.
Qed.

Lemma steps_lookup st st' d o :
  rtc (step env) st st' ->
  heap st !! d = Some o ->
  exists o', heap st' !! d = Some o' /\ evolves env (variant o) (variant o').
Proof.
  intros Hsteps. revert o.
  induction Hsteps as [| st st1 st' (c & _ & ->) _ IH]; intros o Ho.
  - eauto using evolves_refl.
  - destruct (exec_lookup c st d o Ho) as (o1 & Ho1 & He1).
    destruct (IH o1 Ho1) as (o' & Ho' & He').
    eauto using evolves_trans.
Qed.

Lemma lookup_resolve (ps : list PromiseState) value p q v :
  ps !! q = Some (Resolved v) ->
  alter (resolve value) p ps !! q = Some (Resolved v).
Proof.
  intros Hq. destruct (decide (p = q)) as [-> | Hne].
  - by rewrite list_lookup_alter_eq, Hq.
  - by rewrite list_lookup_alter_ne.
Qed.

(** A promise that is settled keeps its value. *)
Lemma exec_resolved c st q v :
  promises st !! q = Some (Resolved v) ->
  promises (exec env c st) !! q = Some (Resolved v).
Proof.
  intros Hq.
  destruct c as [| fuel node | url root | fuel url childWin opt | value
                 | d' x | d' body | d' | n d']; simpl; try done.
  - by rewrite getSingleDoc_state.
  - by rewrite getAmpDoc_state.
  - destruct (installShadowDoc_cases env url root st)
      as [(_ & _ & ->) | (_ & o1 & st2 & (_ & Hp & _) & _ & _ & ->)]; simpl;
      [done |].
    rewrite Hp. by apply lookup_app_l_Some.
  - destruct (installFieDoc_cases env fuel url childWin opt st)
      as [[-> _] | (fe & parent & o1 & st1 & s1 & _ & _ & _ & (_ & Hp & _) & _ & _ & ->)];
      simpl; [done |].
    rewrite Hp. by apply lookup_app_l_Some.
  - destruct (heap st !! d') as [o2 |] eqn:Ho2;
      [| by destruct (setBody_not_shadow env d' body st) as [msg ->]; [congruence |]].
    destruct (variant o2) as [| url sr b bp bres rdy rp rres |] eqn:Hv;
      [by destruct (setBody_not_shadow env d' body st) as [msg ->]; [congruence |]
      | | by destruct (setBody_not_shadow env d' body st) as [msg ->]; [congruence |]].
    rewrite (setBody_shadow env d' body st o2 _ _ _ _ _ _ _ _ Ho2 Hv).
    destruct (debugBuild env && truthy b); [done |].
    destruct bres; simpl; [by apply lookup_resolve | done].
  - destruct (heap st !! d') as [o2 |] eqn:Ho2;
      [| by destruct (setReady_other env d' st) as [msg ->]; [by left |]].
    destruct (variant o2) as [bp rp | url sr b bp bres rdy rp rres
                              | url parent bp rdy rp rres] eqn:Hv.
    + by destruct (setReady_other env d' st) as [msg ->]; [right; eauto |].
    + rewrite (setReady_shadow env d' st o2 _ _ _ _ _ _ _ _ Ho2 Hv).
      destruct (debugBuild env && rdy); [done |].
      destruct rres; simpl; [by apply lookup_resolve | done].
    + rewrite (setReady_fie env d' st o2 _ _ _ _ _ _ Ho2 Hv).
      destruct (debugBuild env && rdy); [done |].
      destruct rres; simpl; [by apply lookup_resolve | done].
Qed.

Lemma steps_resolved st st' q v :
  rtc (step env) st st' ->
  promises st !! q = Some (Resolved v) ->
  promises st' !! q = Some (Resolved v).
Proof.
  induction 1 as [| st st1 st' (c & _ & ->) _ IH]; [done |].
  intros Hq. by apply IH, exec_resolved.
Qed.

End Evolution.

(** *** Parents *)
Section Parents.
Context (env : Env).

Lemma installFieDoc_marked fuel url childWin opt st :
  debugBuild env = true ->
  is_Some (AMPDOC_PROP st !! document env childWin) ->
  installFieDoc env fuel url childWin opt st =
    (Throw (AssertionError (Some "The fie already contains ampdoc")), st).
Proof.
  intros Hdebug [d Hd]. unfold installFieDoc, bind, get. cbv beta iota zeta.
  by rewrite devAssert_fail; [| done | by rewrite Hd].
Qed.

(** C5: while [devAssert] checks, [installFieDoc] fails when the document of
    the child window carries a marker already; in every build it fails when
    the child window has no frame element and when no owner is found for
    the frame element; when it returns, the new document is an [AmpDocFie]
    whose [getParent()] is the owner [getAmpDoc] found for the frame
    element, and the document of the child window is marked with it. *)
Theorem installFieDoc_spec fuel url childWin opt st :
  (debugBuild env = true ->
   is_Some (AMPDOC_PROP st !! document env childWin) ->
   installFieDoc env fuel url childWin opt st =
     (Throw (AssertionError (Some "The fie already contains ampdoc")), st)) /\
  (frameElement env childWin = None ->
   exists e, installFieDoc env fuel url childWin opt st = (Throw e, st)) /\
  (forall frameElt,
     frameElement env childWin = Some frameElt ->
     getAmpDocIfAvailable env fuel st frameElt = Some None ->
     exists e, installFieDoc env fuel url childWin opt st = (Throw e, st)) /\
  (forall ampdoc st',
     installFieDoc env fuel url childWin opt st = (Normal ampdoc, st') ->
     exists frameElt parent o,
       frameElement env childWin = Some frameElt /\
       getAmpDoc env fuel frameElt st = (Normal parent, st) /\
       heap st !! ampdoc = None /\
       heap st' !! ampdoc = Some o /\
       (exists bp rdy rp rres, variant o = AmpDocFie url parent bp rdy rp rres) /\
       getParent o = Some parent /\
       AMPDOC_PROP st' !! document env childWin = Some ampdoc).
Proof.
  split; [apply installFieDoc_marked |].
  split; [| split].
  - intros Hnone. unfold installFieDoc, bind, get. cbv beta iota zeta.
    destruct (devAssert_cases env (negb (truthy (AMPDOC_PROP st !! document env childWin)))
                (Some "The fie already contains ampdoc") st)
      as [(_ & _ & ->) | (_ & ->)]; [by eexists |].
    cbv beta iota.
    destruct (devAssert_cases env (truthy (frameElement env childWin)) None st)
      as [(_ & _ & ->) | (_ & ->)]; [by eexists |].
    cbv beta iota. rewrite Hnone. by eexists.
  - intros frameElt Hframe Hnone. unfold installFieDoc, bind, get. cbv beta iota zeta.
    destruct (devAssert_cases env (negb (truthy (AMPDOC_PROP st !! document env childWin)))
                (Some "The fie already contains ampdoc") st)
      as [(_ & _ & ->) | (_ & ->)]; [by eexists |].
    cbv beta iota.
    destruct (devAssert_cases env (truthy (frameElement env childWin)) None st)
      as [(_ & _ & ->) | (_ & ->)]; [by eexists |].
    cbv beta iota. rewrite Hframe.
    destruct (getAmpDoc_no_owner env fuel frameElt st Hnone) as [e ->]. by eexists.
  - intros ampdoc st' Hrun.
    destruct (installFieDoc_cases env fuel url childWin opt st)
      as [[_ Hfail] | (fe & parent & o & st1 & s1 & Hframe & _ & Hget &
                       (Hh & _) & Hvar & _ & Heq)].
    { rewrite Hrun in Hfail. by destruct (Hfail ampdoc). }
    rewrite Heq in Hrun. injection Hrun as <- <-.
    exists fe, parent, o. split; [done |]. split; [done |].
    split; [by apply lookup_ge_None_2 |]. split.
    { simpl. rewrite Hh, lookup_app_r by lia. by rewrite Nat.sub_diag. }
    split; [by eauto |]. split; [unfold getParent; by rewrite Hvar |].
    simpl. by rewrite lookup_insert_eq.
Qed.

Lemma tc_parentOf_lt st p d :
  (forall p d, parentOf st p d -> p < d) ->
  tc (parentOf st) p d -> p < d.
Proof.
  intros Hlt. induction 1 as [p d H | p q d H _ IH].
  - by apply Hlt.
  - apply Hlt in H. lia.
Qed.

Lemma steps_parentOf st st' p d :
  rtc (step env) st st' -> parentOf st p d -> parentOf st' p d.
Proof.
  intros Hsteps (o & Ho & Hp).
  destruct (steps_lookup env _ _ _ _ Hsteps Ho) as (o' & Ho' & He).
  exists o'. split; [done |]. unfold getParent in *.
  destruct (variant o), (variant o'); simpl in He; try done.
  destruct He as (_ & -> & _). done.
Qed.

Lemma steps_parentOf_back st st' p d o :
  rtc (step env) st st' -> heap st !! d = Some o ->
  parentOf st' p d -> parentOf st p d.
Proof.
  intros Hsteps Ho (o' & Ho' & Hp).
  destruct (steps_lookup env _ _ _ _ Hsteps Ho) as (o'' & Ho'' & He).
  assert (o'' = o') as -> by congruence.
  exists o. split; [done |]. unfold getParent in *.
  destruct (variant o), (variant o'); simpl in He; try done.
  destruct He as (_ & -> & _). done.
Qed.

(** C7: [getParent()] is null for [AmpDocSingle] and [AmpDocShadow] and is
    [parent_] for [AmpDocFie]; in every reachable state a parent is older
    than its child, a document has at most one parent, no chain of parents
    comes back to where it started, and the parent of a document never
    changes. *)
Theorem getParent_spec :
  (forall o,
     match variant o with
     | AmpDocSingle _ _ => getParent o = None
     | AmpDocShadow _ _ _ _ _ _ _ _ => getParent o = None
     | AmpDocFie _ parent_ _ _ _ _ => getParent o = Some parent_
     end) /\
  (forall st,
     reachable env st ->
     (forall p d, parentOf st p d -> p < d) /\
     (forall p p' d, parentOf st p d -> parentOf st p' d -> p = p') /\
     (forall d, ~ tc (parentOf st) d d) /\
     (forall st' p d o,
        rtc (step env) st st' -> heap st !! d = Some o ->
        (parentOf st' p d <-> parentOf st p d))).
Proof.
  split.
  { intros o. unfold getParent. by destruct (variant o). }
  intros st Hreach. pose proof (reachable_wf env st Hreach) as Hwf.
  assert (Hlt : forall p d, parentOf st p d -> p < d).
  { intros p d (o & Ho & Hp). by apply (wf_parent _ Hwf d o). }
  split; [exact Hlt |]. split; [| split].
  - intros p p' d (o & Ho & Hp) (o' & Ho' & Hp'). congruence.
  - intros d Hcycle. apply (tc_parentOf_lt _ _ _ Hlt) in Hcycle. lia.
  - intros st' p d o Hsteps Ho. split.
    + by apply (steps_parentOf_back st st' p d o).
    + by apply steps_parentOf.
Qed.

End Parents.

(** *** Bodies and extensions *)
Section Bodies.
Context (env : Env).

Lemma reachable_steps st st' :
  reachable env st -> rtc (step env) st st' -> reachable env st'.
Proof.
  intros (w & single & Hsteps) Hmore. exists w, single.
  by etrans.
Qed.

(** C4: on a shadow document whose body is not set, [setBody(el)] with an
    element [el] returns; right after it [isBodyAvailable()] is true and
    [getBody()] is [el]; the promise of [waitForBodyOpen()], the same before
    and after and pending before, is settled with [el] and stays so; from
    then on the body stays available and every further [setBody] throws:
    while [devAssert] checks it is the assertion error 'Duplicate body', it
    changes nothing, and [getBody()] stays [el]; when the check is skipped
    it is a type error, thrown after the body has been overwritten. *)
Theorem setBody_once d el st o url sr bp bres rdy rp rres :
  reachable env st ->
  heap st !! d = Some o ->
  variant o = AmpDocShadow url sr None bp bres rdy rp rres ->
  nodeType env el = 1%Z ->
  exists st1 o1,
    setBody env d el st = (Normal tt, st1) /\
    heap st1 !! d = Some o1 /\
    isBodyAvailable env o1 = true /\
    getBody env o1 = Normal el /\
    waitForBodyOpen o = bp /\
    promises st !! bp = Some Pending /\
    forall st2,
      rtc (step env) st1 st2 ->
      exists o2,
        heap st2 !! d = Some o2 /\
        isBodyAvailable env o2 = true /\
        waitForBodyOpen o2 = bp /\
        promises st2 !! bp = Some (Resolved (Some el)) /\
        forall el',
          (exists e, fst (setBody env d el' st2) = Throw e) /\
          (debugBuild env = true ->
           getBody env o2 = Normal el /\
           setBody env d el' st2 =
             (Throw (AssertionError (Some "Duplicate body")), st2)) /\
          (debugBuild env = false ->
           exists msg o3,
             fst (setBody env d el' st2) = Throw (TypeError msg) /\
             heap (snd (setBody env d el' st2)) !! d = Some o3 /\
             (nodeType env el' = 1%Z -> getBody env o3 = Normal el')).
Proof.
  intros Hreach Ho Hv Hel.
  pose proof (reachable_wf env st Hreach) as Hwf.
  pose proof (wf_pending _ Hwf _ _ Ho) as Hpend.
  unfold pending_inv in Hpend. rewrite Hv in Hpend.
  destruct Hpend as [[-> Hpending] _].
  pose proof (setBody_shadow env d el st o _ _ _ _ _ _ _ _ Ho Hv) as Hrun.
  rewrite andb_false_r in Hrun.
  eexists _, _. split; [exact Hrun |].
  split. { simpl. by rewrite list_lookup_alter_eq, Ho. }
  split; [reflexivity |].
  split. { unfold getBody, assertElement. simpl. by rewrite Hel. }
  split. { unfold waitForBodyOpen. by rewrite Hv. }
  split; [exact Hpending |].
  intros st2 Hsteps.
  match type of Hrun with _ = (_, ?s) => set (st1 := s) in * end.
  assert (Ho1 : heap st1 !! d = Some
            (set_variant (AmpDocShadow url sr (Some el) bp None rdy rp rres) o)).
  { simpl. by rewrite list_lookup_alter_eq, Ho. }
  destruct (steps_lookup env _ _ _ _ Hsteps Ho1) as (o2 & Ho2 & Hev).
  simpl in Hev.
  destruct (variant o2) as [| url2 sr2 b2 bp2 bres2 rdy2 rp2 rres2 |] eqn:Hv2;
    try done.
  destruct Hev as (-> & -> & -> & -> & Hb & _).
  specialize (Hb el eq_refl).
  assert (Hset : is_Some b2).
  { destruct (debugBuild env); [by rewrite Hb | done]. }
  assert (Hreach2 : reachable env st2).
  { apply (reachable_steps st); [done |].
    eapply rtc_l; [| exact Hsteps].
    exists (CallSetBody d el). split; [done |]. simpl. by rewrite Hrun. }
  pose proof (reachable_wf env st2 Hreach2) as Hwf2.
  pose proof (wf_pending _ Hwf2 _ _ Ho2) as Hpend2.
  unfold pending_inv in Hpend2. rewrite Hv2 in Hpend2.
  destruct Hpend2 as [Hbody2 _]. destruct Hset as [b Hb2]. subst b2.
  simpl in Hbody2. subst bres2.
  exists o2. split; [done |].
  split. { unfold isBodyAvailable. by rewrite Hv2. }
  split. { unfold waitForBodyOpen. by rewrite Hv2. }
  split.
  { apply (steps_resolved env st1); [done |].
    simpl. by rewrite list_lookup_alter_eq, Hpending. }
  intros el'.
  rewrite (setBody_shadow env d el' st2 o2 _ _ _ _ _ _ _ _ Ho2 Hv2).
  destruct (debugBuild env) eqn:Hdebug; simpl.
  - split; [by eexists |]. split; [| done]. intros _. split; [| done].
    injection Hb as ->. unfold getBody, assertElement. rewrite Hv2. by rewrite Hel.
  - split; [by eexists |]. split; [done |]. intros _.
    eexists _, _. split; [reflexivity |].
    split; [by rewrite list_lookup_alter_eq, Ho2 |].
    intros Hel'. unfold getBody, assertElement. simpl. by rewrite Hel'.
Qed.

Lemma alter_fixed (f : AmpDoc -> AmpDoc) d (h : list AmpDoc) o :
  h !! d = Some o -> f o = o -> alter f d h = h.
Proof.
  intros Ho Hf. apply list_eq. intros i.
  destruct (decide (d = i)) as [<- | Hne].
  - rewrite list_lookup_alter_eq, Ho. simpl. by rewrite Hf.
  - by rewrite list_lookup_alter_ne.
Qed.

Lemma set_heap_id st h : h = heap st -> set_heap (fun _ => h) st = st.
Proof. intros ->. by destruct st. Qed.

(** C8: [declareExtension] does nothing when the extension is declared
    already, the extension is declared after any call, no call introduces a
    duplicate, and in every reachable state no document holds an extension
    twice. *)
Theorem declareExtension_idempotent :
  (forall o id,
     declaresExtension o id = true -> declareExtension o id = o) /\
  (forall o id, declaresExtension (declareExtension o id) id = true) /\
  (forall o id,
     NoDup (declaredExtensions_ o) ->
     NoDup (declaredExtensions_ (declareExtension o id))) /\
  (forall st d o id,
     heap st !! d = Some o ->
     declaresExtension o id = true ->
     exec env (CallDeclareExtension d id) st = st) /\
  (forall st d o id,
     heap st !! d = Some o ->
     exists o', heap (exec env (CallDeclareExtension d id) st) !! d = Some o' /\
                declaresExtension o' id = true) /\
  (forall st d o,
     reachable env st -> heap st !! d = Some o ->
     NoDup (declaredExtensions_ o)).
Proof.
  assert (H1 : forall o id,
            declaresExtension o id = true -> declareExtension o id = o).
  { intros o id H. unfold declareExtension. by rewrite H. }
  assert (H2 : forall o id, declaresExtension (declareExtension o id) id = true).
  { intros o id. destruct (declaresExtension o id) eqn:H.
    - by rewrite H1.
    - unfold declareExtension. rewrite H. simpl.
      apply declaresExtension_elem. simpl. apply elem_of_app. right.
      by apply list_elem_of_singleton. }
  split; [exact H1 |]. split; [exact H2 |].
  split; [apply declareExtension_NoDup |].
  split; [| split].
  - intros st d o id Ho Hd. unfold exec, set_heap.
    rewrite (alter_fixed _ d (heap st) o Ho (H1 o id Hd)). by destruct st.
  - intros st d o id Ho. exists (declareExtension o id). split; [| apply H2].
    unfold exec, set_heap. simpl heap. by rewrite list_lookup_alter_eq, Ho.
  - intros st d o Hreach Ho.
    by apply (wf_extensions _ (reachable_wf env st Hreach) d).
Qed.

End Bodies.

(** ** The rest of the file

    What a successful installation makes, what one call does to the
    documents and the promises, and what stays of a document. *)

Section NewDocuments.
Context (env : Env).

(** The document and the state a successful [installShadowDoc] makes. *)
Lemma installShadowDoc_new url root st :
  debugBuild env = false \/ AMPDOC_PROP st !! root = None ->
  let o := {| doc_win := win (service st); signals_ := signalsCount st;
              declaredExtensions_ := [];
              variant := AmpDocShadow url root None
                           (length (promises st)) (Some (length (promises st))) false
                           (S (length (promises st))) (Some (S (length (promises st)))) |} in
  installShadowDoc env url root st =
    (Normal (length (heap st)),
     {| service := set_mightHaveShadowRoots_ true (service st);
        heap := heap st ++ [o];
        promises := promises st ++ [Pending; Pending];
        signalsCount := S (signalsCount st);
        AMPDOC_PROP := <[root := length (heap st)]> (AMPDOC_PROP st);
        ampdoc_ := ampdoc_ st |}).
Proof.
  intros Hfree o. unfold installShadowDoc, bind, modify, get. cbv beta iota.
  rewrite devAssert_pass.
  2:{ destruct Hfree as [? | Hfree]; [by left | right]. simpl. by rewrite Hfree. }
  unfold new_AmpDocShadow, signalsFor, newPromise, alloc, bind, modify, get, ret. simpl.
  unfold set_AMPDOC_PROP, set_heap, set_promises, set_signalsCount, set_service; simpl.
  subst o.
  rewrite <- app_assoc, length_app. simpl.
  replace (length (promises st) + 1) with (S (length (promises st))) by lia.
  reflexivity.
Qed.

Lemma installShadowDoc_Normal url root st d st' :
  installShadowDoc env url root st = (Normal d, st') ->
  debugBuild env = false \/ AMPDOC_PROP st !! root = None.
Proof.
  intros Hrun.
  destruct (installShadowDoc_cases env url root st)
    as [(_ & _ & H) | (Hfree & _)]; [| done].
  rewrite H in Hrun. discriminate.
Qed.

(** The document and the state a successful [installFieDoc] makes. *)
Lemma installFieDoc_new fuel url childWin opt st frameElt parent :
  debugBuild env = false \/ AMPDOC_PROP st !! document env childWin = None ->
  frameElement env childWin = Some frameElt ->
  getAmpDoc env fuel frameElt st = (Normal parent, st) ->
  let o := {| doc_win := childWin;
              signals_ := match opt with Some (Some s) => s | _ => signalsCount st end;
              declaredExtensions_ := [];
              variant := AmpDocFie url parent (length (promises st)) false
                           (S (length (promises st))) (Some (S (length (promises st)))) |} in
  installFieDoc env fuel url childWin opt st =
    (Normal (length (heap st)),
     {| service := service st;
        heap := heap st ++ [o];
        promises := promises st ++
          [match body env (document env childWin) with
           | Some b => Resolved (Some b)
           | None => Pending
           end; Pending];
        signalsCount := match opt with
                        | Some (Some _) => signalsCount st
                        | _ => S (signalsCount st)
                        end;
        AMPDOC_PROP := <[document env childWin := length (heap st)]> (AMPDOC_PROP st);
        ampdoc_ := ampdoc_ st |}).
Proof.
  intros Hfree Hframe Hget o. unfold installFieDoc, bind, get. cbv beta iota zeta.
  rewrite devAssert_pass.
  2:{ destruct Hfree as [? | Hfree]; [by left | right]. by rewrite Hfree. }
  cbv beta iota. rewrite devAssert_pass by (right; by rewrite Hframe).
  cbv beta iota. rewrite Hframe, Hget.
  unfold new_AmpDocFie, bodyPromiseOf, signalsFor, newPromise, alloc, bind, modify, get, ret.
  subst o.
  destruct opt as [[s |] |], (body env (document env childWin)); simpl;
    unfold set_AMPDOC_PROP, set_heap, set_promises, set_signalsCount, set_service; simpl;
    rewrite <- app_assoc, length_app; simpl;
    replace (length (promises st) + 1) with (S (length (promises st))) by lia;
    reflexivity.
Qed.

Lemma installFieDoc_Normal fuel url childWin opt st d st' :
  installFieDoc env fuel url childWin opt st = (Normal d, st') ->
  exists frameElt parent,
    (debugBuild env = false \/ AMPDOC_PROP st !! document env childWin = None) /\
    frameElement env childWin = Some frameElt /\
    getAmpDoc env fuel frameElt st = (Normal parent, st).
Proof.
  intros Hrun.
  destruct (installFieDoc_cases env fuel url childWin opt st)
    as [[_ Hfail] | (fe & parent & o & st1 & s1 & Hframe & Hfree & Hget & _)].
  - rewrite Hrun in Hfail. by destruct (Hfail d).
  - by exists fe, parent.
Qed.

End NewDocuments.

Section EffectOfCalls.
Context (env : Env).

Lemma exec_Effect c st :
  wf st -> Effect env st (exec env c st).
Proof.
  intros Hwf.
  destruct c as [| fuel node | url root | fuel url childWin opt | value
                 | d x | d body | d | n d]; simpl.
  - rewrite getSingleDoc_state. by apply Untouched.
  - rewrite getAmpDoc_state. by apply Untouched.
  - destruct (installShadowDoc_cases env url root st)
      as [(_ & _ & ->) | (Hfree & _)]; [by apply Untouched |].
    pose proof (installShadowDoc_new env url root st Hfree) as Hnew.
    cbv zeta in Hnew. rewrite Hnew. simpl.
    eapply (Installed env _ _ _ Pending); simpl; [done | done |].
    split; [done |]. left. by exists url, root.
  - destruct (installFieDoc_cases env fuel url childWin opt st)
      as [[-> _] | (fe & parent & _ & _ & _ & Hfe & Hfree & Hget & _)];
      [by apply Untouched |].
    pose proof (installFieDoc_new env fuel url childWin opt st fe parent
                  Hfree Hfe Hget) as Hnew.
    cbv zeta in Hnew. rewrite Hnew. simpl.
    eapply (Installed env); simpl; [done | done |].
    split; [done |]. right. exists url, parent. split; [| done].
    apply getAmpDoc_Normal in Hget as [_ Hget].
    by eapply getAmpDocIfAvailable_bound.
  - by apply Untouched.
  - destruct (heap st !! d) as [o |] eqn:Ho.
    + by eapply (Declared env _ _ d o x).
    + apply Untouched; [| done]. simpl.
      apply list_eq. intros i. destruct (decide (d = i)) as [<- | Hne].
      * by rewrite list_lookup_alter_eq, Ho.
      * by rewrite list_lookup_alter_ne.
  - destruct (heap st !! d) as [o |] eqn:Ho;
      [| destruct (setBody_not_shadow env d body st) as [msg ->];
         [congruence | by apply Untouched]].
    destruct (variant o) as [| url sr b bp bres rdy rp rres |] eqn:Hv;
      [destruct (setBody_not_shadow env d body st) as [msg ->];
         [congruence | by apply Untouched]
      | | destruct (setBody_not_shadow env d body st) as [msg ->];
         [congruence | by apply Untouched]].
    rewrite (setBody_shadow env d body st o _ _ _ _ _ _ _ _ Ho Hv).
    destruct (debugBuild env && truthy b) eqn:Hdb; [by apply Untouched |].
    eapply (BodySet env _ _ d o); [exact Ho | exact Hv | exact Hdb | |];
      by destruct bres.
  - destruct (heap st !! d) as [o |] eqn:Ho;
      [| destruct (setReady_other env d st) as [msg ->];
         [by left | by apply Untouched]].
    destruct (variant o) as [bp rp | url sr b bp bres rdy rp rres
                             | url parent bp rdy rp rres] eqn:Hv.
    + destruct (setReady_other env d st) as [msg ->];
        [right; eauto | by apply Untouched].
    + rewrite (setReady_shadow env d st o _ _ _ _ _ _ _ _ Ho Hv).
      destruct (debugBuild env && rdy) eqn:Hdb; [by apply Untouched |].
      eapply (ShadowReady env _ _ d o); [exact Ho | exact Hv | exact Hdb | |];
        by destruct rres.
    + rewrite (setReady_fie env d st o _ _ _ _ _ _ Ho Hv).
      destruct (debugBuild env && rdy) eqn:Hdb; [by apply Untouched |].
      eapply (FieReady env _ _ d o); [exact Ho | exact Hv | exact Hdb | |];
        by destruct rres.
  - by apply Untouched.
Qed.

End EffectOfCalls.

Section Persistence.
Context (env : Env).

Lemma persists_refl o : persists env o o.
Proof.
  repeat split; try done; [by exists []; rewrite app_nil_r | apply evolves_refl].
Qed.

Lemma persists_trans o1 o2 o3 :
  persists env o1 o2 -> persists env o2 o3 -> persists env o1 o3.
Proof.
  intros (Hw & Hs & [m Hm] & He) (Hw' & Hs' & [m' Hm'] & He').
  split; [congruence |]. split; [congruence |]. split.
  - exists (m ++ m'). by rewrite Hm', Hm, app_assoc.
  - by eapply evolves_trans.
Qed.

Lemma persists_declareExtension o x : persists env o (declareExtension o x).
Proof.
  unfold declareExtension. destruct (negb _); [| apply persists_refl].
  repeat split; simpl; [by eexists | apply evolves_refl].
Qed.

Lemma persists_set_variant o v :
  evolves env (variant o) v -> persists env o (set_variant v o).
Proof.
  intros He. repeat split; simpl; [by exists []; rewrite app_nil_r | done].
Qed.

Lemma lookup_alter_persists (f : AmpDoc -> AmpDoc) d' d (h : list AmpDoc) o :
  h !! d = Some o ->
  (d' = d -> persists env o (f o)) ->
  exists o', alter f d' h !! d = Some o' /\ persists env o o'.
Proof.
  intros Ho Hf. destruct (decide (d' = d)) as [-> | Hne].
  - exists (f o). rewrite list_lookup_alter_eq, Ho. split; [done | by apply Hf].
  - exists o. rewrite list_lookup_alter_ne by done. split; [done | apply persists_refl].
Qed.

(** A call keeps every document where it is. *)
Lemma Effect_forward st st' d o :
  Effect env st st' ->
  heap st !! d = Some o ->
  exists o', heap st' !! d = Some o' /\ persists env o o'.
Proof.
  intros Heff Ho.
  destruct Heff as [Hh _ | o1 s1 Hh _ _ | d' o1 x Ho1 Hh _
                    | d' o1 url sr b bp bres rdy rp rres body Ho1 Hv Hdb Hh _
                    | d' o1 url sr b bp bres rdy rp rres Ho1 Hv Hdb Hh _
                    | d' o1 url parent bp rdy rp rres Ho1 Hv Hdb Hh _]; rewrite Hh.
  - exists o. split; [done | apply persists_refl].
  - exists o. split; [by apply lookup_app_l_Some | apply persists_refl].
  - apply lookup_alter_persists; [done |]. intros _. apply persists_declareExtension.
  - apply lookup_alter_persists; [done |]. intros ->.
    assert (o1 = o) as -> by congruence.
    apply persists_set_variant. rewrite Hv. simpl.
    repeat split; try done. intros el ->. simpl in Hdb.
    rewrite andb_true_r in Hdb. rewrite Hdb. eauto.
  - apply lookup_alter_persists; [done |]. intros ->.
    assert (o1 = o) as -> by congruence.
    apply persists_set_variant. rewrite Hv. simpl.
    repeat split; try done. intros el ->. destruct (debugBuild env); eauto.
  - apply lookup_alter_persists; [done |]. intros ->.
    assert (o1 = o) as -> by congruence.
    apply persists_set_variant. rewrite Hv. simpl. done.
Qed.

(** A document of the state a call leaves was there before, or has just
    been installed. *)
Lemma Effect_backward st st' d o' :
  Effect env st st' ->
  heap st' !! d = Some o' ->
  (exists o, heap st !! d = Some o /\ persists env o o') \/
  (d = length (heap st) /\
   exists s1, promises st' = promises st ++ [s1; Pending] /\ newly_installed env st s1 o').
Proof.
  intros Heff Ho'.
  destruct (heap st !! d) as [o |] eqn:Ho.
  - left. exists o. split; [done |].
    destruct (Effect_forward st st' d o Heff Ho) as (o'' & Ho'' & Hp).
    by assert (o'' = o') as <- by congruence.
  - right. apply lookup_ge_None_1 in Ho.
    destruct Heff as [Hh _ | o1 s1 Hh Hp Hnew | d' o1 x Ho1 Hh _
                      | d' o1 url sr b bp bres rdy rp rres body Ho1 Hv Hdb Hh _
                      | d' o1 url sr b bp bres rdy rp rres Ho1 Hv Hdb Hh _
                      | d' o1 url parent bp rdy rp rres Ho1 Hv Hdb Hh _];
      rewrite Hh in Ho'.
    + apply lookup_lt_Some in Ho'. lia.
    + apply lookup_app_Some in Ho' as [Ho' | [_ Ho']].
      { apply lookup_lt_Some in Ho'. lia. }
      apply list_lookup_singleton_Some in Ho' as [Hd <-].
      split; [lia | by exists s1].
    + apply lookup_lt_Some in Ho'. rewrite length_alter in Ho'. lia.
    + apply lookup_lt_Some in Ho'. rewrite length_alter in Ho'. lia.
    + apply lookup_lt_Some in Ho'. rewrite length_alter in Ho'. lia.
    + apply lookup_lt_Some in Ho'. rewrite length_alter in Ho'. lia.
Qed.

Lemma steps_persists st st' d o :
  wf st ->
  rtc (step env) st st' ->
  heap st !! d = Some o ->
  exists o', heap st' !! d = Some o' /\ persists env o o'.
Proof.
  intros Hwf Hsteps. revert o.
  induction Hsteps as [| st st1 st' (c & Hc & ->) _ IH]; intros o Ho.
  - exists o. split; [done | apply persists_refl].
  - destruct (Effect_forward _ _ d o (exec_Effect env c st Hwf) Ho) as (o1 & Ho1 & Hp1).
    destruct (IH (wf_exec env c st Hwf Hc) o1 Ho1) as (o' & Ho' & Hp').
    exists o'. split; [done | by eapply persists_trans].
Qed.

End Persistence.


(** ** Documents only grow *)

Section Growth.
Context (env : Env) (href : nat -> string) (head : nat -> option nat).

Lemma persists_accessors o o' :
  persists env o o' ->
  getWin o' = getWin o /\
  signals o' = signals o /\
  AmpDoc_isSingleDoc o' = AmpDoc_isSingleDoc o /\
  getParent o' = getParent o /\
  getRootNode env o' = getRootNode env o /\
  getUrl href o' = getUrl href o /\
  getHeadNode env head o' = getHeadNode env head o /\
  waitForBodyOpen o' = waitForBodyOpen o /\
  whenReady o' = whenReady o /\
  (isBodyAvailable env o = true -> isBodyAvailable env o' = true) /\
  (isReady env o = true -> isReady env o' = true) /\
  (debugBuild env = true -> forall b, getBody env o = Normal b -> getBody env o' = Normal b) /\
  (forall x, declaresExtension o x = true -> declaresExtension o' x = true).
Proof.
  intros (Hw & Hs & [more Hm] & He).
  unfold getWin, signals, AmpDoc_isSingleDoc, getParent, getRootNode, getUrl,
    getHeadNode, waitForBodyOpen, whenReady, isBodyAvailable, isReady, getBody.
  rewrite Hw, Hs.
  assert (Hext : forall x, declaresExtension o x = true -> declaresExtension o' x = true).
  { intros x. rewrite !declaresExtension_elem, Hm, elem_of_app. by left. }
  destruct (variant o) as [bp rp | url sr b bp bres rdy rp rres
                           | url parent bp rdy rp rres],
           (variant o') as [bp' rp' | url' sr' b' bp' bres' rdy' rp' rres'
                            | url' parent' bp' rdy' rp' rres']; simpl in He; try done.
  - destruct He as [-> ->]. split_and!; done.
  - destruct He as (-> & -> & -> & -> & Hb & Hr). split_and!; try done.
    + destruct b as [el |]; [| done]. intros _. specialize (Hb el eq_refl).
      destruct (debugBuild env); [by rewrite Hb | by destruct Hb as [? ->]].
    + intros Hdebug el. destruct b as [el0 |]; [| done].
      specialize (Hb el0 eq_refl). rewrite Hdebug in Hb. by rewrite Hb.
  - destruct He as (-> & -> & -> & -> & Hr). split_and!; done.
Qed.

(** X1: a document of a reachable state is still there, under the same
    reference, after any further calls, and what it answers only grows:
    [getWin()], [signals()], [isSingleDoc()], [getParent()], [getRootNode()],
    [getUrl()], [getHeadNode()], [waitForBodyOpen()] and [whenReady()] give
    what they gave; [isBodyAvailable()] and [isReady()], once true, stay
    true; while [devAssert] checks, a body that [getBody()] returned is
    returned again; a declared extension stays declared. *)
Theorem documents_only_grow st st' d o :
  reachable env st ->
  rtc (step env) st st' ->
  heap st !! d = Some o ->
  exists o',
    heap st' !! d = Some o' /\
    getWin o' = getWin o /\
    signals o' = signals o /\
    AmpDoc_isSingleDoc o' = AmpDoc_isSingleDoc o /\
    getParent o' = getParent o /\
    getRootNode env o' = getRootNode env o /\
    getUrl href o' = getUrl href o /\
    getHeadNode env head o' = getHeadNode env head o /\
    waitForBodyOpen o' = waitForBodyOpen o /\
    whenReady o' = whenReady o /\
    (isBodyAvailable env o = true -> isBodyAvailable env o' = true) /\
    (isReady env o = true -> isReady env o' = true) /\
    (debugBuild env = true ->
     forall b, getBody env o = Normal b -> getBody env o' = Normal b) /\
    (forall x, declaresExtension o x = true -> declaresExtension o' x = true).
Proof.
  intros Hreach Hsteps Ho.
  destruct (steps_persists env st st' d o (reachable_wf env st Hreach) Hsteps Ho)
    as (o' & Ho' & Hp).
  exists o'. split; [exact Ho' |]. by apply persists_accessors.
Qed.

(** X2: on a shadow document or a document of a friendly iframe that is not
    ready, in a reachable state, [setReady()] returns, and the promise of
    [whenReady()] was pending; after it, and after any further calls, the
    document is ready, [whenReady()] is the same promise, settled, and
    another [setReady()] throws: the assertion error, leaving the state as
    it is, while [devAssert] checks, a type error otherwise. *)
Theorem setReady_once d st o :
  reachable env st ->
  heap st !! d = Some o ->
  AmpDoc_isSingleDoc o = false ->
  isReady env o = false ->
  exists st1,
    setReady env d st = (Normal tt, st1) /\
    promises st !! whenReady o = Some Pending /\
    forall st2,
      rtc (step env) st1 st2 ->
      exists o2,
        heap st2 !! d = Some o2 /\
        isReady env o2 = true /\
        whenReady o2 = whenReady o /\
        promises st2 !! whenReady o = Some (Resolved None) /\
        (exists e, fst (setReady env d st2) = Throw e) /\
        (debugBuild env = true ->
         setReady env d st2 =
           (Throw (AssertionError (Some "Duplicate ready state")), st2)) /\
        (debugBuild env = false ->
         exists msg, fst (setReady env d st2) = Throw (TypeError msg)).
Proof.
  intros Hreach Ho Hkind Hready.
  pose proof (reachable_wf env st Hreach) as Hwf.
  pose proof (wf_pending _ Hwf _ _ Ho) as Hpend.
  unfold pending_inv in Hpend. unfold AmpDoc_isSingleDoc in Hkind.
  unfold isReady in Hready. unfold whenReady.
  destruct (variant o) as [bp rp | url sr b bp bres rdy rp rres
                           | url parent bp rdy rp rres] eqn:Hv; [done | |].
  - (* a shadow document *)
    subst rdy. destruct Hpend as [_ [-> Hpending]].
    pose proof (setReady_shadow env d st o _ _ _ _ _ _ _ _ Ho Hv) as Hrun.
    rewrite andb_false_r in Hrun.
    eexists. split; [exact Hrun |]. split; [exact Hpending |].
    intros st2 Hsteps.
    match type of Hrun with _ = (_, ?s) => set (st1 := s) in * end.
    assert (Ho1 : heap st1 !! d = Some
              (set_variant (AmpDocShadow url sr b bp bres true rp None) o)).
    { simpl. by rewrite list_lookup_alter_eq, Ho. }
    destruct (steps_lookup env _ _ _ _ Hsteps Ho1) as (o2 & Ho2 & Hev).
    simpl in Hev.
    destruct (variant o2) as [| url2 sr2 b2 bp2 bres2 rdy2 rp2 rres2 |] eqn:Hv2;
      try done.
    destruct Hev as (-> & -> & -> & -> & _ & Hr). specialize (Hr eq_refl). subst rdy2.
    assert (Hreach2 : reachable env st2).
    { apply (reachable_steps env st); [done |].
      eapply rtc_l; [| exact Hsteps].
      exists (CallSetReady d). split; [done |]. simpl. by rewrite Hrun. }
    pose proof (wf_pending _ (reachable_wf env st2 Hreach2) _ _ Ho2) as Hpend2.
    unfold pending_inv in Hpend2. rewrite Hv2 in Hpend2.
    destruct Hpend2 as [_ Hready2]. simpl in Hready2. subst rres2.
    exists o2. split; [done |].
    split. { unfold isReady. by rewrite Hv2. }
    split. { unfold whenReady. by rewrite Hv2. }
    split.
    { apply (steps_resolved env st1); [done |].
      simpl. by rewrite list_lookup_alter_eq, Hpending. }
    rewrite (setReady_shadow env d st2 o2 _ _ _ _ _ _ _ _ Ho2 Hv2).
    destruct (debugBuild env); simpl.
    + split; [by eexists |]. split; [done |]. done.
    + split; [by eexists |]. split; [done |]. intros _. by eexists.
  - (* a document of a friendly iframe *)
    subst rdy. destruct Hpend as [-> Hpending].
    pose proof (setReady_fie env d st o _ _ _ _ _ _ Ho Hv) as Hrun.
    rewrite andb_false_r in Hrun.
    eexists. split; [exact Hrun |]. split; [exact Hpending |].
    intros st2 Hsteps.
    match type of Hrun with _ = (_, ?s) => set (st1 := s) in * end.
    assert (Ho1 : heap st1 !! d = Some
              (set_variant (AmpDocFie url parent bp true rp None) o)).
    { simpl. by rewrite list_lookup_alter_eq, Ho. }
    destruct (steps_lookup env _ _ _ _ Hsteps Ho1) as (o2 & Ho2 & Hev).
    simpl in Hev.
    destruct (variant o2) as [| | url2 parent2 bp2 rdy2 rp2 rres2] eqn:Hv2;
      try done.
    destruct Hev as (-> & -> & -> & -> & Hr). specialize (Hr eq_refl). subst rdy2.
    assert (Hreach2 : reachable env st2).
    { apply (reachable_steps env st); [done |].
      eapply rtc_l; [| exact Hsteps].
      exists (CallSetReady d). split; [done |]. simpl. by rewrite Hrun. }
    pose proof (wf_pending _ (reachable_wf env st2 Hreach2) _ _ Ho2) as Hpend2.
    unfold pending_inv in Hpend2. rewrite Hv2 in Hpend2.
    simpl in Hpend2. subst rres2.
    exists o2. split; [done |].
    split. { unfold isReady. by rewrite Hv2. }
    split. { unfold whenReady. by rewrite Hv2. }
    split.
    { apply (steps_resolved env st1); [done |].
      simpl. by rewrite list_lookup_alter_eq, Hpending. }
    rewrite (setReady_fie env d st2 o2 _ _ _ _ _ _ Ho2 Hv2).
    destruct (debugBuild env); simpl.
    + split; [by eexists |]. split; [done |]. done.
    + split; [by eexists |]. split; [done |]. intros _. by eexists.
Qed.

End Growth.


(** *** Body and ready state *)

Section Signals.
Context (env : Env).

(** X3: on a shadow document of a reachable state, [setBody(body)] and
    [setReady()] do not depend on each other: each returns or throws the
    same whether the other has run before or not, and the two orders leave
    the same state. *)
Theorem setBody_setReady_commute d body st o :
  reachable env st ->
  heap st !! d = Some o ->
  AmpDoc_isSingleDoc o = false ->
  getParent o = None ->
  fst (setReady env d (snd (setBody env d body st))) = fst (setReady env d st) /\
  fst (setBody env d body (snd (setReady env d st))) = fst (setBody env d body st) /\
  snd (setReady env d (snd (setBody env d body st)))
  = snd (setBody env d body (snd (setReady env d st))).
Proof.
  intros Hreach Ho Hkind Hparent. pose proof (reachable_wf env st Hreach) as Hwf.
  unfold AmpDoc_isSingleDoc in Hkind. unfold getParent in Hparent.
  destruct (variant o) as [bp rp | url sr b bp bres rdy rp rres
                           | url parent bp rdy rp rres] eqn:Hv; [done | | done].
  - pose proof (wf_pending _ Hwf _ _ Ho) as Hpend.
    unfold pending_inv in Hpend. rewrite Hv in Hpend. destruct Hpend as [Hbody Hready].
    destruct (wf_owned _ Hwf _ _ Ho) as [Hbp Hrp].
    unfold waitForBodyOpen, whenReady in Hbp, Hrp. rewrite Hv in Hbp, Hrp.
    pose proof (setBody_shadow env d body st o _ _ _ _ _ _ _ _ Ho Hv) as Hb.
    pose proof (setReady_shadow env d st o _ _ _ _ _ _ _ _ Ho Hv) as Hr.
    assert (Hlook : forall v ps,
              heap (set_heap (alter (set_variant v) d) (set_promises ps st)) !! d
              = Some (set_variant v o)).
    { intros v ps. simpl. by rewrite list_lookup_alter_eq, Ho. }
    assert (Hlook' : forall v,
              heap (set_heap (alter (set_variant v) d) st) !! d
              = Some (set_variant v o)).
    { intros v. simpl. by rewrite list_lookup_alter_eq, Ho. }
    destruct (debugBuild env) eqn:Hdebug;
      destruct b as [el |], rdy; simpl in Hbody, Hready;
      repeat match goal with
             | H : _ /\ _ |- _ => destruct H as [-> ?]
             | H : _ = None |- _ => rewrite H in *; clear H
             end;
      simpl in Hb, Hr; rewrite Hb, Hr; simpl;
      rewrite ?Hb, ?Hr; simpl;
      try (erewrite setReady_shadow;
           [| first [apply Hlook | apply Hlook'] | reflexivity]);
      try (erewrite setBody_shadow;
           [| first [apply Hlook | apply Hlook'] | reflexivity]);
      rewrite ?Hdebug; simpl;
      (split; [done |]); (split; [done |]);
      unfold set_heap, set_promises; simpl;
      rewrite ?alter_set_variant_twice; try done.
    all: f_equal; apply list_alter_alter_ne; lia.
Qed.

End Signals.


(** ** New documents *)

Section Fresh.
Context (env : Env) (href : nat -> string) (head : nat -> option nat).

(** X4: when [installShadowDoc(url, shadowRoot)] returns, the reference is
    a new one; the new document has the URL, the shadow root as root node
    and as head node, the window of the service, no parent, no body, no
    declared extension; it is not ready; its two promises are new, distinct
    and pending; the documents, the promises, the markers of the other
    nodes, the back-references, [singleDoc_] and the experiment flag are as
    they were. *)
Theorem installShadowDoc_fresh_document url root st d st' :
  installShadowDoc env url root st = (Normal d, st') ->
  heap st !! d = None /\
  (exists o,
     heap st' !! d = Some o /\
     getUrl href o = url /\
     getRootNode env o = root /\
     getHeadNode env head o = Normal root /\
     getWin o = win (service st) /\
     AmpDoc_isSingleDoc o = false /\
     getParent o = None /\
     isBodyAvailable env o = false /\
     isReady env o = false /\
     (forall x, declaresExtension o x = false) /\
     waitForBodyOpen o <> whenReady o /\
     promises st !! waitForBodyOpen o = None /\
     promises st !! whenReady o = None /\
     promises st' !! waitForBodyOpen o = Some Pending /\
     promises st' !! whenReady o = Some Pending) /\
  (forall d' o', heap st !! d' = Some o' -> heap st' !! d' = Some o') /\
  (forall p s, promises st !! p = Some s -> promises st' !! p = Some s) /\
  (forall r, r <> root -> AMPDOC_PROP st' !! r = AMPDOC_PROP st !! r) /\
  ampdoc_ st' = ampdoc_ st /\
  singleDoc_ (service st') = singleDoc_ (service st) /\
  ampdocFieExperimentOn_ (service st') = ampdocFieExperimentOn_ (service st).
Proof.
  intros Hrun.
  pose proof (installShadowDoc_new env url root st
                (installShadowDoc_Normal env url root st d st' Hrun)) as Hnew.
  cbv zeta in Hnew. rewrite Hnew in Hrun. injection Hrun as <- <-. simpl.
  split; [by apply lookup_ge_None_2 |]. split.
  { eexists. split.
    { rewrite lookup_app_r by lia. by rewrite Nat.sub_diag. }
    split_and!; unfold waitForBodyOpen, whenReady; simpl; try done; try lia.
    - by apply lookup_ge_None_2.
    - apply lookup_ge_None_2. lia.
    - rewrite lookup_app_r by lia. by rewrite Nat.sub_diag.
    - rewrite lookup_app_r by lia. by replace (S _ - _) with 1 by lia. }
  split_and!; try done.
  - intros d' o'. apply lookup_app_l_Some.
  - intros p s. apply lookup_app_l_Some.
  - intros r Hr. by rewrite lookup_insert_ne.
Qed.


(** X6: once [installShadowDoc] has returned a document, a node rooted in
    that shadow root, without back-reference, resolves to it in both modes;
    once [installFieDoc] has returned a document, with the experiment on, a
    node whose root is the document of [childWin], without back-reference,
    resolves to it; in the legacy mode a node with a frame element resolves
    to what the frame element resolves to, one turn later. *)
Theorem install_then_find :
  (forall url root st d st',
     installShadowDoc env url root st = (Normal d, st') ->
     forall n fuel,
       InShadowRoot env (win (service st')) root n ->
       ampdoc_ st' !! n = None ->
       0 < fuel ->
       getAmpDocIfAvailable env fuel st' n = Some (Some d)) /\
  (forall fuel0 url childWin opt st d st',
     installFieDoc env fuel0 url childWin opt st = (Normal d, st') ->
     (ampdocFieExperimentOn_ (service st') = true ->
      forall n fuel,
        rootNodeFor env n = Some (document env childWin) ->
        ampdoc_ st' !! n = None ->
        0 < fuel ->
        getAmpDocIfAvailable env fuel st' n = Some (Some d)) /\
     (ampdocFieExperimentOn_ (service st') = false ->
      forall n frameElt fuel,
        getParentWindowFrameElement env n (win (service st')) = Some frameElt ->
        ampdoc_ st' !! n = None ->
        getAmpDocIfAvailable env (S fuel) st' n
        = getAmpDocIfAvailable env fuel st' frameElt)).
Proof.
  split.
  - intros url root st d st' Hrun n fuel Hin Hback Hfuel.
    pose proof (installShadowDoc_new env url root st
                  (installShadowDoc_Normal env url root st d st' Hrun)) as Hnew.
    cbv zeta in Hnew. rewrite Hnew in Hrun. injection Hrun as <- <-.
    apply (shadow_root_owner env _ root); try done.
    simpl. by rewrite lookup_insert_eq.
  - intros fuel0 url childWin opt st d st' Hrun.
    destruct (installFieDoc_Normal env fuel0 url childWin opt st d st' Hrun)
      as (fe & parent & Hfree & Hframe & Hget).
    pose proof (installFieDoc_new env fuel0 url childWin opt st fe parent
                  Hfree Hframe Hget) as Hnew.
    cbv zeta in Hnew. rewrite Hnew in Hrun. injection Hrun as <- <-.
    split.
    + intros Hfie n fuel Hroot Hback Hfuel.
      destruct fuel as [| fuel]; [lia |].
      unfold getAmpDocIfAvailable. rewrite Hfie. simpl.
      erewrite fie_body_marker; [done | exact Hback | exact Hroot |].
      simpl. by rewrite lookup_insert_eq.
    + intros Hlegacy n frameElt fuel Hframe' Hback.
      unfold getAmpDocIfAvailable. rewrite Hlegacy.
      cbn [while]. unfold legacy_body at 1. by rewrite Hback, Hframe'.
Qed.

End Fresh.


(** ** Markers *)

Section Markers.
Context (env : Env).

Lemma persists_getRootNode o o' :
  persists env o o' -> getRootNode env o' = getRootNode env o.
Proof.
  intros (Hw & _ & _ & He). unfold getRootNode. rewrite Hw.
  destruct (variant o), (variant o'); simpl in He; try done.
  by destruct He as (_ & -> & _).
Qed.

(** The state the constructor leaves in the empty world. *)
Lemma new_AmpDocService_empty_world w isSingleDoc :
  new_AmpDocService env empty_world w isSingleDoc =
  if isSingleDoc then
    {| service := {| win := w; singleDoc_ := Some 0;
                     ampdocFieExperimentOn_ := isExperimentOn env w "ampdoc-fie";
                     mightHaveShadowRoots_ := false |};
       heap := [{| doc_win := w; signals_ := 0; declaredExtensions_ := [];
                   variant := AmpDocSingle 0 1 |}];
       promises := [match body env (document env w) with
                    | Some b => Resolved (Some b)
                    | None => Pending
                    end;
                    if isDocumentReady env (document env w) then Resolved None
                    else Pending];
       signalsCount := 1;
       AMPDOC_PROP := {[document env w := 0]};
       ampdoc_ := ∅ |}
  else
    {| service := {| win := w; singleDoc_ := None;
                     ampdocFieExperimentOn_ := isExperimentOn env w "ampdoc-fie";
                     mightHaveShadowRoots_ := true |};
       heap := []; promises := []; signalsCount := 0;
       AMPDOC_PROP := ∅; ampdoc_ := ∅ |}.
Proof.
  destruct isSingleDoc; [| done].
  unfold new_AmpDocService, AmpDocService_constructor, new_AmpDocSingle,
    bodyPromiseOf, signalsFor, newPromise, alloc, bind, modify, get, ret.
  by destruct (body env (document env w)).
Qed.

(** [setBody] and [setReady] install nothing. *)
Lemma setBody_length d body st :
  length (heap (snd (setBody env d body st))) = length (heap st).
Proof.
  destruct (heap st !! d) as [o |] eqn:Ho;
    [| destruct (setBody_not_shadow env d body st) as [msg ->]; [congruence | done]].
  destruct (variant o) as [| url sr b bp bres rdy rp rres |] eqn:Hv;
    [destruct (setBody_not_shadow env d body st) as [msg ->]; [congruence | done]
    | | destruct (setBody_not_shadow env d body st) as [msg ->]; [congruence | done]].
  rewrite (setBody_shadow env d body st o _ _ _ _ _ _ _ _ Ho Hv).
  destruct (debugBuild env && truthy b); [done |].
  destruct bres; simpl; by rewrite length_alter.
Qed.

Lemma setReady_length d st :
  length (heap (snd (setReady env d st))) = length (heap st).
Proof.
  destruct (heap st !! d) as [o |] eqn:Ho;
    [| destruct (setReady_other env d st) as [msg ->]; [by left | done]].
  destruct (variant o) as [bp rp | url sr b bp bres rdy rp rres
                           | url parent bp rdy rp rres] eqn:Hv.
  - destruct (setReady_other env d st) as [msg ->]; [right; eauto | done].
  - rewrite (setReady_shadow env d st o _ _ _ _ _ _ _ _ Ho Hv).
    destruct (debugBuild env && rdy); [done |].
    destruct rres; simpl; by rewrite length_alter.
  - rewrite (setReady_fie env d st o _ _ _ _ _ _ Ho Hv).
    destruct (debugBuild env && rdy); [done |].
    destruct rres; simpl; by rewrite length_alter.
Qed.

(** A marker that a call leaves was there before, or is the one of the
    document the call installed. *)
Lemma exec_marker_origin c st r d :
  AMPDOC_PROP (exec env c st) !! r = Some d ->
  AMPDOC_PROP st !! r = Some d \/
  (d = length (heap st) /\
   exists o, heap (exec env c st) !! d = Some o /\ getRootNode env o = r).
Proof.
  destruct c as [| fuel node | url root | fuel url childWin opt | value
                 | d' x | d' body | d' | n d']; simpl.
  - rewrite getSingleDoc_state. by left.
  - rewrite getAmpDoc_state. by left.
  - destruct (installShadowDoc_cases env url root st)
      as [(_ & _ & ->) | (Hc & _)]; [simpl; by left |].
    pose proof (installShadowDoc_new env url root st Hc) as Hnew.
    cbv zeta in Hnew. rewrite Hnew. simpl.
    destruct (decide (r = root)) as [-> | Hne].
    + rewrite lookup_insert_eq. intros [= <-]. right. split; [done |].
      eexists. split; [rewrite lookup_app_r by lia; by rewrite Nat.sub_diag | done].
    + rewrite lookup_insert_ne by done. by left.
  - destruct (installFieDoc_cases env fuel url childWin opt st)
      as [[-> _] | (fe & parent & _ & _ & _ & Hfe & Hc & Hget & _)]; [by left |].
    pose proof (installFieDoc_new env fuel url childWin opt st fe parent
                  Hc Hfe Hget) as Hnew.
    cbv zeta in Hnew. rewrite Hnew. simpl.
    destruct (decide (r = document env childWin)) as [-> | Hne].
    + rewrite lookup_insert_eq. intros [= <-]. right. split; [done |].
      eexists. split; [rewrite lookup_app_r by lia; by rewrite Nat.sub_diag | done].
    + rewrite lookup_insert_ne by done. by left.
  - by left.
  - by left.
  - destruct (setBody_frame env d' body st) as (_ & -> & _). by left.
  - destruct (setReady_frame env d' st) as (_ & -> & _). by left.
  - by left.
Qed.

(** The document a call installs is the marker of its root node. *)
Lemma exec_installed c st o :
  heap (exec env c st) !! length (heap st) = Some o ->
  AMPDOC_PROP (exec env c st) !! getRootNode env o = Some (length (heap st)).
Proof.
  destruct c as [| fuel node | url root | fuel url childWin opt | value
                 | d' x | d' body | d' | n d']; simpl.
  - rewrite getSingleDoc_state. intros Ho. apply lookup_lt_Some in Ho. lia.
  - rewrite getAmpDoc_state. intros Ho. apply lookup_lt_Some in Ho. lia.
  - destruct (installShadowDoc_cases env url root st)
      as [(_ & _ & ->) | (Hc & _)].
    { simpl. intros Ho. apply lookup_lt_Some in Ho. lia. }
    pose proof (installShadowDoc_new env url root st Hc) as Hnew.
    cbv zeta in Hnew. rewrite Hnew. simpl.
    rewrite lookup_app_r by lia. rewrite Nat.sub_diag. intros [= <-].
    unfold getRootNode. simpl. by rewrite lookup_insert_eq.
  - destruct (installFieDoc_cases env fuel url childWin opt st)
      as [[-> _] | (fe & parent & _ & _ & _ & Hfe & Hc & Hget & _)].
    { intros Ho. apply lookup_lt_Some in Ho. lia. }
    pose proof (installFieDoc_new env fuel url childWin opt st fe parent
                  Hc Hfe Hget) as Hnew.
    cbv zeta in Hnew. rewrite Hnew. simpl.
    rewrite lookup_app_r by lia. rewrite Nat.sub_diag. intros [= <-].
    unfold getRootNode. simpl. by rewrite lookup_insert_eq.
  - intros Ho. apply lookup_lt_Some in Ho. lia.
  - intros Ho. apply lookup_lt_Some in Ho. rewrite length_alter in Ho. lia.
  - intros Ho. apply lookup_lt_Some in Ho. rewrite setBody_length in Ho. lia.
  - intros Ho. apply lookup_lt_Some in Ho. rewrite setReady_length in Ho. lia.
  - intros Ho. apply lookup_lt_Some in Ho. lia.
Qed.

Lemma exec_markers c st :
  wf st -> allowed c st ->
  (forall r d, AMPDOC_PROP st !! r = Some d ->
     exists o, heap st !! d = Some o /\ getRootNode env o = r) ->
  forall r d, AMPDOC_PROP (exec env c st) !! r = Some d ->
    exists o, heap (exec env c st) !! d = Some o /\ getRootNode env o = r.
Proof.
  intros Hwf Hc Hinv r d Hr.
  destruct (exec_marker_origin c st r d Hr) as [Hold | [_ Hnew]]; [| done].
  destruct (Hinv r d Hold) as (o & Ho & Hroot).
  destruct (Effect_forward env st _ d o (exec_Effect env c st Hwf) Ho)
    as (o' & Ho' & Hp).
  exists o'. split; [done |]. by rewrite (persists_getRootNode o o' Hp).
Qed.

Lemma exec_owners c st :
  debugBuild env = true ->
  wf st ->
  (forall d o, heap st !! d = Some o -> AMPDOC_PROP st !! getRootNode env o = Some d) ->
  forall d o, heap (exec env c st) !! d = Some o ->
    AMPDOC_PROP (exec env c st) !! getRootNode env o = Some d.
Proof.
  intros Hdebug Hwf Hinv d o' Ho'.
  destruct (Effect_backward env st _ d o' (exec_Effect env c st Hwf) Ho')
    as [(o & Ho & Hp) | [-> _]].
  - rewrite (persists_getRootNode o o' Hp).
    apply exec_marker; [done |]. by apply Hinv.
  - by apply exec_installed.
Qed.

(** In every reachable state a marker is a document whose root node is the
    marked node; in a debug build every document is the marker of its root
    node. *)
Lemma reachable_markers st :
  reachable env st ->
  (forall r d, AMPDOC_PROP st !! r = Some d ->
     exists o, heap st !! d = Some o /\ getRootNode env o = r) /\
  (debugBuild env = true ->
   forall d o, heap st !! d = Some o ->
     AMPDOC_PROP st !! getRootNode env o = Some d).
Proof.
  intros (w & b & Hsteps).
  pose proof (wf_new_AmpDocService env empty_world w b wf_empty_world) as Hwf.
  assert (Hinit :
    (forall r d, AMPDOC_PROP (new_AmpDocService env empty_world w b) !! r = Some d ->
       exists o, heap (new_AmpDocService env empty_world w b) !! d = Some o /\
                 getRootNode env o = r) /\
    (debugBuild env = true ->
     forall d o, heap (new_AmpDocService env empty_world w b) !! d = Some o ->
       AMPDOC_PROP (new_AmpDocService env empty_world w b) !! getRootNode env o
       = Some d)).
  { rewrite new_AmpDocService_empty_world. destruct b; simpl.
    - split.
      + intros r d [<- <-]%lookup_singleton_Some. by eexists.
      + intros _ [| d] o Ho; [| done]. injection Ho as <-.
        unfold getRootNode. simpl. by rewrite lookup_singleton_eq.
    - split; [intros r d Hr; by rewrite lookup_empty in Hr | by intros _ d o Ho]. }
  revert Hwf Hinit.
  induction Hsteps as [| st0 st1 st2 (c & Hc & ->) _ IH]; [done |].
  intros Hwf [Hm Ho]. apply IH.
  - by apply wf_exec.
  - split; [by apply exec_markers |].
    intros Hdebug. apply exec_owners; [done | done | by apply Ho].
Qed.

(** X7: in every reachable state, the marker of a node is a document that
    exists and whose [getRootNode()] is that node, so a document marks one
    node at most; while [devAssert] checks, every document is the marker of
    its root node, so no two documents have the same root node. *)
Theorem markers_name_root_nodes st :
  reachable env st ->
  (forall r d, AMPDOC_PROP st !! r = Some d ->
     exists o, heap st !! d = Some o /\ getRootNode env o = r) /\
  (forall r1 r2 d,
     AMPDOC_PROP st !! r1 = Some d -> AMPDOC_PROP st !! r2 = Some d -> r1 = r2) /\
  (debugBuild env = true ->
   (forall d o, heap st !! d = Some o ->
      AMPDOC_PROP st !! getRootNode env o = Some d) /\
   (forall d1 d2 o1 o2,
      heap st !! d1 = Some o1 -> heap st !! d2 = Some o2 ->
      getRootNode env o1 = getRootNode env o2 -> d1 = d2)).
Proof.
  intros Hreach. destruct (reachable_markers st Hreach) as [Hm Ho].
  split; [exact Hm |]. split.
  - intros r1 r2 d H1 H2.
    destruct (Hm r1 d H1) as (o1 & Ho1 & <-).
    destruct (Hm r2 d H2) as (o2 & Ho2 & <-). congruence.
  - intros Hdebug. split; [by apply Ho |].
    intros d1 d2 o1 o2 H1 H2 Heq.
    apply (Ho Hdebug) in H1, H2. rewrite Heq in H1. congruence.
Qed.

(** X8: while [devAssert] checks, in a reachable state,
    [installShadowDoc(url, shadowRoot)] returns exactly when no document has
    [shadowRoot] as its root node, and [installFieDoc] returns only when no
    document has the document of [childWin] as its root node. *)
Theorem install_needs_a_free_root st :
  reachable env st ->
  debugBuild env = true ->
  (forall url root,
     (exists d st', installShadowDoc env url root st = (Normal d, st')) <->
     (forall d o, heap st !! d = Some o -> getRootNode env o <> root)) /\
  (forall fuel url childWin opt d st',
     installFieDoc env fuel url childWin opt st = (Normal d, st') ->
     forall d0 o, heap st !! d0 = Some o -> getRootNode env o <> document env childWin).
Proof.
  intros Hreach Hdebug. destruct (reachable_markers st Hreach) as [Hm Ho].
  specialize (Ho Hdebug). split.
  - intros url root. split.
    + intros (d & st' & Hrun) d0 o Hd0 Hroot.
      destruct (installShadowDoc_Normal env url root st d st' Hrun) as [Hd | Hfree];
        [congruence |].
      apply Ho in Hd0. rewrite Hroot in Hd0. congruence.
    + intros Hfree.
      assert (Hnone : AMPDOC_PROP st !! root = None).
      { destruct (AMPDOC_PROP st !! root) as [d |] eqn:Hr; [| done].
        destruct (Hm root d Hr) as (o & Hd & Hroot). by destruct (Hfree d o Hd). }
      pose proof (installShadowDoc_new env url root st (or_intror Hnone)) as Hnew.
      cbv zeta in Hnew. eauto.
  - intros fuel url childWin opt d st' Hrun d0 o Hd0 Hroot.
    destruct (installFieDoc_Normal env fuel url childWin opt st d st' Hrun)
      as (fe & parent & [Hd | Hfree] & _); [congruence |].
    apply Ho in Hd0. rewrite Hroot in Hd0. congruence.
Qed.

End Markers.


(** ** Promises *)

Section Settled.
Context (env : Env).

Lemma settled_promises st st' o :
  promises st' !! waitForBodyOpen o = promises st !! waitForBodyOpen o ->
  promises st' !! whenReady o = promises st !! whenReady o ->
  settled env st o -> settled env st' o.
Proof.
  unfold settled, waitForBodyOpen, whenReady.
  destruct (variant o) as [| url sr b bp bres rdy rp rres | url parent bp rdy rp rres];
    [done | |]; intros Hb Hr; rewrite ?Hb, ?Hr; done.
Qed.

Lemma settled_declareExtension st o x :
  settled env st o -> settled env st (declareExtension o x).
Proof. unfold settled. by rewrite declareExtension_variant. Qed.

(** The promises of a document that a call does not resolve stay as they
    are. *)
Lemma settled_resolve_other st st' (d d' : nat) o value (p : nat) :
  wf st ->
  heap st !! d = Some o ->
  d <> d' ->
  (p = 2 * d' \/ p = 2 * d' + 1) ->
  promises st' = alter (resolve value) p (promises st) ->
  settled env st o -> settled env st' o.
Proof.
  intros Hwf Ho Hne Hp Hps.
  destruct (wf_owned _ Hwf _ _ Ho) as [Hb Hr].
  apply settled_promises; rewrite Hps, list_lookup_alter_ne; try done; lia.
Qed.

Lemma exec_settled c st :
  wf st ->
  (forall d o, heap st !! d = Some o -> settled env st o) ->
  forall d o, heap (exec env c st) !! d = Some o -> settled env (exec env c st) o.
Proof.
  intros Hwf Hinv d o' Ho'.
  pose proof (exec_Effect env c st Hwf) as Heff.
  destruct Heff as [Hh Hp | o1 s1 Hh Hp Hnew | d1 o1 x Ho1 Hh Hp
                    | d1 o1 url sr b bp bres rdy rp rres body Ho1 Hv Hdb Hh Hp
                    | d1 o1 url sr b bp bres rdy rp rres Ho1 Hv Hdb Hh Hp
                    | d1 o1 url parent bp rdy rp rres Ho1 Hv Hdb Hh Hp];
    rewrite Hh in Ho'.
  - apply (settled_promises st); [by rewrite Hp | by rewrite Hp | by eapply Hinv].
  - apply lookup_app_Some in Ho' as [Ho' | [_ Ho']].
    + destruct (wf_owned _ Hwf _ _ Ho') as [Hb Hr].
      pose proof (lookup_lt_Some _ _ _ Ho') as Hlt.
      pose proof (wf_promises _ Hwf) as Hlen.
      apply (settled_promises st); [| | by eapply Hinv];
        rewrite Hp; apply lookup_app_l; lia.
    + apply list_lookup_singleton_Some in Ho' as [_ <-].
      destruct Hnew as [_ [(u & r & _ & -> & Hv) | (u & parent & _ & _ & Hv)]];
        unfold settled; rewrite Hv, Hp.
      * split.
        -- rewrite lookup_app_r by lia. by rewrite Nat.sub_diag.
        -- rewrite lookup_app_r by lia. by replace (S _ - _) with 1 by lia.
      * rewrite lookup_app_r by lia. by replace (S _ - _) with 1 by lia.
  - destruct (decide (d1 = d)) as [-> | Hne].
    + rewrite list_lookup_alter_eq, Ho1 in Ho'. injection Ho' as <-.
      apply settled_declareExtension.
      apply (settled_promises st); [by rewrite Hp | by rewrite Hp | by eapply Hinv].
    + rewrite list_lookup_alter_ne in Ho' by done.
      apply (settled_promises st); [by rewrite Hp | by rewrite Hp | by eapply Hinv].
  - pose proof (wf_pending _ Hwf _ _ Ho1) as Hpend.
    unfold pending_inv in Hpend. rewrite Hv in Hpend. destruct Hpend as [Hbody Hready].
    destruct (wf_owned _ Hwf _ _ Ho1) as [Hbp Hrp].
    unfold waitForBodyOpen, whenReady in Hbp, Hrp. rewrite Hv in Hbp, Hrp.
    pose proof (Hinv _ _ Ho1) as Hs1. unfold settled in Hs1. rewrite Hv in Hs1.
    destruct Hs1 as [Hsb Hsr].
    destruct (decide (d1 = d)) as [-> | Hne].
    + rewrite list_lookup_alter_eq, Ho1 in Ho'. injection Ho' as <-.
      unfold settled. simpl.
      destruct b as [el |]; simpl in Hbody.
      * subst bres. rewrite Hp. split; [| done].
        destruct Hsb as (el' & Hel' & _). exists el'. split; [done |].
        intros Hdebug. rewrite Hdebug in Hdb. simpl in Hdb. discriminate.
      * destruct Hbody as [-> Hpending]. rewrite Hp. split.
        -- exists body. split; [| done].
           by rewrite list_lookup_alter_eq, Hpending.
        -- rewrite list_lookup_alter_ne by lia. done.
    + rewrite list_lookup_alter_ne in Ho' by done.
      destruct bres as [p |].
      * eapply (settled_resolve_other st _ d d1 o' _ p Hwf Ho');
          [congruence | | exact Hp | by eapply Hinv].
        destruct b; simpl in Hbody; [done |]. destruct Hbody as [[= ->] _]. by left.
      * apply (settled_promises st); [by rewrite Hp | by rewrite Hp | by eapply Hinv].
  - pose proof (wf_pending _ Hwf _ _ Ho1) as Hpend.
    unfold pending_inv in Hpend. rewrite Hv in Hpend. destruct Hpend as [Hbody Hready].
    destruct (wf_owned _ Hwf _ _ Ho1) as [Hbp Hrp].
    unfold waitForBodyOpen, whenReady in Hbp, Hrp. rewrite Hv in Hbp, Hrp.
    pose proof (Hinv _ _ Ho1) as Hs1. unfold settled in Hs1. rewrite Hv in Hs1.
    destruct Hs1 as [Hsb Hsr].
    destruct (decide (d1 = d)) as [-> | Hne].
    + rewrite list_lookup_alter_eq, Ho1 in Ho'. injection Ho' as <-.
      unfold settled. simpl.
      destruct rdy; simpl in Hready.
      * subst rres. by rewrite Hp.
      * destruct Hready as [-> Hpending]. rewrite Hp. split.
        -- rewrite list_lookup_alter_ne by lia. done.
        -- by rewrite list_lookup_alter_eq, Hpending.
    + rewrite list_lookup_alter_ne in Ho' by done.
      destruct rres as [p |].
      * eapply (settled_resolve_other st _ d d1 o' _ p Hwf Ho');
          [congruence | | exact Hp | by eapply Hinv].
        destruct rdy; simpl in Hready; [done |]. destruct Hready as [[= ->] _]. by right.
      * apply (settled_promises st); [by rewrite Hp | by rewrite Hp | by eapply Hinv].
  - pose proof (wf_pending _ Hwf _ _ Ho1) as Hpend.
    unfold pending_inv in Hpend. rewrite Hv in Hpend.
    destruct (wf_owned _ Hwf _ _ Ho1) as [Hbp Hrp].
    unfold waitForBodyOpen, whenReady in Hbp, Hrp. rewrite Hv in Hbp, Hrp.
    pose proof (Hinv _ _ Ho1) as Hs1. unfold settled in Hs1. rewrite Hv in Hs1.
    destruct (decide (d1 = d)) as [-> | Hne].
    + rewrite list_lookup_alter_eq, Ho1 in Ho'. injection Ho' as <-.
      unfold settled. simpl.
      destruct rdy; simpl in Hpend.
      * subst rres. by rewrite Hp.
      * destruct Hpend as [-> Hpending]. rewrite Hp.
        by rewrite list_lookup_alter_eq, Hpending.
    + rewrite list_lookup_alter_ne in Ho' by done.
      destruct rres as [p |].
      * eapply (settled_resolve_other st _ d d1 o' _ p Hwf Ho');
          [congruence | | exact Hp | by eapply Hinv].
        destruct rdy; simpl in Hpend; [done |]. destruct Hpend as [[= ->] _]. by right.
      * apply (settled_promises st); [by rewrite Hp | by rewrite Hp | by eapply Hinv].
Qed.

Lemma reachable_settled st d o :
  reachable env st -> heap st !! d = Some o -> settled env st o.
Proof.
  intros (w & b & Hsteps). revert d o.
  pose proof (wf_new_AmpDocService env empty_world w b wf_empty_world) as Hwf.
  assert (Hinit : forall d o,
    heap (new_AmpDocService env empty_world w b) !! d = Some o ->
    settled env (new_AmpDocService env empty_world w b) o).
  { intros d o Ho. destruct b.
    - destruct (new_AmpDocService_single env empty_world w)
        as (o1 & st1 & (Hh & _) & Hv & _ & Heq).
      rewrite Heq in Ho. simpl in Ho. rewrite Hh in Ho. simpl in Ho.
      destruct d; [| done]. injection Ho as <-. unfold settled. by rewrite Hv.
    - done. }
  revert Hwf Hinit.
  induction Hsteps as [| st0 st1 st2 (c & Hc & ->) _ IH]; [by auto |].
  intros Hwf Hinv. apply IH; [by apply wf_exec | by apply exec_settled].
Qed.

(** X9: in every reachable state, the promise of [whenReady()] of a shadow
    document or of a document of a friendly iframe is settled when
    [isReady()] is true and pending when it is false; the promise of
    [waitForBodyOpen()] of a shadow document is pending when
    [isBodyAvailable()] is false and holds an element when it is true, and
    while [devAssert] checks that element is the one [getBody()] answers
    with. *)
Theorem promises_follow_the_flags st d o :
  reachable env st ->
  heap st !! d = Some o ->
  AmpDoc_isSingleDoc o = false ->
  promises st !! whenReady o
  = Some (if isReady env o then Resolved None else Pending) /\
  (getParent o = None ->
   (isBodyAvailable env o = false ->
    promises st !! waitForBodyOpen o = Some Pending) /\
   (isBodyAvailable env o = true ->
    exists el, promises st !! waitForBodyOpen o = Some (Resolved (Some el)) /\
               (debugBuild env = true ->
                getBody env o = assertElement env (Some el) (Some "body not available")))).
Proof.
  intros Hreach Ho Hkind.
  pose proof (reachable_settled st d o Hreach Ho) as Hs.
  unfold settled in Hs.
  unfold AmpDoc_isSingleDoc in Hkind.
  unfold whenReady, isReady, getParent, isBodyAvailable, waitForBodyOpen, getBody.
  destruct (variant o) as [| url sr b bp bres rdy rp rres | url parent bp rdy rp rres];
    [done | |].
  - destruct Hs as [Hb Hr]. split; [done |]. intros _.
    destruct b as [el |]; simpl.
    + split; [done |]. intros _. destruct Hb as (el' & Hel' & Hdebug).
      exists el'. split; [done |]. intros Hd. by rewrite (Hdebug Hd).
    + split; [done | done].
  - split; [done | done].
Qed.

End Settled.


(** ** The mode of the service *)

Section SingleDocument.
Context (env : Env).

Lemma persists_identity o o' :
  persists env o o' ->
  doc_win o' = doc_win o /\
  AmpDoc_isSingleDoc o' = AmpDoc_isSingleDoc o /\
  getParent o' = getParent o /\
  getRootNode env o' = getRootNode env o.
Proof.
  intros (Hw & _ & _ & He).
  unfold AmpDoc_isSingleDoc, getParent, getRootNode. rewrite Hw.
  destruct (variant o), (variant o'); simpl in He; try done.
  - by destruct He as (_ & -> & _).
  - by destruct He as (_ & -> & _).
Qed.

(** What the constructor fixes for good: the single document, if any, is
    the document 0; the window of the service; no other document is a
    single document; the documents without a parent are in the window of the
    service. *)
Lemma steps_mode w b st :
  rtc (step env) (new_AmpDocService env empty_world w b) st ->
  singleDoc_ (service st) = (if b then Some 0 else None) /\
  win (service st) = w /\
  (b = true ->
   exists o, heap st !! 0 = Some o /\ AmpDoc_isSingleDoc o = true /\ doc_win o = w) /\
  (forall d o, heap st !! d = Some o ->
     (AmpDoc_isSingleDoc o = true -> b = true /\ d = 0) /\
     (getParent o = None -> doc_win o = w)).
Proof.
  intros Hsteps.
  pose proof (wf_new_AmpDocService env empty_world w b wf_empty_world) as Hwf.
  assert (Hinit :
    singleDoc_ (service (new_AmpDocService env empty_world w b))
    = (if b then Some 0 else None) /\
    win (service (new_AmpDocService env empty_world w b)) = w /\
    (b = true ->
     exists o, heap (new_AmpDocService env empty_world w b) !! 0 = Some o /\
               AmpDoc_isSingleDoc o = true /\ doc_win o = w) /\
    (forall d o, heap (new_AmpDocService env empty_world w b) !! d = Some o ->
       (AmpDoc_isSingleDoc o = true -> b = true /\ d = 0) /\
       (getParent o = None -> doc_win o = w))).
  { rewrite new_AmpDocService_empty_world. destruct b; simpl.
    - split_and!; try done.
      + intros _. by eexists.
      + intros [| d] o Ho; [| done]. by injection Ho as <-.
    - split_and!; done. }
  revert Hwf Hinit.
  induction Hsteps as [| st0 st1 st2 (c & Hc & ->) _ IH]; [done |].
  intros Hwf (Hs & Hw & H0 & Hall). apply IH; [by apply wf_exec |].
  pose proof (exec_Effect env c st0 Hwf) as Heff.
  split; [by rewrite exec_singleDoc |].
  split; [by rewrite exec_win |].
  split.
  - intros Hb. destruct (H0 Hb) as (o & Ho & Hk & Hwin).
    destruct (Effect_forward env _ _ 0 o Heff Ho) as (o' & Ho' & Hp).
    destruct (persists_identity o o' Hp) as (Hw' & Hk' & _).
    exists o'. split; [done |]. split; congruence.
  - intros d o' Ho'.
    destruct (Effect_backward env _ _ d o' Heff Ho')
      as [(o & Ho & Hp) | (-> & s1 & _ & _ & Hnew)].
    + destruct (persists_identity o o' Hp) as (-> & -> & -> & _).
      apply (Hall d o Ho).
    + unfold AmpDoc_isSingleDoc, getParent.
      destruct Hnew as [(u & r & -> & _ & ->) | (u & p & _ & _ & ->)]; done.
Qed.

(** X10: the mode cannot be changed after the construction.  In every
    state reached from [new AmpDocService(win, isSingleDoc)],
    [isSingleDoc()] is [isSingleDoc] and [win] is [win]; [getSingleDoc()]
    returns the document 0 in single-document mode, and in the other mode
    throws while [devAssert] checks and returns null otherwise; the document
    0 is then an [AmpDocSingle] of [win], rooted in [win.document]; no other
    document is a single document; a document without parent has the window
    of the service; and in single-document mode with the experiment off the
    lookup never gives null. *)
Theorem single_doc_mode w b st :
  rtc (step env) (new_AmpDocService env empty_world w b) st ->
  isSingleDoc st = b /\
  win (service st) = w /\
  getSingleDoc env st =
    ((if b then Normal (Some 0)
      else if debugBuild env then Throw (AssertionError None)
      else Normal None), st) /\
  (b = true ->
   exists o, heap st !! 0 = Some o /\
             AmpDoc_isSingleDoc o = true /\
             getWin o = w /\
             getRootNode env o = document env w) /\
  (forall d o, heap st !! d = Some o ->
     (AmpDoc_isSingleDoc o = true <-> b = true /\ d = 0)) /\
  (forall d o, heap st !! d = Some o -> getParent o = None -> getWin o = w) /\
  (b = true ->
   ampdocFieExperimentOn_ (service st) = false ->
   forall fuel n r, getAmpDocIfAvailable env fuel st n = Some r -> r <> None).
Proof.
  intros Hsteps. destruct (steps_mode w b st Hsteps) as (Hs & Hw & H0 & Hall).
  split. { unfold isSingleDoc. rewrite Hs. by destruct b. }
  split; [exact Hw |].
  split.
  { unfold getSingleDoc, bind, get, ret, devAssert, throw. rewrite Hs.
    destruct b; simpl; [by rewrite andb_false_r |].
    rewrite andb_true_r. by destruct (debugBuild env). }
  split.
  { intros Hb. destruct (H0 Hb) as (o & Ho & Hk & Hwin).
    exists o. split_and!; try done.
    unfold getRootNode. unfold AmpDoc_isSingleDoc in Hk.
    destruct (variant o); [by rewrite Hwin | done | done]. }
  split.
  - intros d o Ho. split; [apply (Hall d o Ho) |].
    intros [Hb ->]. destruct (H0 Hb) as (o0 & Ho0 & Hk & _). congruence.
  - split; [intros d o Ho; apply (Hall d o Ho) |].
    intros -> Hlegacy fuel n r. unfold getAmpDocIfAvailable. rewrite Hlegacy, Hs.
    destruct (while fuel (legacy_body env st) (Some n)) as [[d |] |];
      [| | done]; by intros [= <-].
Qed.

End SingleDocument.


(** ** What the lookup finds, and that it ends *)

Section Lookups.
Context (env : Env).

(** More fuel does not change what a loop gives. *)
Lemma while_fuel_mono fuel fuel' body n e :
  while fuel body n = Some e -> fuel <= fuel' -> while fuel' body n = Some e.
Proof.
  revert fuel' n. induction fuel as [| fuel IH]; intros fuel' n.
  - destruct n; [done |]. simpl. intros <- _. by destruct fuel'.
  - destruct n as [m |]; [| intros <- _; by destruct fuel'].
    intros Hrun Hle. destruct fuel' as [| fuel']; [lia |].
    simpl in *. destruct (body m); [done | done |].
    apply IH; [done | lia].
Qed.

Lemma while_fuel_agree fuel fuel' body n e e' :
  while fuel body n = Some e -> while fuel' body n = Some e' -> e = e'.
Proof.
  intros H H'.
  apply (while_fuel_mono _ (fuel `max` fuel')) in H; [| lia].
  apply (while_fuel_mono _ (fuel `max` fuel')) in H'; [| lia].
  congruence.
Qed.

(** A loop that returns has come to a node where its body returns. *)
Lemma while_Returned_reaches fuel body n d :
  while fuel body (Some n) = Some (Returned d) ->
  exists k m, k < fuel /\ reaches body k n m /\ body m = Return d.
Proof.
  revert n. induction fuel as [| fuel IH]; intros n; [done |].
  simpl. destruct (body n) as [d' | | [n' |]] eqn:Hb.
  - intros [= ->]. exists 0, n. split; [lia |]. split; [constructor | done].
  - done.
  - intros (k & m & Hk & Hreach & Hm)%IH.
    exists (S k), m. split; [lia |]. split; [by econstructor | done].
  - by destruct fuel.
Qed.

Lemma fie_body_Return_at st m d :
  fie_body env st m = Return d ->
  ampdoc_ st !! m = Some d \/
  (ampdoc_ st !! m = None /\
   exists r, rootNodeFor env m = Some r /\ AMPDOC_PROP st !! r = Some d).
Proof.
  unfold fie_body. destruct (ampdoc_ st !! m); [intros [= ->]; by left |].
  destruct (rootNodeFor env m) as [r |]; [| done].
  destruct (AMPDOC_PROP st !! r) as [d' |] eqn:Hr.
  - intros [= ->]. right. split; [done |]. by exists r.
  - by destruct (host env r).
Qed.

Lemma legacy_body_Return_at st m d :
  legacy_body env st m = Return d ->
  ampdoc_ st !! m = Some d \/
  (ampdoc_ st !! m = None /\
   getParentWindowFrameElement env m (win (service st)) = None /\
   mightHaveShadowRoots_ (service st) = true /\
   exists r, (if (nodeType env m =? 9)%Z then Some m else getShadowRootNode env m) = Some r /\
             AMPDOC_PROP st !! r = Some d).
Proof.
  unfold legacy_body. destruct (ampdoc_ st !! m); [intros [= ->]; by left |].
  destruct (getParentWindowFrameElement env m (win (service st))); [done |].
  destruct (mightHaveShadowRoots_ (service st)); [simpl | done].
  destruct (if (nodeType env m =? 9)%Z then Some m else getShadowRootNode env m)
    as [r |]; [| done].
  destruct (AMPDOC_PROP st !! r) as [d' |] eqn:Hr; [| done].
  intros [= ->]. right. split_and!; try done. by exists r.
Qed.

(** X11: in a reachable state, a document that [getAmpDocIfAvailable]
    returns exists, and: with the experiment on, the traversal came to a
    node with that document as its back-reference, or to a node without
    back-reference whose root node is the [getRootNode()] of the document
    and carries it as marker; in the legacy mode, the traversal came to such
    a node (the root being the node itself if it is a document, its shadow
    root otherwise, with no frame element and [mightHaveShadowRoots_] true),
    or the loop exited and the document is [singleDoc_], an
    [AmpDocSingle]. *)
Theorem getAmpDocIfAvailable_sound fuel st n d :
  reachable env st ->
  getAmpDocIfAvailable env fuel st n = Some (Some d) ->
  exists o,
    heap st !! d = Some o /\
    if ampdocFieExperimentOn_ (service st) then
      exists k m,
        k < fuel /\ reaches (fie_body env st) k n m /\
        (ampdoc_ st !! m = Some d \/
         (ampdoc_ st !! m = None /\
          rootNodeFor env m = Some (getRootNode env o) /\
          AMPDOC_PROP st !! getRootNode env o = Some d))
    else
      (exists k m,
         k < fuel /\ reaches (legacy_body env st) k n m /\
         (ampdoc_ st !! m = Some d \/
          (ampdoc_ st !! m = None /\
           getParentWindowFrameElement env m (win (service st)) = None /\
           mightHaveShadowRoots_ (service st) = true /\
           (if (nodeType env m =? 9)%Z then Some m else getShadowRootNode env m)
           = Some (getRootNode env o) /\
           AMPDOC_PROP st !! getRootNode env o = Some d))) \/
      (while fuel (legacy_body env st) (Some n) = Some Exited /\
       singleDoc_ (service st) = Some d /\
       AmpDoc_isSingleDoc o = true).
Proof.
  intros Hreach Hrun.
  pose proof (reachable_wf env st Hreach) as Hwf.
  destruct (lookup_lt_is_Some_2 (heap st) d
              (getAmpDocIfAvailable_bound env fuel st n d Hwf Hrun)) as [o Ho].
  exists o. split; [exact Ho |].
  destruct (reachable_markers env st Hreach) as [Hm _].
  unfold getAmpDocIfAvailable in Hrun.
  destruct (ampdocFieExperimentOn_ (service st)).
  - destruct (while fuel (fie_body env st) (Some n)) as [[d' |] |] eqn:Hw; [| done | done].
    injection Hrun as ->.
    destruct (while_Returned_reaches _ _ _ _ Hw) as (k & m & Hk & Hreaches & Hret).
    exists k, m. split; [done |]. split; [done |].
    destruct (fie_body_Return_at st m d Hret) as [Hc | (Hc & r & Hr & Hmark)]; [by left |].
    right. destruct (Hm r d Hmark) as (o' & Ho' & Hroot).
    assert (o' = o) as -> by congruence. by rewrite Hroot.
  - destruct (while fuel (legacy_body env st) (Some n)) as [[d' |] |] eqn:Hw; [| | done].
    + injection Hrun as ->. left.
      destruct (while_Returned_reaches _ _ _ _ Hw) as (k & m & Hk & Hreaches & Hret).
      exists k, m. split; [done |]. split; [done |].
      destruct (legacy_body_Return_at st m d Hret)
        as [Hc | (Hc & Hf & Hflag & r & Hr & Hmark)]; [by left |].
      right. destruct (Hm r d Hmark) as (o' & Ho' & Hroot).
      assert (o' = o) as -> by congruence. by rewrite Hroot.
    + injection Hrun as Hs. right. split; [done |]. split; [done |].
      destruct Hreach as (w & b & Hsteps).
      destruct (steps_mode env w b st Hsteps) as (Hs' & _ & H0 & _).
      rewrite Hs in Hs'. destruct b; [| done]. injection Hs' as ->.
      destruct (H0 eq_refl) as (o0 & Ho0 & Hk & _). congruence.
Qed.

(** The loops of a state and of the state with one more back-reference. *)
Lemma while_cached (body body' : nat -> Turn) n d (fallback : option nat) fuel0 e0 :
  (forall m, m <> n -> body' m = body m) ->
  body' n = Return d ->
  while fuel0 body (Some n) = Some e0 ->
  match e0 with Returned x => Some x | Exited => fallback end = Some d ->
  forall fuel m e,
    while fuel body m = Some e ->
    exists e', while fuel body' m = Some e' /\
               match e' with Returned x => Some x | Exited => fallback end
               = match e with Returned x => Some x | Exited => fallback end.
Proof.
  intros Hother Hn H0 Hres0.
  induction fuel as [| fuel IH]; intros [m |] e Hrun.
  - done.
  - exists e. by destruct e.
  - destruct (decide (m = n)) as [-> | Hne].
    + rewrite (while_fuel_agree _ _ _ _ _ _ Hrun H0).
      exists (Returned d). simpl. by rewrite Hn.
    + simpl in *. rewrite (Hother m Hne).
      destruct (body m) as [x | | m'].
      * by exists e.
      * by exists e.
      * by apply IH.
  - exists e. split; [| done]. simpl in *. done.
Qed.

(** X12: when a node caches the document the service found for it
    ([n.ampdoc_ = d]), it still resolves to it, with any fuel, and every
    node resolves to what it resolved to before. *)
Theorem caching_is_transparent st n d fuel0 :
  getAmpDocIfAvailable env fuel0 st n = Some (Some d) ->
  (forall fuel, 0 < fuel ->
     getAmpDocIfAvailable env fuel (exec env (CacheOwner n d) st) n = Some (Some d)) /\
  (forall fuel m r,
     getAmpDocIfAvailable env fuel st m = Some r ->
     getAmpDocIfAvailable env fuel (exec env (CacheOwner n d) st) m = Some r).
Proof.
  intros H0. simpl.
  assert (Hn_fie : fie_body env (set_ampdoc_ <[n := d]> st) n = Return d).
  { unfold fie_body. simpl. by rewrite lookup_insert_eq. }
  assert (Hn_legacy : legacy_body env (set_ampdoc_ <[n := d]> st) n = Return d).
  { unfold legacy_body. simpl. by rewrite lookup_insert_eq. }
  assert (Ho_fie : forall m, m <> n ->
            fie_body env (set_ampdoc_ <[n := d]> st) m = fie_body env st m).
  { intros m Hne. unfold fie_body. simpl. by rewrite lookup_insert_ne. }
  assert (Ho_legacy : forall m, m <> n ->
            legacy_body env (set_ampdoc_ <[n := d]> st) m = legacy_body env st m).
  { intros m Hne. unfold legacy_body. simpl. by rewrite lookup_insert_ne. }
  split.
  - intros [| fuel] Hfuel; [lia |]. unfold getAmpDocIfAvailable. simpl.
    rewrite Hn_fie, Hn_legacy. by destruct (ampdocFieExperimentOn_ (service st)).
  - intros fuel m r. unfold getAmpDocIfAvailable in *. simpl.
    destruct (ampdocFieExperimentOn_ (service st)).
    + destruct (while fuel0 (fie_body env st) (Some n)) as [e0 |] eqn:Hw0; [| done].
      destruct (while fuel (fie_body env st) (Some m)) as [e |] eqn:Hw; [| done].
      destruct (while_cached _ _ n d None fuel0 e0 Ho_fie Hn_fie Hw0) with
        (fuel := fuel) (m := Some m) (e := e) as (e' & -> & He'); [| done |].
      { destruct e0; congruence. }
      intros <-. destruct e, e'; simpl in He'; congruence.
    + destruct (while fuel0 (legacy_body env st) (Some n)) as [e0 |] eqn:Hw0; [| done].
      destruct (while fuel (legacy_body env st) (Some m)) as [e |] eqn:Hw; [| done].
      destruct (while_cached _ _ n d (singleDoc_ (service st)) fuel0 e0
                  Ho_legacy Hn_legacy Hw0) with
        (fuel := fuel) (m := Some m) (e := e) as (e' & -> & He'); [| done |].
      { destruct e0; congruence. }
      intros <-. destruct e, e'; simpl in He'; congruence.
Qed.

(** X13: when each move of the traversals, to a host or to a frame
    element, goes to a node of smaller rank, [getAmpDocIfAvailable] ends
    with any fuel above the rank of the node, with the same result whatever
    that fuel is, and [getAmpDoc] does not run out of fuel. *)
Theorem getAmpDocIfAvailable_total (rank : nat -> nat) st n fuel :
  (forall m r h,
     rootNodeFor env m = Some r -> host env r = Some h -> rank h < rank m) ->
  (forall m r f,
     rootNodeFor env m = Some r ->
     getParentWindowFrameElement env r (win (service st)) = Some f -> rank f < rank m) ->
  (forall m f,
     getParentWindowFrameElement env m (win (service st)) = Some f -> rank f < rank m) ->
  (forall m r h,
     (if (nodeType env m =? 9)%Z then Some m else getShadowRootNode env m) = Some r ->
     host env r = Some h -> rank h < rank m) ->
  rank n < fuel ->
  (exists r,
     getAmpDocIfAvailable env fuel st n = Some r /\
     forall fuel', rank n < fuel' -> getAmpDocIfAvailable env fuel' st n = Some r) /\
  fst (getAmpDoc env fuel n st) <> OutOfFuel.
Proof.
  intros H1 H2 H3 H4 Hfuel.
  assert (Hfie : forall m m', fie_body env st m = Next (Some m') -> rank m' < rank m).
  { intros m m'. unfold fie_body. destruct (ampdoc_ st !! m); [done |].
    destruct (rootNodeFor env m) as [r |] eqn:Hr; [| done].
    destruct (AMPDOC_PROP st !! r); [done |].
    destruct (host env r) as [h |] eqn:Hh.
    - intros [= <-]. by eapply H1.
    - intros [= Hf]. by eapply H2. }
  assert (Hlegacy : forall m m', legacy_body env st m = Next (Some m') -> rank m' < rank m).
  { intros m m'. unfold legacy_body. destruct (ampdoc_ st !! m); [done |].
    destruct (getParentWindowFrameElement env m (win (service st))) as [f |] eqn:Hf.
    - intros [= <-]. by eapply H3.
    - destruct (negb (mightHaveShadowRoots_ (service st))); [done |].
      destruct (if (nodeType env m =? 9)%Z then Some m else getShadowRootNode env m)
        as [r |] eqn:Hr; [| done].
      destruct (AMPDOC_PROP st !! r); [done |].
      intros [= Hh]. by eapply H4. }
  assert (Hends : forall fuel', rank n < fuel' ->
            is_Some (getAmpDocIfAvailable env fuel' st n)).
  { intros fuel' Hlt. by apply (getAmpDocIfAvailable_terminates env rank). }
  assert (Hsame : forall f1 f2 r1 r2,
            getAmpDocIfAvailable env f1 st n = Some r1 ->
            getAmpDocIfAvailable env f2 st n = Some r2 -> r1 = r2).
  { intros f1 f2 r1 r2. unfold getAmpDocIfAvailable.
    destruct (ampdocFieExperimentOn_ (service st)).
    - destruct (while f1 _ _) as [e1 |] eqn:Hw1; [| done].
      destruct (while f2 _ _) as [e2 |] eqn:Hw2; [| done].
      rewrite (while_fuel_agree _ _ _ _ _ _ Hw1 Hw2).
      destruct e2; congruence.
    - destruct (while f1 _ _) as [e1 |] eqn:Hw1; [| done].
      destruct (while f2 _ _) as [e2 |] eqn:Hw2; [| done].
      rewrite (while_fuel_agree _ _ _ _ _ _ Hw1 Hw2).
      destruct e2; congruence. }
  destruct (Hends fuel Hfuel) as [r Hr]. split.
  - exists r. split; [done |]. intros fuel' Hlt.
    destruct (Hends fuel' Hlt) as [r' Hr']. by rewrite (Hsame _ _ _ _ Hr Hr').
  - unfold getAmpDoc, bind, get.
    destruct (devAssert_cases env
                (match isConnected env n with None => true | Some c => c end)
                (Some "The node must be attached to request ampdoc.") st)
      as [(_ & _ & ->) | (_ & ->)]; [done |].
    cbv beta iota. rewrite Hr. by destruct r.
Qed.

End Lookups.

(** * The properties on the page

    Each property is applied to the page defined above; where a property
    holds only while [devAssert] checks, the same calls are run in a build
    that skips the check. *)

Lemma shadow_page_reachable fie debug :
  reachable (page fie debug) (shadow_page fie debug).
Proof.
  exists 0, false. eapply rtc_l; [| apply rtc_refl].
  exists (CallInstallShadowDoc "https://x/" 4). split; [exact I | reflexivity].
Qed.

Lemma fie_page_reachable fie debug :
  reachable (page fie debug) (fie_page fie debug).
Proof.
  exists 0, true. eapply rtc_l; [| apply rtc_refl].
  exists (CallInstallFieDoc 1 "https://y/" 1 None). split; [exact I | reflexivity].
Qed.

(** The nested element 2 of the main document resolves to the top-level
    document 0 in both modes. *)
Lemma getAmpDocIfAvailable_main_document_witness :
  SingleDocMode (page true true) (single_page true true) 0 /\
  InMainDocument (page true true) 0 2 /\
  getAmpDocIfAvailable (page true true) 1
    (snd (updateFieModeForTesting true (single_page true true))) 2 = Some (Some 0) /\
  getAmpDocIfAvailable (page true true) 1
    (snd (updateFieModeForTesting false (single_page true true))) 2 = Some (Some 0).
Proof.
  assert (Hmode : SingleDocMode (page true true) (single_page true true) 0).
  { split; vm_compute; reflexivity. }
  assert (Hin : InMainDocument (page true true) 0 2).
  { repeat split; try (vm_compute; reflexivity).
    - intros H; vm_compute in H; discriminate.
    - intros r H; vm_compute in H; discriminate. }
  split; [exact Hmode |]. split; [exact Hin |]. split.
  - apply (getAmpDocIfAvailable_main_document (page true true)
             (single_page true true) 0 2 1 true Hmode Hin);
      [vm_compute; reflexivity | lia].
  - apply (getAmpDocIfAvailable_main_document (page true true)
             (single_page true true) 0 2 1 false Hmode Hin);
      [vm_compute; reflexivity | lia].
Defined.

(** With the experiment on: from the element 5 of an unmarked shadow root
    the traversal goes to the host 3 and finds nothing there; the detached
    element 9 has no root, and the result is null although [singleDoc_] is
    set.  With the experiment off the result is [singleDoc_]: the document
    0 on the single-document page, null on the multi-document page. *)
Lemma getAmpDocIfAvailable_no_match_witness :
  getAmpDocIfAvailable (page true true) 2 (multi_page true true) 5 = Some None /\
  getAmpDocIfAvailable (page true true) 1 (single_page true true) 9 = Some None /\
  singleDoc_ (service (single_page true true)) = Some 0 /\
  getAmpDocIfAvailable (page false true) 1 (single_page false true) 2 = Some (Some 0) /\
  getAmpDocIfAvailable (page false true) 2 (multi_page false true) 5 = Some None.
Proof.
  split; [| split; [| split; [| split]]].
  - apply (proj1 (getAmpDocIfAvailable_no_match (page true true)
                    (multi_page true true) 5 2));
      [vm_compute; reflexivity |].
    exists 1, 3. split; [lia |]. split.
    + eapply reaches_next; [vm_compute; reflexivity | apply reaches_here].
    + split; [vm_compute; reflexivity |]. right. exists 0.
      repeat split; vm_compute; reflexivity.
  - apply (proj1 (getAmpDocIfAvailable_no_match (page true true)
                    (single_page true true) 9 1));
      [vm_compute; reflexivity |].
    exists 0, 9. split; [lia |]. split; [apply reaches_here |].
    split; [vm_compute; reflexivity |]. left. vm_compute; reflexivity.
  - vm_compute; reflexivity.
  - apply (proj2 (getAmpDocIfAvailable_no_match (page false true)
                    (single_page false true) 2 1));
      vm_compute; reflexivity.
  - apply (proj2 (getAmpDocIfAvailable_no_match (page false true)
                    (multi_page false true) 5 2));
      vm_compute; reflexivity.
Defined.

(** In a debug build the second [installShadowDoc] on the shadow root 4
    throws and the element 5 still resolves to the first document. *)
Lemma installShadowDoc_twice_witness :
  debugBuild (page true true) = true /\
  installShadowDoc (page true true) "https://x/" 4 (multi_page true true)
    = (Normal 0, shadow_page true true) /\
  installShadowDoc (page true true) "https://z/" 4 (shadow_page true true)
    = (Throw (AssertionError (Some "The shadow root already contains ampdoc")),
       shadow_page true true) /\
  AMPDOC_PROP (shadow_page true true) !! 4 = Some 0 /\
  getAmpDocIfAvailable (page true true) 1 (shadow_page true true) 5 = Some (Some 0).
Proof.
  assert (Hfirst : installShadowDoc (page true true) "https://x/" 4 (multi_page true true)
                   = (Normal 0, shadow_page true true)).
  { vm_compute; reflexivity. }
  destruct (installShadowDoc_twice (page true true) "https://x/" "https://z/" 4
              (multi_page true true) 0 (shadow_page true true) (shadow_page true true)
              eq_refl Hfirst (rtc_refl _ _)) as (Hsecond & Hmarker & Howner).
  split; [reflexivity |].
  split; [exact Hfirst |]. split; [exact Hsecond |]. split; [exact Hmarker |].
  apply Howner; [| vm_compute; reflexivity | lia].
  repeat split; try (vm_compute; reflexivity).
  intros H; vm_compute in H; discriminate.
Defined.

(** In a build that skips [devAssert] the second [installShadowDoc] on the
    shadow root 4 returns a second document and the marker becomes that
    one. *)
Lemma second_installShadowDoc_returns_when_unchecked :
  debugBuild (page true false) = false /\
  installShadowDoc (page true false) "https://x/" 4 (multi_page true false)
    = (Normal 0, shadow_page true false) /\
  fst (installShadowDoc (page true false) "https://z/" 4 (shadow_page true false))
    = Normal 1 /\
  AMPDOC_PROP (snd (installShadowDoc (page true false) "https://z/" 4
                      (shadow_page true false))) !! 4 = Some 1 /\
  ~ (forall env url1 url2 root st0 d1 st1,
       installShadowDoc env url1 root st0 = (Normal d1, st1) ->
       (exists e, fst (installShadowDoc env url2 root st1) = Throw e) /\
       AMPDOC_PROP (snd (installShadowDoc env url2 root st1)) !! root = Some d1).
Proof.
  assert (Hfirst : installShadowDoc (page true false) "https://x/" 4 (multi_page true false)
                   = (Normal 0, shadow_page true false)).
  { vm_compute; reflexivity. }
  split; [reflexivity |]. split; [exact Hfirst |].
  split; [vm_compute; reflexivity |]. split; [vm_compute; reflexivity |].
  intros H.
  destruct (H (page true false) "https://x/" "https://z/" 4 _ _ _ Hfirst) as [[e He] _].
  vm_compute in He. discriminate.
Qed.

(** In a debug build: the shadow document 0 is given the element 5 as its
    body; its promise 0 was pending and is settled with 5; a second
    [setBody] throws 'Duplicate body'. *)
Lemma setBody_once_witness :
  reachable (page true true) (shadow_page true true) /\
  nodeType (page true true) 5 = 1%Z /\
  exists o1,
    setBody (page true true) 0 5 (shadow_page true true)
      = (Normal tt, body_page true true) /\
    heap (body_page true true) !! 0 = Some o1 /\
    isBodyAvailable (page true true) o1 = true /\
    getBody (page true true) o1 = Normal 5 /\
    promises (shadow_page true true) !! 0 = Some Pending /\
    promises (body_page true true) !! 0 = Some (Resolved (Some 5)) /\
    setBody (page true true) 0 8 (body_page true true)
      = (Throw (AssertionError (Some "Duplicate body")), body_page true true).
Proof.
  split; [apply shadow_page_reachable |]. split; [reflexivity |].
  destruct (setBody_once (page true true) 0 5 (shadow_page true true)
              {| doc_win := 0; signals_ := 0; declaredExtensions_ := [];
                 variant := AmpDocShadow "https://x/" 4 None 0 (Some 0) false 1 (Some 1) |}
              "https://x/" 4 0 (Some 0) false 1 (Some 1)
              (shadow_page_reachable true true)
              ltac:(vm_compute; reflexivity) eq_refl eq_refl)
    as (st1 & o1 & Hrun & Ho1 & Havail & Hbody & _ & Hpending & Hlater).
  assert (st1 = body_page true true) as ->.
  { unfold body_page. by rewrite Hrun. }
  destruct (Hlater _ (rtc_refl _ _)) as (o2 & _ & _ & _ & Hresolved & Hagain).
  destruct (Hagain 8) as (_ & Hassert & _).
  exists o1. repeat (split; [assumption |]).
  exact (proj2 (Hassert eq_refl)).
Defined.

(** In a build that skips [devAssert] the second [setBody] overwrites the
    body with the element 8 and then fails on the resolver that is
    undefined: a type error, not an assertion error. *)
Lemma second_setBody_is_a_type_error_when_unchecked :
  debugBuild (page true false) = false /\
  setBody (page true false) 0 5 (shadow_page true false)
    = (Normal tt, body_page true false) /\
  fst (setBody (page true false) 0 8 (body_page true false))
    = Throw (TypeError "is not a function") /\
  (exists o,
     heap (snd (setBody (page true false) 0 8 (body_page true false))) !! 0 = Some o /\
     getBody (page true false) o = Normal 8) /\
  ~ (forall env d el el' st st1,
       nodeType env el = 1%Z ->
       setBody env d el st = (Normal tt, st1) ->
       exists opt_message,
         fst (setBody env d el' st1) = Throw (AssertionError opt_message)).
Proof.
  split; [reflexivity |].
  split; [vm_compute; reflexivity |]. split; [vm_compute; reflexivity |]. split.
  { eexists. split; vm_compute; reflexivity. }
  intros H.
  destruct (H (page true false) 0 5 8 (shadow_page true false) _ eq_refl
              ltac:(vm_compute; reflexivity)) as [msg Hmsg].
  vm_compute in Hmsg. discriminate.
Qed.

(** In a debug build: a document is installed for the window 1 of the
    iframe 6, its parent is the top-level document 0 and the document 7 is
    marked with it; a second installation throws; so does an installation
    for the top window, which has no frame element, and one on the
    multi-document page, where the iframe has no owner. *)
Lemma installFieDoc_spec_witness :
  (exists o,
     installFieDoc (page true true) 1 "https://y/" 1 None (single_page true true)
       = (Normal 1, fie_page true true) /\
     getAmpDoc (page true true) 1 6 (single_page true true)
       = (Normal 0, single_page true true) /\
     singleDoc_ (service (single_page true true)) = Some 0 /\
     heap (fie_page true true) !! 1 = Some o /\
     getParent o = Some 0 /\
     AMPDOC_PROP (fie_page true true) !! 7 = Some 1) /\
  installFieDoc (page true true) 1 "https://z/" 1 None (fie_page true true)
    = (Throw (AssertionError (Some "The fie already contains ampdoc")),
       fie_page true true) /\
  (exists e, installFieDoc (page true true) 1 "https://y/" 0 None (multi_page true true)
             = (Throw e, multi_page true true)) /\
  (exists e, installFieDoc (page true true) 1 "https://y/" 1 None (multi_page true true)
             = (Throw e, multi_page true true)).
Proof.
  assert (Hrun : installFieDoc (page true true) 1 "https://y/" 1 None
                   (single_page true true) = (Normal 1, fie_page true true)).
  { vm_compute; reflexivity. }
  split; [| split; [| split]].
  - destruct (proj2 (proj2 (proj2 (installFieDoc_spec (page true true) 1 "https://y/"
                                     1 None (single_page true true))))
                1 _ Hrun)
      as (fe & parent & o & Hfe & Hget & _ & Ho & _ & Hparent & Hmark).
    assert (fe = 6) as -> by (vm_compute in Hfe; congruence).
    assert (parent = 0) as ->.
    { assert (Hget' : getAmpDoc (page true true) 1 6 (single_page true true)
                      = (Normal 0, single_page true true)) by (vm_compute; reflexivity).
      congruence. }
    exists o. repeat (split; [first [assumption | vm_compute; reflexivity] |]).
    exact Hmark.
  - apply (proj1 (installFieDoc_spec (page true true) 1 "https://z/" 1 None
                    (fie_page true true)));
      [reflexivity | vm_compute; eauto].
  - apply (proj1 (proj2 (installFieDoc_spec (page true true) 1 "https://y/" 0 None
                           (multi_page true true)))).
    reflexivity.
  - apply (proj1 (proj2 (proj2 (installFieDoc_spec (page true true) 1 "https://y/" 1 None
                                  (multi_page true true)))) 6);
      vm_compute; reflexivity.
Defined.

(** In a build that skips [devAssert] a second installation for the window
    1, whose document 7 is marked already, returns a new document and
    replaces the marker. *)
Lemma second_installFieDoc_returns_when_unchecked :
  debugBuild (page true false) = false /\
  AMPDOC_PROP (fie_page true false) !! document (page true false) 1 = Some 1 /\
  fst (installFieDoc (page true false) 1 "https://z/" 1 None (fie_page true false))
    = Normal 2 /\
  AMPDOC_PROP (snd (installFieDoc (page true false) 1 "https://z/" 1 None
                      (fie_page true false))) !! document (page true false) 1 = Some 2 /\
  ~ (forall env fuel url childWin opt st,
       is_Some (AMPDOC_PROP st !! document env childWin) ->
       exists e, fst (installFieDoc env fuel url childWin opt st) = Throw e).
Proof.
  split; [reflexivity |].
  repeat (split; [vm_compute; reflexivity |]).
  intros H.
  destruct (H (page true false) 1 "https://z/" 1 None (fie_page true false)
              ltac:(vm_compute; eauto)) as [e He].
  vm_compute in He. discriminate.
Qed.

(** In a debug build: the detached element 9 fails the assertion; on the
    multi-document page the element 3 has no owner; the element 2 of the
    single-document page has the owner 0. *)
Lemma getAmpDoc_spec_witness :
  getAmpDoc (page true true) 1 9 (single_page true true)
    = (Throw (AssertionError (Some "The node must be attached to request ampdoc.")),
       single_page true true) /\
  getAmpDoc (page true true) 1 3 (multi_page true true)
    = (Throw (CreatedError "No ampdoc found for" 3), multi_page true true) /\
  getAmpDoc (page true true) 1 2 (single_page true true)
    = (Normal 0, single_page true true).
Proof.
  split; [| split].
  - apply (proj1 (getAmpDoc_spec (page true true) 1 9 (single_page true true)));
      reflexivity.
  - apply (proj1 (proj2 (getAmpDoc_spec (page true true) 1 3 (multi_page true true))));
      [vm_compute; reflexivity |].
    right. intros H; vm_compute in H; discriminate.
  - apply (proj2 (proj2 (getAmpDoc_spec (page true true) 1 2 (single_page true true))));
      [intros H; vm_compute in H; discriminate | vm_compute; reflexivity].
Defined.

(** The document 1 installed for the iframe has the one parent 0. *)
Lemma getParent_spec_witness :
  reachable (page true true) (fie_page true true) /\
  parentOf (fie_page true true) 0 1 /\
  0 < 1 /\
  (forall p, parentOf (fie_page true true) p 1 -> p = 0) /\
  ~ tc (parentOf (fie_page true true)) 1 1.
Proof.
  destruct (proj2 (getParent_spec (page true true)) (fie_page true true)
              (fie_page_reachable true true))
    as (Hlt & Hone & Hacyclic & _).
  assert (Hparent : parentOf (fie_page true true) 0 1).
  { eexists. split; vm_compute; reflexivity. }
  split; [apply fie_page_reachable |]. split; [exact Hparent |].
  split; [exact (Hlt 0 1 Hparent) |].
  split; [intros p Hp; exact (Hone p 0 1 Hp Hparent) | exact (Hacyclic 1)].
Defined.

(** Declaring 'amp-b' again changes nothing; declaring 'amp-c' appends it
    once. *)
Lemma declareExtension_idempotent_witness :
  declaresExtension two_extensions "amp-b" = true /\
  declareExtension two_extensions "amp-b" = two_extensions /\
  declaredExtensions_ (declareExtension two_extensions "amp-c")
    = ["amp-a"; "amp-b"; "amp-c"] /\
  declaresExtension (declareExtension two_extensions "amp-c") "amp-c" = true /\
  NoDup (declaredExtensions_ (declareExtension two_extensions "amp-c")) /\
  (forall d o, heap (shadow_page true true) !! d = Some o ->
               NoDup (declaredExtensions_ o)).
Proof.
  destruct (declareExtension_idempotent (page true true)) as (H1 & H2 & H3 & _ & _ & H6).
  split; [reflexivity |].
  split; [apply H1; reflexivity |].
  split; [reflexivity |].
  split; [apply H2 |].
  split.
  - apply H3. by apply (bool_decide_unpack _).
  - intros d o. apply H6, shadow_page_reachable.
Defined.

(** On the page with the experiment on, the constructor marks the document
    0, and the element 2 resolves to it whatever [singleDoc_] holds. *)
Lemma constructor_marks_main_document_witness :
  isExperimentOn (page true true) 0 "ampdoc-fie" = true /\
  singleDoc_ (service (single_page true true)) = Some 0 /\
  AMPDOC_PROP (single_page true true) !! document (page true true) 0 = Some 0 /\
  getAmpDocIfAvailable (page true true) 1 (single_page true true) 2 = Some (Some 0) /\
  getAmpDocIfAvailable (page true true) 1
    (set_service (set_singleDoc_ None) (single_page true true)) 2 = Some (Some 0).
Proof.
  destruct (constructor_marks_main_document (page true true) empty_world 0)
    as (Hsingle & _ & _ & Hmarker & _ & Hfie).
  destruct (Hfie eq_refl) as [_ Howner].
  destruct (Howner 2 1 None) as [H1 H2];
    [vm_compute; reflexivity | vm_compute; reflexivity | lia |].
  split; [reflexivity |]. repeat (split; [assumption |]). exact H2.
Defined.

(** In a debug build: the flag is false on the single-document page, true
    after the first [installShadowDoc], true after the second one, which
    throws, and true after any other call. *)
Lemma installShadowDoc_sets_flag_first_witness :
  mightHaveShadowRoots_ (service (single_page true true)) = false /\
  mightHaveShadowRoots_ (service (single_shadow_page true true)) = true /\
  is_Some (AMPDOC_PROP (single_shadow_page true true) !! 4) /\
  installShadowDoc (page true true) "https://z/" 4 (single_shadow_page true true)
    = (Throw (AssertionError (Some "The shadow root already contains ampdoc")),
       set_service (set_mightHaveShadowRoots_ true) (single_shadow_page true true)) /\
  mightHaveShadowRoots_
    (service (snd (installShadowDoc (page true true) "https://z/" 4
                     (single_shadow_page true true)))) = true /\
  mightHaveShadowRoots_
    (service (exec (page true true) (CallUpdateFieModeForTesting false)
                (single_shadow_page true true))) = true.
Proof.
  assert (Hmarked : is_Some (AMPDOC_PROP (single_shadow_page true true) !! 4))
    by (vm_compute; eauto).
  destruct (installShadowDoc_sets_flag_first (page true true) "https://x/" 4
              (single_page true true)) as (Hflag & _ & _).
  destruct (installShadowDoc_sets_flag_first (page true true) "https://z/" 4
              (single_shadow_page true true)) as (Hflag' & Hthrow & Hnever).
  split; [reflexivity |].
  split; [exact Hflag |]. split; [exact Hmarked |].
  split; [exact (Hthrow eq_refl Hmarked) |]. split; [exact Hflag' |].
  apply (Hnever (single_shadow_page true true)); [| exact Hflag].
  apply rtc_once. exists (CallUpdateFieModeForTesting false).
  split; [exact I | reflexivity].
Defined.

(** ** More properties on the page *)

Lemma body_page_steps fie debug :
  rtc (step (page fie debug)) (shadow_page fie debug) (body_page fie debug).
Proof.
  eapply rtc_l; [| apply rtc_refl].
  exists (CallSetBody 0 5). split; [exact I | reflexivity].
Qed.

Lemma body_page_reachable fie debug :
  reachable (page fie debug) (body_page fie debug).
Proof.
  eapply reachable_steps; [apply shadow_page_reachable | apply body_page_steps].
Qed.

Lemma fie_page_steps fie debug :
  rtc (step (page fie debug)) (single_page fie debug) (fie_page fie debug).
Proof.
  eapply rtc_l; [| apply rtc_refl].
  exists (CallInstallFieDoc 1 "https://y/" 1 None). split; [exact I | reflexivity].
Qed.

(** The shadow document keeps its URL, its root node and its promises when
    it is given a body. *)
Lemma documents_only_grow_witness :
  reachable (page true true) (shadow_page true true) /\
  rtc (step (page true true)) (shadow_page true true) (body_page true true) /\
  exists o,
    heap (shadow_page true true) !! 0 = Some o /\
    exists o',
      heap (body_page true true) !! 0 = Some o' /\
      getUrl page_href o' = "https://x/" /\
      getRootNode (page true true) o' = 4 /\
      getHeadNode (page true true) page_head o' = Normal 4 /\
      waitForBodyOpen o' = 0 /\
      whenReady o' = 1.
Proof.
  split; [apply shadow_page_reachable |].
  split; [apply body_page_steps |].
  eexists. split; [vm_compute; reflexivity |].
  edestruct (documents_only_grow (page true true) page_href page_head
               (shadow_page true true) (body_page true true) 0)
    as (o' & Ho' & _ & _ & _ & _ & Hroot & Hurl & Hhead & Hbody & Hready & _);
    [apply shadow_page_reachable | apply body_page_steps | vm_compute; reflexivity |].
  exists o'. split; [exact Ho' |].
  rewrite Hurl, Hroot, Hhead, Hbody, Hready. by vm_compute.
Defined.

(** The shadow document of the page is made ready once; a second call
    throws. *)
Lemma setReady_once_witness :
  reachable (page true true) (shadow_page true true) /\
  exists o,
    heap (shadow_page true true) !! 0 = Some o /\
    AmpDoc_isSingleDoc o = false /\
    isReady (page true true) o = false /\
    exists st1,
      setReady (page true true) 0 (shadow_page true true) = (Normal tt, st1) /\
      promises (shadow_page true true) !! whenReady o = Some Pending /\
      promises st1 !! whenReady o = Some (Resolved None) /\
      setReady (page true true) 0 st1
      = (Throw (AssertionError (Some "Duplicate ready state")), st1).
Proof.
  split; [apply shadow_page_reachable |].
  eexists. split; [vm_compute; reflexivity |].
  split; [reflexivity |]. split; [reflexivity |].
  edestruct (setReady_once (page true true) 0 (shadow_page true true))
    as (st1 & Hrun & Hpending & Hlater);
    [apply shadow_page_reachable | vm_compute; reflexivity | reflexivity
    | reflexivity |].
  exists st1. split; [exact Hrun |]. split; [exact Hpending |].
  destruct (Hlater st1 (rtc_refl _ _)) as (o2 & _ & _ & _ & Hres & _ & Hthrows & _).
  split; [exact Hres | exact (Hthrows eq_refl)].
Defined.

(** On the shadow document of the page, giving the body 5 and then making
    it ready leaves the state that making it ready and then giving the body
    leaves. *)
Lemma setBody_setReady_commute_witness :
  reachable (page true true) (shadow_page true true) /\
  exists o,
    heap (shadow_page true true) !! 0 = Some o /\
    AmpDoc_isSingleDoc o = false /\
    getParent o = None /\
    fst (setReady (page true true) 0 (body_page true true)) = Normal tt /\
    fst (setBody (page true true) 0 5 (ready_page true true)) = Normal tt /\
    snd (setReady (page true true) 0 (body_page true true))
    = snd (setBody (page true true) 0 5 (ready_page true true)).
Proof.
  split; [apply shadow_page_reachable |].
  eexists. split; [vm_compute; reflexivity |].
  split; [reflexivity |]. split; [reflexivity |].
  edestruct (setBody_setReady_commute (page true true) 0 5 (shadow_page true true))
    as (Hready & Hbody & Hsame);
    [apply shadow_page_reachable | vm_compute; reflexivity | reflexivity
    | reflexivity |].
  split; [exact Hready |]. split; [exact Hbody | exact Hsame].
Defined.

(** The shadow document installed on the shadow root 4. *)
Lemma installShadowDoc_fresh_document_witness :
  installShadowDoc (page true true) "https://x/" 4 (multi_page true true)
  = (Normal 0, shadow_page true true) /\
  heap (multi_page true true) !! 0 = None /\
  exists o,
    heap (shadow_page true true) !! 0 = Some o /\
    getUrl page_href o = "https://x/" /\
    getRootNode (page true true) o = 4 /\
    getWin o = 0 /\
    isReady (page true true) o = false /\
    promises (shadow_page true true) !! whenReady o = Some Pending.
Proof.
  assert (Hrun : installShadowDoc (page true true) "https://x/" 4 (multi_page true true)
                 = (Normal 0, shadow_page true true)) by (vm_compute; reflexivity).
  destruct (installShadowDoc_fresh_document (page true true) page_href page_head
              _ _ _ _ _ Hrun)
    as (Hnew & (o & Ho & Hurl & Hroot & _ & Hwin & _ & _ & _ & Hready & _ & _ & _ & _
                & _ & Hpending) & _).
  split; [exact Hrun |]. split; [exact Hnew |].
  exists o. split; [exact Ho |]. split; [exact Hurl |]. split; [exact Hroot |].
  split; [exact Hwin |]. split; [exact Hready | exact Hpending].
Defined.


(** The element 5 of the shadow root 4 resolves to the shadow document just
    installed, and the body 8 of the iframe to the document installed for
    its window. *)
Lemma install_then_find_witness :
  installShadowDoc (page false true) "https://x/" 4 (multi_page false true)
  = (Normal 0, shadow_page false true) /\
  InShadowRoot (page false true) 0 4 5 /\
  getAmpDocIfAvailable (page false true) 1 (shadow_page false true) 5 = Some (Some 0) /\
  installFieDoc (page true true) 1 "https://y/" 1 None (single_page true true)
  = (Normal 1, fie_page true true) /\
  getAmpDocIfAvailable (page true true) 1 (fie_page true true) 8 = Some (Some 1).
Proof.
  assert (Hshadow : installShadowDoc (page false true) "https://x/" 4
                      (multi_page false true)
                    = (Normal 0, shadow_page false true)) by (vm_compute; reflexivity).
  assert (Hfie : installFieDoc (page true true) 1 "https://y/" 1 None
                   (single_page true true)
                 = (Normal 1, fie_page true true)) by (vm_compute; reflexivity).
  assert (Hin : InShadowRoot (page false true) 0 4 5).
  { split; [reflexivity |]. split; [reflexivity |]. split; [discriminate | reflexivity]. }
  split; [exact Hshadow |]. split; [exact Hin |]. split.
  - apply (proj1 (install_then_find (page false true)) _ _ _ _ _ Hshadow);
      [exact Hin | reflexivity | lia].
  - split; [exact Hfie |].
    apply (proj1 (proj2 (install_then_find (page true true)) _ _ _ _ _ _ _ Hfie));
      [reflexivity | reflexivity | reflexivity | lia].
Defined.

(** On the page with the document of the iframe, the marker of the document
    7 is the document whose root node is 7. *)
Lemma markers_name_root_nodes_witness :
  reachable (page true true) (fie_page true true) /\
  AMPDOC_PROP (fie_page true true) !! 7 = Some 1 /\
  exists o, heap (fie_page true true) !! 1 = Some o /\
            getRootNode (page true true) o = 7 /\
            AMPDOC_PROP (fie_page true true) !! getRootNode (page true true) o = Some 1.
Proof.
  destruct (markers_name_root_nodes (page true true) (fie_page true true)
              (fie_page_reachable true true)) as (Hm & _ & Hdebug).
  assert (Hmark : AMPDOC_PROP (fie_page true true) !! 7 = Some 1)
    by (vm_compute; reflexivity).
  split; [apply fie_page_reachable |]. split; [exact Hmark |].
  destruct (Hm 7 1 Hmark) as (o & Ho & Hroot).
  exists o. split; [exact Ho |]. split; [exact Hroot |].
  exact (proj1 (Hdebug eq_refl) 1 o Ho).
Defined.

(** The shadow root 4 holds a document: no second one is installed on it
    while [devAssert] checks. *)
Lemma install_needs_a_free_root_witness :
  reachable (page true true) (shadow_page true true) /\
  debugBuild (page true true) = true /\
  ~ (exists d st',
       installShadowDoc (page true true) "https://z/" 4 (shadow_page true true)
       = (Normal d, st')).
Proof.
  split; [apply shadow_page_reachable |]. split; [reflexivity |].
  intros Hrun.
  destruct (install_needs_a_free_root (page true true) (shadow_page true true)
              (shadow_page_reachable true true) eq_refl) as [Hshadow _].
  eapply (proj1 (Hshadow "https://z/" 4) Hrun 0); vm_compute; reflexivity.
Defined.

(** The shadow document with its body 5: the body promise holds an element,
    the ready promise is pending. *)
Lemma promises_follow_the_flags_witness :
  reachable (page true true) (body_page true true) /\
  exists o,
    heap (body_page true true) !! 0 = Some o /\
    AmpDoc_isSingleDoc o = false /\
    promises (body_page true true) !! whenReady o = Some Pending /\
    exists el, promises (body_page true true) !! waitForBodyOpen o
               = Some (Resolved (Some el)).
Proof.
  split; [apply body_page_reachable |].
  eexists. split; [vm_compute; reflexivity |]. split; [reflexivity |].
  edestruct (promises_follow_the_flags (page true true) (body_page true true) 0)
    as (Hready & Hbody);
    [apply body_page_reachable | vm_compute; reflexivity | reflexivity |].
  split; [exact Hready |].
  destruct (proj2 (Hbody eq_refl) eq_refl) as (el & Hel & _). by exists el.
Defined.

(** The single-document page stays in single-document mode when a document
    is installed for the iframe. *)
Lemma single_doc_mode_witness :
  rtc (step (page true true)) (single_page true true) (fie_page true true) /\
  isSingleDoc (fie_page true true) = true /\
  win (service (fie_page true true)) = 0 /\
  getSingleDoc (page true true) (fie_page true true)
  = (Normal (Some 0), fie_page true true).
Proof.
  destruct (single_doc_mode (page true true) 0 true (fie_page true true)
              (fie_page_steps true true)) as (Hmode & Hwin & Hget & _).
  split; [apply fie_page_steps |]. split; [exact Hmode |]. split; [exact Hwin | exact Hget].
Defined.

(** The element 5 resolves to the shadow document, whose root node is the
    root of 5. *)
Lemma getAmpDocIfAvailable_sound_witness :
  reachable (page true true) (shadow_page true true) /\
  getAmpDocIfAvailable (page true true) 1 (shadow_page true true) 5 = Some (Some 0) /\
  exists o,
    heap (shadow_page true true) !! 0 = Some o /\
    exists k m,
      k < 1 /\ reaches (fie_body (page true true) (shadow_page true true)) k 5 m /\
      (ampdoc_ (shadow_page true true) !! m = Some 0 \/
       (ampdoc_ (shadow_page true true) !! m = None /\
        rootNodeFor (page true true) m = Some (getRootNode (page true true) o) /\
        AMPDOC_PROP (shadow_page true true) !! getRootNode (page true true) o = Some 0)).
Proof.
  assert (Hrun : getAmpDocIfAvailable (page true true) 1 (shadow_page true true) 5
                 = Some (Some 0)) by (vm_compute; reflexivity).
  split; [apply shadow_page_reachable |]. split; [exact Hrun |].
  exact (getAmpDocIfAvailable_sound (page true true) 1 (shadow_page true true) 5 0
           (shadow_page_reachable true true) Hrun).
Defined.

(** Once the element 5 has cached its owner, it still resolves to it, and
    the shadow host 3 still resolves to nothing. *)
Lemma caching_is_transparent_witness :
  getAmpDocIfAvailable (page true true) 1 (shadow_page true true) 5 = Some (Some 0) /\
  getAmpDocIfAvailable (page true true) 1 (cached_page true true) 5 = Some (Some 0) /\
  getAmpDocIfAvailable (page true true) 2 (shadow_page true true) 3 = Some None /\
  getAmpDocIfAvailable (page true true) 2 (cached_page true true) 3 = Some None.
Proof.
  assert (Hrun : getAmpDocIfAvailable (page true true) 1 (shadow_page true true) 5
                 = Some (Some 0)) by (vm_compute; reflexivity).
  assert (Hhost : getAmpDocIfAvailable (page true true) 2 (shadow_page true true) 3
                  = Some None) by (vm_compute; reflexivity).
  destruct (caching_is_transparent (page true true) (shadow_page true true) 5 0 1 Hrun)
    as [Hsame Hothers].
  split; [exact Hrun |]. split; [apply Hsame; lia |].
  split; [exact Hhost | exact (Hothers 2 3 None Hhost)].
Defined.

(** On the page, whose nesting has depth 1, a fuel of 2 is enough for the
    body 8 of the iframe. *)
Lemma getAmpDocIfAvailable_total_witness :
  page_rank 8 < 2 /\
  (exists r,
     getAmpDocIfAvailable (page true true) 2 (fie_page true true) 8 = Some r /\
     forall fuel', page_rank 8 < fuel' ->
       getAmpDocIfAvailable (page true true) fuel' (fie_page true true) 8 = Some r) /\
  fst (getAmpDoc (page true true) 2 8 (fie_page true true)) <> OutOfFuel.
Proof.
  split; [vm_compute; lia |].
  apply (getAmpDocIfAvailable_total (page true true) page_rank (fie_page true true) 8 2).
  - intros m r h. do 10 (destruct m as [| m]; [vm_compute; intros; simplify_eq; lia |]);
    vm_compute; intros; simplify_eq.
  - intros m r f. do 10 (destruct m as [| m]; [vm_compute; intros; simplify_eq; lia |]);
    vm_compute; intros; simplify_eq.
  - intros m f. do 10 (destruct m as [| m]; [vm_compute; intros; simplify_eq; lia |]);
    vm_compute; intros; simplify_eq.
  - intros m r h. do 10 (destruct m as [| m]; [vm_compute; intros; simplify_eq; lia |]);
    vm_compute; intros; simplify_eq.
  - vm_compute; lia.
Defined.
